(** * Network Diagnostics report: the computation behind [Network.render]

    Shallow embedding of [pkg/ui/src/views/reports/containers/network/index.tsx].

    Conventions of the embedding.
    - A JavaScript exception is the [Throw] outcome of the [result] monad;
      every property read on [undefined] is written with [prop] and throws
      [TypeError], as the engine does.
    - A JavaScript [number] holding a latency is an IEEE-754 binary64 value,
      the Standard Library's [spec_float] at precision 53; [undefined] is the
      [None] of an [option].
    - Node ids are the [int32] of the protobuf descriptor, kept as [Z].  The
      objects [nodeStatusByID], [livenessStatusByNodeID] and [latencies] are
      keyed by the decimal text of a node id and [nodeIDs] lists those texts;
      the embedding keys them by the id itself, so that [Number.parseInt] on
      such a key and the key conversion of a property read are the identity.
    - A [Set<number>] is a [gset Z]: only [size] and [has] are used on it. *)

From Stdlib Require Import ZArith String Ascii SpecFloat.
From stdpp Require Import base decidable option list gmap strings sorting pretty.

Local Open Scope string_scope.
Local Open Scope Z_scope.

(** ** Exceptions *)

Inductive JsError : Type :=
| TypeError
| SyntaxError.

Inductive result (A : Type) : Type :=
| Ok (a : A)
| Throw (e : JsError).

Arguments Ok {A} a.
Arguments Throw {A} e.

#[global] Instance result_ret : MRet result := fun A a => Ok a.
#[global] Instance result_bind : MBind result := fun A B f m =>
  match m with
  | Ok a => f a
  | Throw e => Throw e
  end.
#[global] Instance result_fmap : FMap result := fun A B f m =>
  match m with
  | Ok a => Ok (f a)
  | Throw e => Throw e
  end.

(** [try { body } catch (e) { handler }]. *)
Definition try_catch {A} (body : result A) (handler : JsError -> result A) : result A :=
  match body with
  | Ok a => Ok a
  | Throw e => handler e
  end.

(** [v.field] where [v] may be [undefined]. *)
Definition prop {A B} (v : option A) (field : A -> B) : result B :=
  match v with
  | Some a => Ok (field a)
  | None => Throw TypeError
  end.

(** ** Numbers *)

Abbreviation number := spec_float.

Definition prec : Z := 53.
Definition emax : Z := 1024.

Definition NaN : number := S754_nan.
Definition num_of_Z (z : Z) : number := binary_normalize prec emax z 0 false.

Definition num_add : number -> number -> number := SFadd prec emax.
Definition num_sub : number -> number -> number := SFsub prec emax.
Definition num_mul : number -> number -> number := SFmul prec emax.
Definition num_div : number -> number -> number := SFdiv prec emax.
Definition num_sqrt : number -> number := SFsqrt prec emax.

(** [x < y] and [x > y] of JavaScript: false as soon as one side is NaN. *)
Definition num_lt (x y : number) : bool := SFltb x y.
Definition num_gt (x y : number) : bool := SFltb y x.

Definition isNaN (x : number) : bool :=
  match x with
  | S754_nan => true
  | _ => false
  end.

(** [_.isFinite]: a number that is neither NaN nor an infinity. *)
Definition isFinite (x : number) : bool :=
  match x with
  | S754_zero _ | S754_finite _ _ _ => true
  | S754_infinity _ | S754_nan => false
  end.

(** ToNumber on a value that is a number or [undefined]. *)
Definition ToNumber (v : option number) : number :=
  match v with
  | Some x => x
  | None => NaN
  end.

(** Truthiness of a number: [0], [-0] and NaN are falsy. *)
Definition truthy (x : number) : bool :=
  match x with
  | S754_zero _ | S754_nan => false
  | _ => true
  end.

(** ** [parseInt] and [_.split] *)

Definition isStrWhiteSpaceChar (c : ascii) : bool :=
  let n := nat_of_ascii c in
  ((9 <=? n) && (n <=? 13))%nat || (n =? 32)%nat.

Fixpoint trimStart (s : string) : string :=
  match s with
  | String c s' => if isStrWhiteSpaceChar c then trimStart s' else s
  | EmptyString => EmptyString
  end.

Definition digitValue (c : ascii) : option Z :=
  let n := Z.of_nat (nat_of_ascii c) in
  if (48 <=? n) && (n <=? 57) then Some (n - 48)
  else if (97 <=? n) && (n <=? 122) then Some (n - 87)
  else if (65 <=? n) && (n <=? 90) then Some (n - 55)
  else None.

(** The longest prefix of radix-[R] digits, read as an integer; [None] when
    that prefix is empty. *)
Fixpoint parseDigits (R : Z) (acc : option Z) (s : string) : option Z :=
  match s with
  | String c s' =>
      match digitValue c with
      | Some d =>
          if d <? R then parseDigits R (Some (default 0 acc * R + d)) s' else acc
      | None => acc
      end
  | EmptyString => acc
  end.

Definition stripSign (s : string) : Z * string :=
  match s with
  | String "-" s' => (-1, s')
  | String "+" s' => (1, s')
  | _ => (1, s)
  end.

Definition stripHexPrefix (s : string) : option string :=
  match s with
  | String "0" (String "x" s') | String "0" (String "X" s') => Some s'
  | _ => None
  end.

(** [parseInt(s, radix)]: [None] is NaN.  Leading white space is the ASCII
    one, and the integer is kept exact where the engine rounds it to the
    nearest binary64 beyond [2^53]. *)
Definition parseInt (s : string) (radix : Z) : option Z :=
  let '(sign, str) := stripSign (trimStart s) in
  if (radix =? 0) || (radix =? 16) then
    match stripHexPrefix str with
    | Some str' => z ← parseDigits 16 None str'; Some (sign * z)
    | None => z ← parseDigits (if radix =? 0 then 10 else 16) None str; Some (sign * z)
    end
  else if (radix <? 2) || (36 <? radix) then None
  else z ← parseDigits radix None str; Some (sign * z).

(** [_.split(s, ",")] *)
Fixpoint split_comma (s : string) : list string :=
  match s with
  | EmptyString => [EmptyString]
  | String c s' =>
      if Ascii.eqb c ","
      then EmptyString :: split_comma s'
      else match split_comma s' with
           | t :: ts => String c t :: ts
           | [] => [String c EmptyString]
           end
  end.

(** [_.isEmpty] on a query parameter, a string or [undefined]. *)
Definition isEmpty_str (input : option string) : bool :=
  match input with
  | None | Some EmptyString => true
  | Some _ => false
  end.

(** [if (nodeID) ids.add(nodeID)]: NaN and zero are falsy. *)
Definition addNodeID (ids : gset Z) (nodeIDString : string) : gset Z :=
  match parseInt nodeIDString 10 with
  | Some nodeID => if nodeID =? 0 then ids else ids ∪ {[nodeID]}
  | None => ids
  end.

Definition getNodeIDs (input : option string) : gset Z :=
  match input with
  | Some s => if isEmpty_str input then ∅ else foldl addNodeID ∅ (split_comma s)
  | None => ∅
  end.

(** ** Arrays in the [result] monad *)

(** A filter whose predicate may throw, as the callbacks of a chain can. *)
Definition filterM {A} (p : A -> result bool) : list A -> result (list A) :=
  fix go l :=
    match l with
    | [] => Ok []
    | x :: l' => b ← p x; k ← go l'; Ok (if b : bool then x :: k else k)
    end.

(** ** lodash on arrays *)

Module lodash.

(** [_.without(array, v)] *)
Definition without (v : Z) (array : list Z) : list Z :=
  filter (λ x, x ≠ v) array.

(** [_.difference(array, values)] *)
Definition difference (array values : list Z) : list Z :=
  filter (λ x, x ∉ values) array.

(** [_.uniq]: the first occurrence of each value is the one kept. *)
Definition uniq (array : list Z) : list Z :=
  reverse (remove_dups (reverse array)).

(** [_.union(a, b)] *)
Definition union (a b : list Z) : list Z := uniq (a ++ b).

(** Stable insertion: [x] stood before every element of [l] and stays before
    those whose key is not smaller than its own. *)
Fixpoint insert_by {K A} (lt : K -> K -> bool) (x : K * A) (l : list (K * A)) : list (K * A) :=
  match l with
  | [] => [x]
  | y :: l' => if lt y.1 x.1 then y :: insert_by lt x l' else x :: l
  end.

Definition stable_sort {K A} (lt : K -> K -> bool) (l : list (K * A)) : list (K * A) :=
  foldr (insert_by lt) [] l.

(** [_.sortBy(array, iteratee)]: the iteratee is applied to every element
    first, then the elements are sorted on the computed criteria, ties broken
    by position. *)
Definition sortBy {K A} (lt : K -> K -> bool) (iteratee : A -> result K) (array : list A)
  : result (list A) :=
  criteria ← mapM iteratee array;
  Ok ((stable_sort lt (zip criteria array)).*2).

(** [_.keys] of an object keyed by node ids: integer keys come in ascending
    order. *)
Definition keys {V} (object : gmap Z V) : list Z :=
  (stable_sort Z.ltb ((λ kv : Z * V, (kv.1, kv.1)) <$> map_to_list object)).*2.

End lodash.

(** ** d3: [mean], [variance], [deviation]

    The array statistics of the d3 library as it computes them: a running sum
    for the mean, Welford's update for the variance, [undefined] when there
    are too few numbers. *)

Definition d3Mean (values : list number) : option number :=
  let '(s, j) :=
    foldl (λ '(s, j) a, if isNaN a then (s, j - 1) else (num_add s a, j))
          (num_of_Z 0, Z.of_nat (length values)) values in
  if j =? 0 then None else Some (num_div s (num_of_Z j)).

Definition d3Variance (values : list number) : option number :=
  let '(m, s, j) :=
    foldl (λ '(m, s, j) a,
             if isNaN a then (m, s, j)
             else
               let d := num_sub a m in
               let j' := j + 1 in
               let m' := num_add m (num_div d (num_of_Z j')) in
               (m', num_add s (num_mul d (num_sub a m')), j'))
          (num_of_Z 0, num_of_Z 0, 0) values in
  if 1 <? j then Some (num_div s (num_of_Z (j - 1))) else None.

(** [return v ? Math.sqrt(v) : v] *)
Definition d3Deviation (values : list number) : option number :=
  match d3Variance values with
  | Some v => if truthy v then Some (num_sqrt v) else Some v
  | None => None
  end.

(** ** Data model *)

(** Modelled from the spec: the protobuf message types of [src/js/protos],
    read through the fields the report uses: [desc.node_id],
    [desc.address.address_field], [desc.locality.tiers], [updated_at] and
    [latencies] (here [status_latencies]).  A [Long] is kept as its integer
    value and [Long.toNumber] rounds it to the nearest binary64. *)
Record Tier : Type := { key : string; value : string }.

Record Locality : Type := { tiers : list Tier }.

Record NodeDescriptor : Type := {
  node_id : Z;
  address_field : string;
  desc_locality : Locality;
}.

Record NodeStatus : Type := {
  desc : NodeDescriptor;
  updated_at : Z;
  status_latencies : gmap Z Z;
}.

Definition toNumber (long : Z) : number := num_of_Z long.

(** Modelled from the spec: [NanoToMilli] of [src/util/convert], which turns
    a duration in nanoseconds into milliseconds. *)
Definition NanoToMilli (nano : number) : number :=
  num_div nano (num_of_Z 1000000).

(** Modelled from the spec: [LongToMoment] of [src/util/convert]; the
    timestamp is carried through unchanged. *)
Definition LongToMoment (long : Z) : Z := long.

(** Modelled from the spec: [LivenessStatus] of [src/redux/nodes], with one
    state besides the two the report reads. *)
Inductive LivenessStatus : Type :=
| HEALTHY
| SUSPECT
| DEAD.

#[global] Instance LivenessStatus_eq_dec : EqDecision LivenessStatus.
Proof. solve_decision. Defined.

(** Modelled from the spec: [NodesSummary] of [src/redux/nodes], the four
    fields [render] reads. *)
Record NodesSummary : Type := {
  nodeStatuses : list NodeStatus;
  nodeIDs : list Z;
  nodeStatusByID : gmap Z NodeStatus;
  livenessStatusByNodeID : gmap Z LivenessStatus;
}.

Record Identity : Type := {
  nodeID : Z;
  address : string;
  locality : string;
  updatedAt : Z;
}.

(** [identityByID.get] may answer [undefined], and the object literal built
    in [render] stores that answer as it is. *)
Record NoConnection : Type := {
  from : option Identity;
  to : option Identity;
}.

(** [this.props.location.query] *)
Record Query : Type := {
  node_ids : option string;
  query_locality : option string;
}.

(** The regular expression engine: [RegExp_compile] answers [None] where
    [new RegExp(pattern)] throws a [SyntaxError]. *)
Class RegExpEngine : Type := {
  RegExp : Type;
  RegExp_compile : string -> option RegExp;
  RegExp_test : RegExp -> string -> bool;
}.

Definition new_RegExp `{RegExpEngine} (pattern : string) : result RegExp :=
  match RegExp_compile pattern with
  | Some re => Ok re
  | None => Throw SyntaxError
  end.

Definition localityToString (l : Locality) : string :=
  String.concat "," (map (λ tier, key tier ++ "=" ++ value tier)%string (tiers l)).

(** The heat classes of a latency cell. *)
Inductive Heat : Type :=
| StddevPlus2
| StddevPlus1
| StddevMinus2
| StddevMinus1
| StddevEven.

(** The three kinds of cell [getLatencyCell] builds: [--self], [--no-connection]
    and [--stddev-*] with the latency it prints. *)
Inductive Cell : Type :=
| CellSelf
| CellNoConnection
| CellHeat (heat : Heat) (latency : number).

(** ** [Network.render] *)

Section Render.
Context `{RegExpEngine}.
Variable nodesSummary : NodesSummary.
Variable query : Query.

Definition requestedIDs : gset Z := getNodeIDs (node_ids query).

(** The [try]/[catch] around [new RegExp]; [null] is [None]. *)
Definition localityRegex : result (option RegExp) :=
  if negb (isEmpty_str (query_locality query)) then
    try_catch (re ← new_RegExp (default "" (query_locality query)); Ok (Some re))
              (λ _, Ok None)
  else Ok None.

Definition identityByID : gmap Z Identity :=
  foldl (λ m status,
           <[ node_id (desc status) :=
                {| nodeID := node_id (desc status);
                   address := address_field (desc status);
                   locality := localityToString (desc_locality (desc status));
                   updatedAt := LongToMoment (updated_at status) |} ]> m)
        ∅ (nodeStatuses nodesSummary).

(** [nodeIDs] filtered on one liveness status. *)
Definition withLiveness (st : LivenessStatus) : list Z :=
  filter (λ nodeID, livenessStatusByNodeID nodesSummary !! nodeID = Some st)
         (nodeIDs nodesSummary).

Definition onlyRequested (ids : list Z) : list Z :=
  if decide (0 < size requestedIDs)%nat
  then filter (λ nodeID, nodeID ∈ requestedIDs) ids
  else ids.

(** [localityToString(nodesSummary.nodeStatusByID[nodeID].desc.locality)] *)
Definition localityOf (nodeID : Z) : result string :=
  d ← prop (nodeStatusByID nodesSummary !! nodeID) desc;
  Ok (localityToString (desc_locality d)).

Definition notMatching (locality : option RegExp) (ids : list Z) : result (list Z) :=
  match locality with
  | Some re => filterM (λ nodeID, l ← localityOf nodeID; Ok (negb (RegExp_test re l))) ids
  | None => Ok ids
  end.

(** The two lazy chains; each [.value()] runs the chain. *)
Definition healthyIDsContext (locality : option RegExp) : result (list Z) :=
  notMatching locality (onlyRequested (withLiveness HEALTHY)).

Definition staleIDsContext (locality : option RegExp) : result (list Z) :=
  notMatching locality (onlyRequested (withLiveness SUSPECT)).

Definition healthyIDs (locality : option RegExp) : result (list Z) :=
  healthyIDsContext locality.

Definition staleIDs (locality : option RegExp) : result (gset Z) :=
  ids ← staleIDsContext locality; Ok (list_to_set ids).

Definition byNodeIDThenLocality (ids : list Z) : result (list (option Identity)) :=
  l ← lodash.sortBy Z.ltb (λ identity, prop identity nodeID)
                    (map (λ nodeID, identityByID !! nodeID) ids);
  lodash.sortBy String.ltb (λ identity, prop identity locality) l.

Definition displayIdentities (locality : option RegExp) : result (list (option Identity)) :=
  h ← healthyIDsContext locality;
  s ← staleIDsContext locality;
  byNodeIDThenLocality (lodash.union h s).

Definition staleIdentities (locality : option RegExp) : result (list (option Identity)) :=
  s ← staleIDsContext locality;
  byNodeIDThenLocality s.

(** [NanoToMilli(nodesSummary.nodeStatusByID[nodeIDa].latencies[nodeIDb].toNumber())] *)
Definition latencyMillis (nodeIDa nodeIDb : Z) : result number :=
  a ← prop (nodeStatusByID nodesSummary !! nodeIDa) status_latencies;
  n ← prop (a !! nodeIDb) toNumber;
  Ok (NanoToMilli n).

Definition keptSample (ms : number) : bool := isFinite ms && num_gt ms (num_of_Z 0).

Definition latenciesFrom (healthy : list Z) (nodeIDa : Z) : result (list number) :=
  l ← mapM (latencyMillis nodeIDa) (lodash.without nodeIDa healthy);
  Ok (List.filter keptSample l).

Definition latencies (healthy : list Z) : result (list number) :=
  l ← mapM (latenciesFrom healthy) healthy; Ok (concat l).

Section Stats.
Variable sample : list number.

Definition mean : option number := d3Mean sample.
Definition stddev : option number := d3Deviation sample.
Definition stddevPlus1 : number := num_add (ToNumber mean) (ToNumber stddev).
Definition stddevPlus2 : number := num_add stddevPlus1 (ToNumber stddev).
Definition stddevMinus1 : number := num_sub (ToNumber mean) (ToNumber stddev).
Definition stddevMinus2 : number := num_sub stddevMinus1 (ToNumber stddev).

Definition heatOf (latency : number) : Heat :=
  if num_gt latency stddevPlus2 then StddevPlus2
  else if num_gt latency stddevPlus1 then StddevPlus1
  else if num_lt latency stddevMinus2 then StddevMinus2
  else if num_lt latency stddevMinus1 then StddevMinus1
  else StddevEven.

(** The legend prints the five values with [toFixed(2)]; [mean] is read as
    an object there. *)
Definition legend : result (list number) :=
  m ← prop mean id;
  Ok [stddevMinus2; stddevMinus1; m; stddevPlus1; stddevPlus2].

End Stats.

Definition noConnectionsFrom (healthy : list Z) (nodeIDa : Z) : result (list NoConnection) :=
  a ← prop (nodeStatusByID nodesSummary !! nodeIDa) status_latencies;
  let l0 := map (λ nodeIDb, {| from := identityByID !! nodeIDa; to := identityByID !! nodeIDb |})
                (lodash.difference (lodash.keys a) healthy) in
  l1 ← lodash.sortBy Z.ltb (λ noConnection, prop (to noConnection) nodeID) l0;
  l2 ← lodash.sortBy String.ltb (λ noConnection, prop (to noConnection) locality) l1;
  l3 ← lodash.sortBy Z.ltb (λ noConnection, prop (from noConnection) nodeID) l2;
  lodash.sortBy String.ltb (λ noConnection, prop (from noConnection) locality) l3.

Definition noConnections (healthy : list Z) : result (list NoConnection) :=
  l ← mapM (noConnectionsFrom healthy) healthy; Ok (concat l).

Definition getLatencyCell (stale : gset Z) (sample : list number) (nodeIDa nodeIDb : Z)
  : result Cell :=
  if decide (nodeIDa = nodeIDb) then Ok CellSelf
  else if decide (nodeIDa ∈ stale ∨ nodeIDb ∈ stale) then Ok CellNoConnection
  else
    a ← prop (nodeStatusByID nodesSummary !! nodeIDa) status_latencies;
    match a !! nodeIDb with
    | None => Ok CellNoConnection
    | Some l =>
        let latency := NanoToMilli (toNumber l) in
        Ok (CellHeat (heatOf sample latency) latency)
    end.

(** What [render] hands to the markup. *)
Record Report : Type := {
  report_displayIdentities : list (option Identity);
  report_staleIdentities : list (option Identity);
  report_latencyTable : list (list Cell);
  report_legend : list number;
  report_noConnections : list NoConnection;
}.

Inductive Rendered : Type :=
| loading
| page (r : Report).

Definition latencyTable (stale : gset Z) (sample : list number)
    (display : list (option Identity)) : result (list (list Cell)) :=
  mapM (λ identityA,
          mapM (λ identityB,
                  a ← prop identityA nodeID;
                  b ← prop identityB nodeID;
                  getLatencyCell stale sample a b) display) display.

Definition render : result Rendered :=
  if bool_decide (nodeIDs nodesSummary = [])
     || bool_decide (livenessStatusByNodeID nodesSummary = ∅)
  then Ok loading
  else
    locality ← localityRegex;
    healthy ← healthyIDs locality;
    stale ← staleIDs locality;
    display ← displayIdentities locality;
    staleIdents ← staleIdentities locality;
    sample ← latencies healthy;
    noConns ← noConnections healthy;
    table ← latencyTable stale sample display;
    leg ← legend sample;
    Ok (page {| report_displayIdentities := display;
                report_staleIdentities := staleIdents;
                report_latencyTable := table;
                report_legend := leg;
                report_noConnections := noConns |}).

End Render.

(** ** A small engine and snapshots to run the report on *)

(** Patterns of this engine are literal texts, found anywhere in the subject;
    a pattern with an opening parenthesis is refused, as an unterminated
    group is. *)
Fixpoint occurs (p s : string) : bool :=
  String.prefix p s ||
  match s with
  | String _ s' => occurs p s'
  | EmptyString => false
  end.

Definition literal_engine : RegExpEngine := {|
  RegExp := string;
  RegExp_compile := λ p, if occurs "(" p then None else Some p;
  RegExp_test := occurs;
|}.

Definition mkStatus (id : Z) (dc : string) (lat : list (Z * Z)) : NodeStatus :=
  {| desc := {| node_id := id;
                address_field := "host";
                desc_locality := {| tiers := [ {| key := "dc"; value := dc |} ] |} |};
     updated_at := 0;
     status_latencies := list_to_map lat |}.

(** The summary the selectors of [src/redux/nodes] derive from a list of
    statuses and a liveness table. *)
Definition mkSummary (statuses : list NodeStatus) (liveness : list (Z * LivenessStatus))
  : NodesSummary :=
  {| nodeStatuses := statuses;
     nodeIDs := map (λ s, node_id (desc s)) statuses;
     nodeStatusByID := list_to_map (map (λ s, (node_id (desc s), s)) statuses);
     livenessStatusByNodeID := list_to_map liveness |}.

Definition noQuery : Query := {| node_ids := None; query_locality := None |}.

(** The three healthy nodes of the worked example: 5 ms and 6 ms inside and
    next to the [east] pair, 50 ms across. *)
Definition threeNodes : NodesSummary :=
  mkSummary
    [mkStatus 1 "east" [(2, 5000000); (3, 50000000)];
     mkStatus 2 "east" [(1, 5000000); (3, 6000000)];
     mkStatus 3 "west" [(1, 50000000); (2, 6000000)]]
    [(1, HEALTHY); (2, HEALTHY); (3, HEALTHY)].

(** Two healthy nodes, one suspect node and one dead node, every node
    reporting a latency to every other. *)
Definition mixedCluster : NodesSummary :=
  mkSummary
    [mkStatus 1 "east" [(2, 5000000); (3, 7000000); (4, 9000000)];
     mkStatus 2 "west" [(1, 5000000); (3, 8000000); (4, 9000000)];
     mkStatus 3 "east" [(1, 7000000); (2, 8000000); (4, 9000000)];
     mkStatus 4 "west" [(1, 9000000); (2, 9000000); (3, 9000000)]]
    [(1, HEALTHY); (2, HEALTHY); (3, SUSPECT); (4, DEAD)].

(** Two healthy nodes that report a latency of zero to each other. *)
Definition zeroLatency : NodesSummary :=
  mkSummary
    [mkStatus 1 "east" [(2, 0)];
     mkStatus 2 "west" [(1, 0)]]
    [(1, HEALTHY); (2, HEALTHY)].

(** The three healthy nodes again, the first reporting a latency of zero to
    the second. *)
Definition oneZeroLatency : NodesSummary :=
  mkSummary
    [mkStatus 1 "east" [(2, 0); (3, 50000000)];
     mkStatus 2 "east" [(1, 5000000); (3, 6000000)];
     mkStatus 3 "west" [(1, 50000000); (2, 6000000)]]
    [(1, HEALTHY); (2, HEALTHY); (3, HEALTHY)].

(** Two healthy nodes; the first has no latency entry for the second. *)
Definition missingEntry : NodesSummary :=
  mkSummary
    [mkStatus 1 "east" [];
     mkStatus 2 "west" [(1, 5000000)]]
    [(1, HEALTHY); (2, HEALTHY)].

(** One healthy node that reports a latency to node 9, a node no status
    describes. *)
Definition unknownPeer : NodesSummary :=
  mkSummary [mkStatus 1 "east" [(9, 5000000)]] [(1, HEALTHY)].

(** Two healthy nodes of localities [dc=b] and [dc=a], listed by id, and a
    suspect node both report a latency to. *)
Definition twoFromOneTo : NodesSummary :=
  mkSummary
    [mkStatus 1 "b" [(2, 5000000); (3, 7000000)];
     mkStatus 2 "a" [(1, 5000000); (3, 8000000)];
     mkStatus 3 "c" [(1, 7000000); (2, 8000000)]]
    [(1, HEALTHY); (2, HEALTHY); (3, SUSPECT)].

(** The ordering of a no-connection list as the design text words it: the
    four stable sorts, each over the whole list. *)
Definition wholeListOrder (l : list NoConnection) : result (list NoConnection) :=
  l1 ← lodash.sortBy Z.ltb (λ noConnection, prop (to noConnection) nodeID) l;
  l2 ← lodash.sortBy String.ltb (λ noConnection, prop (to noConnection) locality) l1;
  l3 ← lodash.sortBy Z.ltb (λ noConnection, prop (from noConnection) nodeID) l2;
  lodash.sortBy String.ltb (λ noConnection, prop (from noConnection) locality) l3.

(** The ids and the localities along a list of identities or connections. *)
Definition idOf (i : option Identity) : option Z := option_map nodeID i.
Definition localityFrom (c : NoConnection) : option string := option_map locality (from c).
Definition endsOf (c : NoConnection) : option Z * option Z := (idOf (from c), idOf (to c)).

(** The summary in which node [a] reports the latency [l] to node [b]. *)
Definition withLatency (nodesSummary : NodesSummary) (a b l : Z) : NodesSummary :=
  {| nodeStatuses := nodeStatuses nodesSummary;
     nodeIDs := nodeIDs nodesSummary;
     nodeStatusByID :=
       alter (λ status, {| desc := desc status;
                           updated_at := updated_at status;
                           status_latencies := <[ b := l ]> (status_latencies status) |})
             a (nodeStatusByID nodesSummary);
     livenessStatusByNodeID := livenessStatusByNodeID nodesSummary |}.

(** ** The object literal of [identityByID] *)

(** The identity [render] stores for one status. *)
Definition identityOf (status : NodeStatus) : Identity :=
  {| nodeID := node_id (desc status);
     address := address_field (desc status);
     locality := localityToString (desc_locality (desc status));
     updatedAt := LongToMoment (updated_at status) |}.

(** The order of the two sorts over identities, locality first: no smaller
    locality later, and ascending ids within one locality. *)
Definition localityThenID (i j : Identity) : Prop :=
  String.ltb (locality j) (locality i) = false
  ∧ (locality i = locality j -> nodeID i ≤ nodeID j).

(** The samples that whole numbers of milliseconds give. *)
Definition millis (l : list Z) : list number :=
  map (λ ms, NanoToMilli (toNumber (ms * 1000000))) l.

(** ** What [render] puts around the report *)

(** [displayResults()]: the notice [noNodes] when no identity is displayed,
    the latency table and the legend otherwise. *)
Inductive Results : Type :=
| noNodes
| tableAndLegend (table : list (list Cell)) (leg : list number).

Definition displayResults (r : Report) : Results :=
  if bool_decide (report_displayIdentities r = []) then noNodes
  else tableAndLegend (report_latencyTable r) (report_legend r).

(** ** The markup around the three tables *)

(** [Number.prototype.toString] on an integer: its decimal digits, a minus
    sign before those of a negative one. *)
Definition Number_toString (n : Z) : string := pretty n.

Definition newline : string := String (ascii_of_nat 10) EmptyString.

(** A header cell of the latency table: its key, its class, its tooltip and
    the text it shows. *)
Record HeaderCell : Type := {
  hc_key : Z;
  hc_className : string;
  hc_title : string;
  hc_text : string;
}.

Definition createHeaderCell (staleIDs : gset Z) (id : option Identity) (key : Z)
  : result HeaderCell :=
  n ← prop id nodeID;
  let node := ("n" ++ Number_toString n)%string in
  a ← prop id address;
  l ← prop id locality;
  let title := String.concat newline [node; a; l] in
  let className := "network-table__cell network-table__cell--header"%string in
  let className :=
    if decide (n ∈ staleIDs)
    then (className ++ " network-table__cell--header-warning")%string
    else className in
  Ok {| hc_key := key; hc_className := className; hc_title := title; hc_text := node |}.

(** The first row of the latency table, after its spacer: one header cell
    for each displayed identity, keyed by the node id. *)
Definition headerRow (staleIDs : gset Z) (displayIdentities : list (option Identity))
  : result (list HeaderCell) :=
  mapM (λ identity, key ← prop identity nodeID; createHeaderCell staleIDs identity key)
       displayIdentities.

(** A row of the stale table: its key and its four cells, the last one the
    moment that is printed. *)
Record StaleRow : Type := {
  sr_key : Z;
  sr_node : string;
  sr_address : string;
  sr_locality : string;
  sr_lastUpdated : Z;
}.

(** [staleTable]: [null] is [None]; the header row is fixed text and is left
    out. *)
Definition staleTable (staleIdentities : list (option Identity))
  : result (option (list StaleRow)) :=
  if bool_decide (staleIdentities = []) then Ok None
  else
    rows ← mapM (λ staleIdentity,
                   n ← prop staleIdentity nodeID;
                   a ← prop staleIdentity address;
                   l ← prop staleIdentity locality;
                   u ← prop staleIdentity updatedAt;
                   Ok {| sr_key := n;
                         sr_node := ("n" ++ Number_toString n)%string;
                         sr_address := a;
                         sr_locality := l;
                         sr_lastUpdated := u |}) staleIdentities;
    Ok (Some rows).

(** A row of the no-connection table: its key, the index in the list, and
    its six cells. *)
Record NoConnectionRow : Type := {
  nr_key : nat;
  nr_fromNode : string;
  nr_fromAddress : string;
  nr_fromLocality : string;
  nr_toNode : string;
  nr_toAddress : string;
  nr_toLocality : string;
}.

Definition noConnectionRow (k : nat) (noConn : NoConnection) : result NoConnectionRow :=
  fn ← prop (from noConn) nodeID;
  fa ← prop (from noConn) address;
  fl ← prop (from noConn) locality;
  tn ← prop (to noConn) nodeID;
  ta ← prop (to noConn) address;
  tl ← prop (to noConn) locality;
  Ok {| nr_key := k;
        nr_fromNode := ("n" ++ Number_toString fn)%string;
        nr_fromAddress := fa;
        nr_fromLocality := fl;
        nr_toNode := ("n" ++ Number_toString tn)%string;
        nr_toAddress := ta;
        nr_toLocality := tl |}.

(** [noConnectionTable]: [null] is [None]. *)
Definition noConnectionTable (noConnections : list NoConnection)
  : result (option (list NoConnectionRow)) :=
  if bool_decide (noConnections = []) then Ok None
  else
    rows ← mapM (λ '(k, noConn), noConnectionRow k noConn)
                (zip (seq 0 (length noConnections)) noConnections);
    Ok (Some rows).

(** ** Orders behind [_.sortBy] *)

(** What the sorts need of a comparison [<]: it is asymmetric, its negation
    is transitive, and two keys it does not order are equal. *)
Class KeyOrder {K} (lt : K -> K -> bool) : Prop := {
  lt_asym : ∀ a b, lt a b = true -> lt b a = false;
  le_trans : ∀ a b c, lt b a = false -> lt c b = false -> lt c a = false;
  lt_connex : ∀ a b, lt a b = false -> lt b a = false -> a = b;
}.

(** Keys ascend, and elements the keys do not order keep the order [R] they
    came in. *)
Definition keyThen {K A} (lt : K -> K -> bool) (R : relation (K * A)) (p q : K * A) : Prop :=
  lt q.1 p.1 = false ∧ (lt p.1 q.1 = false -> R p q).

(** ** Snapshots *)

(** What a snapshot has to hold for every read of [render] to find its
    object: a status and an identity for every listed id, an identity for
    every peer that a latency map names, and a latency between any two
    listed nodes that are [HEALTHY]. *)
Record consistent (nodesSummary : NodesSummary) : Prop := {
  listed_known : ∀ id, id ∈ nodeIDs nodesSummary ->
    is_Some (nodeStatusByID nodesSummary !! id) ∧ is_Some (identityByID nodesSummary !! id);
  peers_known : ∀ a status b,
    nodeStatusByID nodesSummary !! a = Some status ->
    is_Some (status_latencies status !! b) ->
    is_Some (identityByID nodesSummary !! b);
  healthy_measured : ∀ a b status,
    a ∈ nodeIDs nodesSummary -> b ∈ nodeIDs nodesSummary -> a ≠ b ->
    livenessStatusByNodeID nodesSummary !! a = Some HEALTHY ->
    livenessStatusByNodeID nodesSummary !! b = Some HEALTHY ->
    nodeStatusByID nodesSummary !! a = Some status ->
    is_Some (status_latencies status !! b);
}.

(** The same snapshot with its ids listed in another order. *)
Definition reordered (nodesSummary nodesSummary' : NodesSummary) : Prop :=
  nodeStatuses nodesSummary' = nodeStatuses nodesSummary
  ∧ nodeStatusByID nodesSummary' = nodeStatusByID nodesSummary
  ∧ livenessStatusByNodeID nodesSummary' = livenessStatusByNodeID nodesSummary
  ∧ nodeIDs nodesSummary ≡ₚ nodeIDs nodesSummary'.

(** The row [staleTable] builds for one identity. *)
Definition staleRowOf (i : Identity) : StaleRow :=
  {| sr_key := nodeID i;
     sr_node := ("n" ++ Number_toString (nodeID i))%string;
     sr_address := address i;
     sr_locality := locality i;
     sr_lastUpdated := updatedAt i |}.

(** * Properties *)

(** A closed decidable proposition, settled by evaluating its decision. *)
Ltac by_computation := apply (bool_decide_unpack _); vm_compute; exact I.

(** A conjunction of closed equations, each settled by evaluating its sides. *)
Ltac by_evaluation :=
  repeat lazymatch goal with
         | |- _ ∧ _ => split; [vm_compute; reflexivity|]
         end;
  vm_compute; reflexivity.

(** ** The [result] monad *)

Lemma bind_Ok_inv {A B} (f : A -> result B) (m : result A) (b : B) :
  (m ≫= f) = Ok b -> ∃ a, m = Ok a ∧ f a = Ok b.
Proof. destruct m as [a|e]; [eauto | discriminate]. Qed.

(** ** Filter parsing *)

Lemma elem_of_foldl_addNodeID (toks : list string) (acc : gset Z) (n : Z) :
  n ∈ foldl addNodeID acc toks ↔
  n ∈ acc ∨ (n ≠ 0 ∧ ∃ tok, tok ∈ toks ∧ parseInt tok 10 = Some n).
Proof.
  revert acc. induction toks as [|t toks IH]; intros acc; simpl.
  - split; [auto | intros [?|(_ & tok & Hin & _)]; [done | by apply elem_of_nil in Hin]].
  - rewrite IH. unfold addNodeID at 1.
    destruct (parseInt t 10) as [z|] eqn:Hp.
    + destruct (Z.eqb_spec z 0) as [->|Hz].
      * split.
        -- intros [?|(Hn & tok & Hin & Htok)]; [auto|].
           right. split; [done|]. exists tok. split; [by right | done].
        -- intros [?|(Hn & tok & Hin & Htok)]; [auto|].
           apply elem_of_cons in Hin as [->|Hin]; [congruence|].
           right. eauto.
      * rewrite elem_of_union, elem_of_singleton. split.
        -- intros [[?| ->]|(Hn & tok & Hin & Htok)]; [auto| |].
           ++ right. split; [done|]. exists t. split; [by left | done].
           ++ right. split; [done|]. exists tok. split; [by right | done].
        -- intros [?|(Hn & tok & Hin & Htok)]; [auto|].
           apply elem_of_cons in Hin as [->|Hin].
           ++ left. right. congruence.
           ++ right. eauto.
    + split.
      * intros [?|(Hn & tok & Hin & Htok)]; [auto|].
        right. split; [done|]. exists tok. split; [by right | done].
      * intros [?|(Hn & tok & Hin & Htok)]; [auto|].
        apply elem_of_cons in Hin as [->|Hin]; [congruence|].
        right. eauto.
Qed.

Lemma elem_of_getNodeIDs (input : option string) (n : Z) :
  n ∈ getNodeIDs input ↔
  n ≠ 0 ∧ ∃ s tok, input = Some s ∧ tok ∈ split_comma s ∧ parseInt tok 10 = Some n.
Proof.
  destruct input as [s|]; simpl.
  - destruct s as [|c s].
    + simpl. split; [set_solver|].
      intros (_ & s & tok & [= <-] & Hin & Hp). simpl in Hin.
      apply list_elem_of_singleton in Hin as ->. discriminate.
    + cbv [isEmpty_str]. rewrite elem_of_foldl_addNodeID. split.
      * intros [?|(Hn & tok & Hin & Hp)]; [set_solver|]. split; [done|]. eauto.
      * intros (Hn & s' & tok & [= <-] & Hin & Hp). right. eauto.
  - split; [set_solver|]. intros (_ & s & tok & [=] & _).
Qed.

(** C6. Parsing the two filter texts never throws.  The requested ids are the
    non-zero integers [parseInt] reads from the comma-separated tokens, so a
    token that does not parse, or parses to zero, adds nothing and [0] is
    never requested.  A locality text the engine refuses to compile leaves no
    locality filter; one it compiles becomes the filter. *)
Theorem filter_parsing_never_throws `{RegExpEngine} (query : Query) :
  (∃ locality, localityRegex query = Ok locality
     ∧ (∀ pattern, query_locality query = Some pattern ->
          RegExp_compile pattern = None -> locality = None)
     ∧ (∀ pattern re, query_locality query = Some pattern -> pattern ≠ "" ->
          RegExp_compile pattern = Some re -> locality = Some re))
  ∧ (0 ∉ requestedIDs query)
  ∧ (∀ n, n ∈ requestedIDs query ↔
          n ≠ 0 ∧ ∃ input tok, node_ids query = Some input
                    ∧ tok ∈ split_comma input ∧ parseInt tok 10 = Some n).
Proof.
  split; [|split].
  - unfold localityRegex, new_RegExp.
    destruct (query_locality query) as [[|c p]|] eqn:Hq; simpl.
    + exists None. split; [done|]. split; [done|]. intros ? ? [= <-]. done.
    + destruct (RegExp_compile (String c p)) as [re|] eqn:Hc; simpl.
      * exists (Some re). split; [done|]. split.
        -- intros ? [= <-]. congruence.
        -- intros ? ? [= <-] _. congruence.
      * exists None. split; [done|]. split; [done|].
        intros ? ? [= <-] _. congruence.
    + exists None. split; [done|]. split; intros; discriminate.
  - unfold requestedIDs. rewrite elem_of_getNodeIDs. intros [Hn _]. done.
  - intros n. unfold requestedIDs. apply elem_of_getNodeIDs.
Qed.

Lemma filter_parsing_never_throws_witness :
  localityRegex (H := literal_engine)
    {| node_ids := Some "1,x,0,2"; query_locality := Some "(" |} = Ok None
  ∧ (0 ∉ requestedIDs {| node_ids := Some "1,x,0,2"; query_locality := Some "(" |})
  ∧ (2 ∈ requestedIDs {| node_ids := Some "1,x,0,2"; query_locality := Some "(" |}).
Proof.
  destruct (filter_parsing_never_throws (H := literal_engine)
              {| node_ids := Some "1,x,0,2"; query_locality := Some "(" |})
    as ((locality & Hok & Hnone & _) & Hzero & Hin).
  split; [|split].
  - rewrite Hok. f_equal. by apply (Hnone "(").
  - exact Hzero.
  - apply Hin. split; [lia|]. exists "1,x,0,2", "2". split; [done|].
    split; [by_computation | reflexivity].
Defined.

Example getNodeIDs_tokens :
  elements (getNodeIDs (Some "1, 2,x,0,-0,3abc,,+7")) = [7; 3; 2; 1].
Proof. vm_compute. reflexivity. Qed.

(** ** Facts on arrays in the [result] monad *)

Section ListFacts.
Context {A B : Type}.

Lemma mapM_Ok (f : A -> result B) (l : list A) (k : list B) :
  mapM f l = Ok k ↔ Forall2 (λ x y, f x = Ok y) l k.
Proof.
  revert k. induction l as [|x l IH]; intros k; simpl.
  - split; [intros [= <-]; constructor | by inversion 1].
  - destruct (f x) as [y|e] eqn:Hx; simpl.
    + destruct (mapM f l) as [k'|e] eqn:Hl; simpl.
      * split.
        -- intros [= <-]. constructor; [done|]. by apply IH.
        -- inversion 1 as [|? y' ? k'' Hy Hk]; subst.
           apply IH in Hk. assert (y = y') as -> by congruence.
           assert (k' = k'') as -> by congruence. reflexivity.
      * split; [discriminate|].
        inversion 1 as [|? y' ? k'' Hy Hk]; subst. apply IH in Hk. discriminate.
    + split; [discriminate|]. inversion 1; subst. congruence.
Qed.

Lemma mapM_total (f : A -> result B) (l : list A) :
  (∀ x, x ∈ l -> ∃ y, f x = Ok y) -> ∃ k, mapM f l = Ok k.
Proof.
  induction l as [|x l IH]; intros Hf; simpl; [by eexists|].
  destruct (Hf x) as [y ->]; [by left|].
  destruct IH as [k ->]; [intros; apply Hf; by right|].
  by eexists.
Qed.

Lemma mapM_pure (g : A -> B) (l : list A) :
  mapM (λ x, Ok (g x)) l = Ok (map g l).
Proof. apply mapM_Ok. induction l; constructor; auto. Qed.

Lemma mapM_ext_in (f g : A -> result B) (l : list A) :
  (∀ x, x ∈ l -> f x = g x) -> mapM f l = mapM g l.
Proof.
  induction l as [|x l IH]; intros Hfg; simpl; [done|].
  rewrite (Hfg x) by (by left). rewrite IH; [done|]. intros; apply Hfg; by right.
Qed.

Lemma filterM_pure (p : A -> result bool) (q : A -> bool) (l : list A) :
  (∀ x, x ∈ l -> p x = Ok (q x)) -> filterM p l = Ok (List.filter q l).
Proof.
  induction l as [|x l IH]; intros Hp; simpl; [done|].
  rewrite (Hp x) by (by left). simpl.
  rewrite IH by (intros; apply Hp; by right). simpl. by destruct (q x).
Qed.

End ListFacts.

(** ** Stable sorting *)

Section Sorting.
Context {K A : Type} (lt : K -> K -> bool).

Lemma insert_by_perm (x : K * A) (l : list (K * A)) : lodash.insert_by lt x l ≡ₚ x :: l.
Proof.
  induction l as [|y l IH]; simpl; [done|].
  destruct (lt y.1 x.1); [|done]. rewrite IH. apply Permutation_swap.
Qed.

Lemma stable_sort_perm (l : list (K * A)) : lodash.stable_sort lt l ≡ₚ l.
Proof.
  induction l as [|x l IH]; simpl; [done|].
  unfold lodash.stable_sort in *. simpl. by rewrite insert_by_perm, IH.
Qed.

Lemma sortBy_perm (iteratee : A -> result K) (l l' : list A) :
  lodash.sortBy lt iteratee l = Ok l' -> l' ≡ₚ l.
Proof.
  unfold lodash.sortBy. intros Hs.
  apply bind_Ok_inv in Hs as (criteria & Hc & [= <-]).
  rewrite stable_sort_perm. apply mapM_Ok, Forall2_length in Hc.
  by rewrite snd_zip by lia.
Qed.

Lemma sortBy_total (iteratee : A -> result K) (l : list A) :
  (∀ x, x ∈ l -> ∃ k, iteratee x = Ok k) -> ∃ l', lodash.sortBy lt iteratee l = Ok l'.
Proof.
  intros Hi. unfold lodash.sortBy. destruct (mapM_total iteratee l Hi) as [c ->]. by eexists.
Qed.

End Sorting.

Lemma filterM_elem_of {A} (p : A -> result bool) (l k : list A) (x : A) :
  filterM p l = Ok k -> x ∈ k -> x ∈ l ∧ p x = Ok true.
Proof.
  revert k. induction l as [|y l IH]; intros k; simpl.
  - intros [= <-] Hx. by apply elem_of_nil in Hx.
  - intros Hk. apply bind_Ok_inv in Hk as (b & Hb & Hk).
    apply bind_Ok_inv in Hk as (k' & Hk' & [= <-]).
    destruct b.
    + intros [->|Hx]%elem_of_cons; [split; [by left | done]|].
      destruct (IH _ Hk' Hx). split; [by right | done].
    + intros Hx. destruct (IH _ Hk' Hx). split; [by right | done].
Qed.

Lemma elem_of_uniq (l : list Z) (x : Z) : x ∈ lodash.uniq l ↔ x ∈ l.
Proof. unfold lodash.uniq. by rewrite elem_of_reverse, elem_of_remove_dups, elem_of_reverse. Qed.

Lemma NoDup_uniq (l : list Z) : NoDup (lodash.uniq l).
Proof. unfold lodash.uniq. rewrite reverse_Permutation. apply NoDup_remove_dups. Qed.

Lemma length_filter_or {A} (P Q : A -> Prop) `{!∀ x, Decision (P x), !∀ x, Decision (Q x)}
    (l : list A) :
  (∀ x, P x -> Q x -> False) ->
  (length (filter P l) + length (filter Q l) = length (filter (λ x, P x ∨ Q x) l))%nat.
Proof.
  intros Hd. induction l as [|x l IH]; [done|].
  rewrite !filter_cons.
  destruct (decide (P x)) as [HP|HP], (decide (Q x)) as [HQ|HQ]; simpl.
  - destruct (Hd x HP HQ).
  - rewrite decide_True by auto. simpl. lia.
  - rewrite decide_True by auto. simpl. lia.
  - rewrite decide_False by tauto. lia.
Qed.

(** ** Node classification *)

Section Classification.
Context `{RegExpEngine}.
Variable nodesSummary : NodesSummary.

Lemma elem_of_withLiveness (st : LivenessStatus) (id : Z) :
  id ∈ withLiveness nodesSummary st ↔
  id ∈ nodeIDs nodesSummary ∧ livenessStatusByNodeID nodesSummary !! id = Some st.
Proof. unfold withLiveness. rewrite list_elem_of_filter. tauto. Qed.

Lemma elem_of_onlyRequested (query : Query) (ids : list Z) (id : Z) :
  id ∈ onlyRequested query ids -> id ∈ ids.
Proof.
  unfold onlyRequested. case_decide; [|done]. by intros [_ ?]%list_elem_of_filter.
Qed.

Lemma onlyRequested_empty (query : Query) (ids : list Z) :
  requestedIDs query = ∅ -> onlyRequested query ids = ids.
Proof.
  intros Hq. unfold onlyRequested. rewrite Hq. rewrite size_empty.
  by rewrite decide_False by lia.
Qed.

Lemma elem_of_notMatching (locality : option RegExp) (ids k : list Z) (id : Z) :
  notMatching nodesSummary locality ids = Ok k -> id ∈ k -> id ∈ ids.
Proof.
  destruct locality as [re|]; simpl.
  - intros Hk Hid. by destruct (filterM_elem_of _ _ _ _ Hk Hid).
  - by intros [= <-].
Qed.

Lemma idsContext_liveness (query : Query) (locality : option RegExp) (st : LivenessStatus)
    (k : list Z) (id : Z) :
  notMatching nodesSummary locality (onlyRequested query (withLiveness nodesSummary st)) = Ok k ->
  id ∈ k ->
  id ∈ nodeIDs nodesSummary ∧ livenessStatusByNodeID nodesSummary !! id = Some st.
Proof.
  intros Hk Hid. apply elem_of_withLiveness.
  eapply elem_of_onlyRequested, elem_of_notMatching; eauto.
Qed.

Lemma identityByID_nodeID (id : Z) (i : Identity) :
  identityByID nodesSummary !! id = Some i -> nodeID i = id.
Proof.
  unfold identityByID.
  cut (∀ (l : list NodeStatus) (m : gmap Z Identity),
         (∀ id i, m !! id = Some i -> nodeID i = id) ->
         ∀ id i,
           foldl (λ m status,
                    <[ node_id (desc status) :=
                         {| nodeID := node_id (desc status);
                            address := address_field (desc status);
                            locality := localityToString (desc_locality (desc status));
                            updatedAt := LongToMoment (updated_at status) |} ]> m) m l
             !! id = Some i -> nodeID i = id).
  { intros Hcut. apply Hcut. intros ? ?. by rewrite lookup_empty. }
  clear id i. induction l as [|status l IH]; intros m Hm id i; simpl; [apply Hm|].
  apply IH. intros id' i'. rewrite lookup_insert.
  case_decide as Hid; [|apply Hm]. intros [= <-]. done.
Qed.

Lemma byNodeIDThenLocality_perm (ids : list Z) (l : list (option Identity)) :
  byNodeIDThenLocality nodesSummary ids = Ok l ->
  l ≡ₚ map (λ nodeID, identityByID nodesSummary !! nodeID) ids.
Proof.
  unfold byNodeIDThenLocality. intros Hl.
  apply bind_Ok_inv in Hl as (l1 & H1 & H2).
  apply sortBy_perm in H1, H2. by rewrite H2, H1.
Qed.

Lemma byNodeIDThenLocality_elem_of (ids : list Z) (l : list (option Identity)) (i : Identity) :
  byNodeIDThenLocality nodesSummary ids = Ok l -> Some i ∈ l -> nodeID i ∈ ids.
Proof.
  intros Hl Hi. rewrite (byNodeIDThenLocality_perm _ _ Hl) in Hi.
  apply list_elem_of_fmap in Hi as (id & Hid & Hin).
  symmetry in Hid. apply identityByID_nodeID in Hid. by subst.
Qed.

End Classification.

(** C7. With a locality pattern, the healthy and the stale ids are those of
    the computation without a pattern whose locality text the pattern does
    not match: matching nodes are taken out of both, the others stay. *)
Theorem locality_pattern_excludes `{RegExpEngine} (nodesSummary : NodesSummary)
    (query : Query) (re : RegExp) :
  (∀ id, id ∈ nodeIDs nodesSummary -> is_Some (nodeStatusByID nodesSummary !! id)) ->
  ∃ h0 st0 h st,
    healthyIDs nodesSummary query None = Ok h0
    ∧ staleIDs nodesSummary query None = Ok st0
    ∧ healthyIDs nodesSummary query (Some re) = Ok h
    ∧ staleIDs nodesSummary query (Some re) = Ok st
    ∧ (∀ id, id ∈ h ↔
             id ∈ h0 ∧ ∃ l, localityOf nodesSummary id = Ok l ∧ RegExp_test re l = false)
    ∧ (∀ id, id ∈ st ↔
             id ∈ st0 ∧ ∃ l, localityOf nodesSummary id = Ok l ∧ RegExp_test re l = false).
Proof.
  intros Hstatus.
  set (keep := λ id, match localityOf nodesSummary id with
                     | Ok l => negb (RegExp_test re l)
                     | Throw _ => false
                     end).
  assert (Hfilter : ∀ live,
            notMatching nodesSummary (Some re)
              (onlyRequested query (withLiveness nodesSummary live))
            = Ok (List.filter keep (onlyRequested query (withLiveness nodesSummary live)))).
  { intros live. apply filterM_pure. intros id Hid.
    apply elem_of_onlyRequested, elem_of_withLiveness in Hid as [Hid _].
    destruct (Hstatus id Hid) as [status Hs].
    unfold keep, localityOf. rewrite Hs. reflexivity. }
  assert (Hkeep : ∀ ids id,
            id ∈ List.filter keep ids ↔
            id ∈ ids ∧ ∃ l, localityOf nodesSummary id = Ok l ∧ RegExp_test re l = false).
  { intros ids id. rewrite list_elem_of_In, filter_In, <- list_elem_of_In. unfold keep.
    split.
    - intros [Hin Hk]. split; [done|].
      destruct (localityOf nodesSummary id) as [l|]; [|done].
      exists l. split; [done|]. by apply negb_true_iff.
    - intros [Hin (l & -> & Ht)]. split; [done|]. by rewrite Ht. }
  eexists _, _, _, _. unfold healthyIDs, staleIDs, healthyIDsContext, staleIDsContext.
  rewrite !Hfilter. simpl.
  split; [reflexivity|]. split; [reflexivity|]. split; [reflexivity|]. split; [reflexivity|].
  split.
  - apply Hkeep.
  - intros id. rewrite !elem_of_list_to_set. apply Hkeep.
Qed.

Lemma locality_pattern_excludes_witness :
  ∃ h0 st0 h st,
    healthyIDs (H := literal_engine) mixedCluster noQuery None = Ok h0
    ∧ staleIDs (H := literal_engine) mixedCluster noQuery None = Ok st0
    ∧ healthyIDs (H := literal_engine) mixedCluster noQuery (Some "east") = Ok h
    ∧ staleIDs (H := literal_engine) mixedCluster noQuery (Some "east") = Ok st
    ∧ (∀ id, id ∈ h ↔
             id ∈ h0 ∧ ∃ l, localityOf mixedCluster id = Ok l ∧ occurs "east" l = false)
    ∧ (∀ id, id ∈ st ↔
             id ∈ st0 ∧ ∃ l, localityOf mixedCluster id = Ok l ∧ occurs "east" l = false).
Proof.
  apply (locality_pattern_excludes (H := literal_engine) mixedCluster noQuery "east").
  intros id Hid. vm_compute in Hid.
  repeat (apply elem_of_cons in Hid as [->|Hid]; [by vm_compute; eexists|]).
  by apply elem_of_nil in Hid.
Defined.

Example locality_pattern_east :
  healthyIDs (H := literal_engine) mixedCluster noQuery (Some "east") = Ok [2]
  ∧ (elements <$> staleIDs (H := literal_engine) mixedCluster noQuery (Some "east")) = Ok [].
Proof. split; vm_compute; reflexivity. Qed.

(** C8. Without a filter the healthy ids are exactly the listed nodes whose
    liveness is [HEALTHY] and the stale ids exactly those whose liveness is
    [SUSPECT], and over distinct node ids their sizes add up to the number of
    nodes in one of the two states.  Under any filter the two stay within
    those sets and share no id, and an identity shown in [displayIdentities]
    or [staleIdentities] belongs to a node in one of the two states. *)
Theorem liveness_partition `{RegExpEngine} (nodesSummary : NodesSummary) :
  (∀ query, requestedIDs query = ∅ ->
     ∃ h st,
       healthyIDs nodesSummary query None = Ok h
       ∧ staleIDs nodesSummary query None = Ok st
       ∧ (∀ id, id ∈ h ↔
                id ∈ nodeIDs nodesSummary
                ∧ livenessStatusByNodeID nodesSummary !! id = Some HEALTHY)
       ∧ (∀ id, id ∈ st ↔
                id ∈ nodeIDs nodesSummary
                ∧ livenessStatusByNodeID nodesSummary !! id = Some SUSPECT)
       ∧ (NoDup (nodeIDs nodesSummary) ->
          (length h + size st)%nat =
          length (filter (λ id, livenessStatusByNodeID nodesSummary !! id = Some HEALTHY
                                ∨ livenessStatusByNodeID nodesSummary !! id = Some SUSPECT)
                         (nodeIDs nodesSummary))))
  ∧ (∀ query locality h st,
       healthyIDs nodesSummary query locality = Ok h ->
       staleIDs nodesSummary query locality = Ok st ->
       (∀ id, id ∈ h ->
              id ∈ nodeIDs nodesSummary
              ∧ livenessStatusByNodeID nodesSummary !! id = Some HEALTHY)
       ∧ (∀ id, id ∈ st ->
                id ∈ nodeIDs nodesSummary
                ∧ livenessStatusByNodeID nodesSummary !! id = Some SUSPECT)
       ∧ (∀ id, id ∈ h -> id ∉ st))
  ∧ (∀ query locality l i,
       displayIdentities nodesSummary query locality = Ok l
       ∨ staleIdentities nodesSummary query locality = Ok l ->
       Some i ∈ l ->
       livenessStatusByNodeID nodesSummary !! nodeID i = Some HEALTHY
       ∨ livenessStatusByNodeID nodesSummary !! nodeID i = Some SUSPECT).
Proof.
  split; [|split].
  - intros query Hq. eexists _, _.
    unfold healthyIDs, staleIDs, healthyIDsContext, staleIDsContext. simpl.
    rewrite !onlyRequested_empty by done.
    split; [reflexivity|]. split; [reflexivity|]. split; [|split].
    + apply elem_of_withLiveness.
    + intros id. rewrite elem_of_list_to_set. apply elem_of_withLiveness.
    + intros Hnd. rewrite size_list_to_set by by apply NoDup_filter.
      apply length_filter_or. intros id H1 H2. congruence.
  - intros query locality h st Hh Hst. unfold healthyIDs, healthyIDsContext in Hh.
    unfold staleIDs, staleIDsContext in Hst.
    apply bind_Ok_inv in Hst as (s & Hs & [= <-]).
    assert (Hhl := idsContext_liveness nodesSummary query locality HEALTHY h).
    assert (Hsl := idsContext_liveness nodesSummary query locality SUSPECT s).
    split; [by auto|]. split.
    + intros id Hid. apply elem_of_list_to_set in Hid. by auto.
    + intros id Hid Hid'. apply elem_of_list_to_set in Hid'.
      destruct (Hhl id Hh Hid) as [_ H1], (Hsl id Hs Hid') as [_ H2]. congruence.
  - intros query locality l i Hl Hi. destruct Hl as [Hl|Hl].
    + unfold displayIdentities in Hl.
      apply bind_Ok_inv in Hl as (h & Hh & Hl). apply bind_Ok_inv in Hl as (s & Hs & Hl).
      apply (byNodeIDThenLocality_elem_of _ _ _ _ Hl) in Hi.
      apply elem_of_uniq, elem_of_app in Hi as [Hi|Hi].
      * left. by eapply idsContext_liveness.
      * right. by eapply idsContext_liveness.
    + unfold staleIdentities in Hl. apply bind_Ok_inv in Hl as (s & Hs & Hl).
      apply (byNodeIDThenLocality_elem_of _ _ _ _ Hl) in Hi.
      right. by eapply idsContext_liveness.
Qed.

Example liveness_partition_mixed :
  healthyIDs (H := literal_engine) mixedCluster noQuery None = Ok [1; 2]
  ∧ (elements <$> staleIDs (H := literal_engine) mixedCluster noQuery None) = Ok [3]
  ∧ (map (option_map nodeID) <$> displayIdentities (H := literal_engine) mixedCluster noQuery None)
     = Ok [Some 1; Some 3; Some 2].
Proof. by_evaluation. Qed.

Lemma liveness_partition_witness :
  ∃ h st,
    healthyIDs (H := literal_engine) mixedCluster noQuery None = Ok h
    ∧ staleIDs (H := literal_engine) mixedCluster noQuery None = Ok st
    ∧ (∀ id, id ∈ h ↔
             id ∈ nodeIDs mixedCluster
             ∧ livenessStatusByNodeID mixedCluster !! id = Some HEALTHY)
    ∧ (∀ id, id ∈ st ↔
             id ∈ nodeIDs mixedCluster
             ∧ livenessStatusByNodeID mixedCluster !! id = Some SUSPECT)
    ∧ (NoDup (nodeIDs mixedCluster) ->
       (length h + size st)%nat =
       length (filter (λ id, livenessStatusByNodeID mixedCluster !! id = Some HEALTHY
                             ∨ livenessStatusByNodeID mixedCluster !! id = Some SUSPECT)
                      (nodeIDs mixedCluster))).
Proof.
  destruct (liveness_partition (H := literal_engine) mixedCluster) as (Hempty & _ & _).
  apply Hempty. reflexivity.
Defined.

(** ** Comparisons with NaN *)

Lemma num_lt_NaN_r (x : number) : num_lt x NaN = false.
Proof. by destruct x. Qed.

Lemma num_gt_NaN_r (x : number) : num_gt x NaN = false.
Proof. by destruct x. Qed.

Lemma heatOf_NaN (sample : list number) (latency : number) :
  stddevPlus2 sample = NaN -> stddevPlus1 sample = NaN ->
  stddevMinus2 sample = NaN -> stddevMinus1 sample = NaN ->
  heatOf sample latency = StddevEven.
Proof.
  intros H1 H2 H3 H4. unfold heatOf. rewrite H1, H2, H3, H4.
  by rewrite !num_gt_NaN_r, !num_lt_NaN_r.
Qed.

(** ** The pairwise classifier *)

Section Classifier.
Variable nodesSummary : NodesSummary.
Variable stale : gset Z.
Variable sample : list number.

Lemma getLatencyCell_self (a : Z) :
  getLatencyCell nodesSummary stale sample a a = Ok CellSelf.
Proof. unfold getLatencyCell. by rewrite decide_True. Qed.

Lemma getLatencyCell_stale (a b : Z) :
  a ≠ b -> a ∈ stale ∨ b ∈ stale ->
  getLatencyCell nodesSummary stale sample a b = Ok CellNoConnection.
Proof.
  intros Hab Hs. unfold getLatencyCell.
  rewrite decide_False by done. by rewrite decide_True.
Qed.

Lemma getLatencyCell_entry (a b : Z) (status : NodeStatus) :
  a ≠ b -> a ∉ stale -> b ∉ stale ->
  nodeStatusByID nodesSummary !! a = Some status ->
  getLatencyCell nodesSummary stale sample a b =
  match status_latencies status !! b with
  | None => Ok CellNoConnection
  | Some l => Ok (CellHeat (heatOf sample (NanoToMilli (toNumber l))) (NanoToMilli (toNumber l)))
  end.
Proof.
  intros Hab Ha Hb Hs. unfold getLatencyCell.
  rewrite decide_False by done. rewrite decide_False by tauto.
  rewrite Hs. reflexivity.
Qed.

Lemma heatOf_bands (latency : number) :
  let heat := heatOf sample latency in
  let gt2 := num_gt latency (stddevPlus2 sample) in
  let gt1 := num_gt latency (stddevPlus1 sample) in
  let lt2 := num_lt latency (stddevMinus2 sample) in
  let lt1 := num_lt latency (stddevMinus1 sample) in
  (heat = StddevPlus2 ↔ gt2 = true)
  ∧ (heat = StddevPlus1 ↔ gt2 = false ∧ gt1 = true)
  ∧ (heat = StddevMinus2 ↔ gt2 = false ∧ gt1 = false ∧ lt2 = true)
  ∧ (heat = StddevMinus1 ↔ gt2 = false ∧ gt1 = false ∧ lt2 = false ∧ lt1 = true)
  ∧ (heat = StddevEven ↔ gt2 = false ∧ gt1 = false ∧ lt2 = false ∧ lt1 = false).
Proof.
  unfold heatOf. simpl.
  destruct (num_gt latency (stddevPlus2 sample)),
           (num_gt latency (stddevPlus1 sample)),
           (num_lt latency (stddevMinus2 sample)),
           (num_lt latency (stddevMinus1 sample)); intuition congruence.
Qed.

End Classifier.

(** C4. The decision order of [getLatencyCell]: a node paired with itself is
    [self]; otherwise a stale end makes the cell [no-connection]; otherwise,
    in the latency map of the first node's status, a missing entry does;
    otherwise the latency in milliseconds gets one heat, the first that
    applies of: above plus-2, above plus-1, below minus-2, below minus-1,
    even.  The five heats exclude one another. *)
Theorem getLatencyCell_decision_order (nodesSummary : NodesSummary) (stale : gset Z)
    (sample : list number) (a b : Z) :
  getLatencyCell nodesSummary stale sample a a = Ok CellSelf
  ∧ (a ≠ b -> a ∈ stale ∨ b ∈ stale ->
     getLatencyCell nodesSummary stale sample a b = Ok CellNoConnection)
  ∧ (∀ status, nodeStatusByID nodesSummary !! a = Some status ->
       a ≠ b -> a ∉ stale -> b ∉ stale ->
       match status_latencies status !! b with
       | None => getLatencyCell nodesSummary stale sample a b = Ok CellNoConnection
       | Some l =>
           let latency := NanoToMilli (toNumber l) in
           let gt2 := num_gt latency (stddevPlus2 sample) in
           let gt1 := num_gt latency (stddevPlus1 sample) in
           let lt2 := num_lt latency (stddevMinus2 sample) in
           let lt1 := num_lt latency (stddevMinus1 sample) in
           ∃ heat,
             getLatencyCell nodesSummary stale sample a b = Ok (CellHeat heat latency)
             ∧ (heat = StddevPlus2 ↔ gt2 = true)
             ∧ (heat = StddevPlus1 ↔ gt2 = false ∧ gt1 = true)
             ∧ (heat = StddevMinus2 ↔ gt2 = false ∧ gt1 = false ∧ lt2 = true)
             ∧ (heat = StddevMinus1 ↔ gt2 = false ∧ gt1 = false ∧ lt2 = false ∧ lt1 = true)
             ∧ (heat = StddevEven ↔ gt2 = false ∧ gt1 = false ∧ lt2 = false ∧ lt1 = false)
       end).
Proof.
  split; [apply getLatencyCell_self|].
  split; [apply getLatencyCell_stale|].
  intros status Hs Hab Ha Hb.
  rewrite (getLatencyCell_entry _ _ _ _ _ _ Hab Ha Hb Hs).
  destruct (status_latencies status !! b) as [l|]; [|done].
  simpl. eexists. split; [reflexivity|]. apply heatOf_bands.
Qed.

Lemma getLatencyCell_decision_order_witness :
  ∃ sample heat,
    latencies threeNodes [1; 2; 3] = Ok sample
    ∧ getLatencyCell threeNodes ∅ sample 1 3
      = Ok (CellHeat heat (NanoToMilli (toNumber 50000000)))
    ∧ (heat = StddevPlus1 ↔
       num_gt (NanoToMilli (toNumber 50000000)) (stddevPlus2 sample) = false
       ∧ num_gt (NanoToMilli (toNumber 50000000)) (stddevPlus1 sample) = true).
Proof.
  destruct (latencies threeNodes [1; 2; 3]) as [sample|] eqn:Hsample; [|by vm_compute in Hsample].
  exists sample.
  destruct (getLatencyCell_decision_order threeNodes ∅ sample 1 3) as (_ & _ & Hcell).
  specialize (Hcell (mkStatus 1 "east" [(2, 5000000); (3, 50000000)])).
  destruct Hcell as (heat & Hheat & _ & Hplus1 & _);
    [by vm_compute | done | by_computation | by_computation |].
  exists heat. split; [reflexivity|]. split; [exact Hheat | exact Hplus1].
Defined.

Example threeNodes_cells :
  ∃ sample,
    latencies threeNodes [1; 2; 3] = Ok sample
    ∧ getLatencyCell threeNodes ∅ sample 1 3
      = Ok (CellHeat StddevPlus1 (NanoToMilli (toNumber 50000000)))
    ∧ getLatencyCell threeNodes ∅ sample 1 2
      = Ok (CellHeat StddevEven (NanoToMilli (toNumber 5000000)))
    ∧ getLatencyCell threeNodes ∅ sample 2 2 = Ok CellSelf.
Proof. eexists. by_evaluation. Qed.

(** C5, as stated, fails on the diagonal: node 3 of [twoFromOneTo] is stale
    and its cell against itself is [self], not [no-connection]. *)
Lemma stale_diagonal_is_self :
  ∃ healthy stale sample,
    healthyIDs (H := literal_engine) twoFromOneTo noQuery None = Ok healthy
    ∧ staleIDs (H := literal_engine) twoFromOneTo noQuery None = Ok stale
    ∧ latencies twoFromOneTo healthy = Ok sample
    ∧ 3 ∈ stale
    ∧ getLatencyCell twoFromOneTo stale sample 3 3 = Ok CellSelf
    ∧ getLatencyCell twoFromOneTo stale sample 3 3 ≠ Ok CellNoConnection.
Proof.
  exists [1; 2], (list_to_set [3]). eexists.
  split; [vm_compute; reflexivity|]. split; [vm_compute; reflexivity|].
  split; [vm_compute; reflexivity|]. split; [by_computation|].
  rewrite getLatencyCell_self. split; [reflexivity | discriminate].
Qed.

(** C5, amended. For a stale node [b] and every other node [a], the cell of
    [(a, b)] is [no-connection], whether or not [a] reports a latency to [b]. *)
Theorem stale_target_no_connection (nodesSummary : NodesSummary) (stale : gset Z)
    (sample : list number) (a b : Z) :
  b ∈ stale -> a ≠ b ->
  getLatencyCell nodesSummary stale sample a b = Ok CellNoConnection.
Proof. intros Hb Hab. apply getLatencyCell_stale; auto. Qed.

Lemma stale_target_no_connection_witness :
  getLatencyCell twoFromOneTo {[3]} [] 1 3 = Ok CellNoConnection.
Proof. apply stale_target_no_connection; [by_computation | lia]. Defined.

(** C1, as stated, fails: in [zeroLatency] no latency passes the sample
    filter, [mean] and [stddev] are [undefined], the four thresholds are NaN,
    and the cell of [(1, 2)] is compared with them and comes out [even]. *)
Lemma empty_sample_classified_even :
  ∃ healthy stale sample,
    healthyIDs (H := literal_engine) zeroLatency noQuery None = Ok healthy
    ∧ staleIDs (H := literal_engine) zeroLatency noQuery None = Ok stale
    ∧ latencies zeroLatency healthy = Ok sample
    ∧ sample = []
    ∧ mean sample = None
    ∧ stddev sample = None
    ∧ stddevPlus2 sample = NaN
    ∧ getLatencyCell zeroLatency stale sample 1 2 = Ok (CellHeat StddevEven (num_of_Z 0)).
Proof.
  eexists _, _, _.
  split; [vm_compute; reflexivity|]. split; [vm_compute; reflexivity|].
  split; [vm_compute; reflexivity|]. by_evaluation.
Qed.

(** C1, amended. When the sample list is empty, [mean] and [stddev] are
    [undefined] and the four thresholds are NaN; every comparison with them
    is false, so a pair of distinct nodes, neither stale, with a latency
    entry gets the heat [even]. *)
Theorem empty_sample_thresholds_NaN (nodesSummary : NodesSummary) (healthy : list Z)
    (stale : gset Z) (sample : list number) :
  latencies nodesSummary healthy = Ok sample -> sample = [] ->
  mean sample = None ∧ stddev sample = None
  ∧ stddevPlus1 sample = NaN ∧ stddevPlus2 sample = NaN
  ∧ stddevMinus1 sample = NaN ∧ stddevMinus2 sample = NaN
  ∧ (∀ latency, num_gt latency (stddevPlus2 sample) = false
                ∧ num_gt latency (stddevPlus1 sample) = false
                ∧ num_lt latency (stddevMinus2 sample) = false
                ∧ num_lt latency (stddevMinus1 sample) = false)
  ∧ (∀ a b status l,
       a ≠ b -> a ∉ stale -> b ∉ stale ->
       nodeStatusByID nodesSummary !! a = Some status ->
       status_latencies status !! b = Some l ->
       getLatencyCell nodesSummary stale sample a b
       = Ok (CellHeat StddevEven (NanoToMilli (toNumber l)))).
Proof.
  intros _ ->.
  assert (Hm : mean [] = None) by reflexivity.
  assert (Hd : stddev [] = None) by reflexivity.
  assert (H1 : stddevPlus1 [] = NaN) by reflexivity.
  assert (H2 : stddevPlus2 [] = NaN) by reflexivity.
  assert (H3 : stddevMinus1 [] = NaN) by reflexivity.
  assert (H4 : stddevMinus2 [] = NaN) by reflexivity.
  repeat (split; [done|]). split.
  - intros latency. rewrite H1, H2, H3, H4.
    by rewrite !num_gt_NaN_r, !num_lt_NaN_r.
  - intros a b status l Hab Ha Hb Hs Hl.
    rewrite (getLatencyCell_entry _ _ _ _ _ _ Hab Ha Hb Hs), Hl.
    by rewrite heatOf_NaN.
Qed.

Lemma empty_sample_thresholds_NaN_witness :
  stddevPlus1 [] = NaN
  ∧ getLatencyCell zeroLatency ∅ [] 1 2 = Ok (CellHeat StddevEven (NanoToMilli (toNumber 0))).
Proof.
  destruct (empty_sample_thresholds_NaN zeroLatency [1; 2] ∅ [])
    as (_ & _ & H1 & _ & _ & _ & _ & Hcell); [by vm_compute | done |].
  split; [exact H1|].
  apply (Hcell 1 2 (mkStatus 1 "east" [(2, 0)]) 0); [lia | by_computation | by_computation | | ];
    by vm_compute.
Defined.

(** C2: rendering [missingEntry] throws.  Both nodes are healthy and shown,
    the first has no latency entry for the second, and the sample list reads
    [toNumber] on that missing entry. *)
Theorem missing_entry_throws :
  healthyIDs (H := literal_engine) missingEntry noQuery None = Ok [1; 2]
  ∧ latencyMillis missingEntry 1 2 = Throw TypeError
  ∧ latencies missingEntry [1; 2] = Throw TypeError
  ∧ getLatencyCell missingEntry ∅ [] 1 2 = Ok CellNoConnection
  ∧ render (H := literal_engine) missingEntry noQuery = Throw TypeError.
Proof. by_evaluation. Qed.

(** C3: in [twoFromOneTo] the list comes out in the order of the healthy ids,
    [from] locality [dc=b] before [dc=a]; the four sorts over the whole list
    would put [dc=a] first. *)
Theorem noConnections_not_globally_sorted :
  ∃ healthy l l',
    healthyIDs (H := literal_engine) twoFromOneTo noQuery None = Ok healthy
    ∧ noConnections twoFromOneTo healthy = Ok l
    ∧ map endsOf l = [(Some 1, Some 3); (Some 2, Some 3)]
    ∧ map localityFrom l = [Some "dc=b"; Some "dc=a"]
    ∧ wholeListOrder l = Ok l'
    ∧ map endsOf l' = [(Some 2, Some 3); (Some 1, Some 3)]
    ∧ l ≠ l'.
Proof.
  eexists _, _, _.
  split; [vm_compute; reflexivity|]. split; [vm_compute; reflexivity|].
  split; [vm_compute; reflexivity|]. split; [vm_compute; reflexivity|].
  split; [vm_compute; reflexivity|]. split; [vm_compute; reflexivity|].
  intros Heq. apply (f_equal (map endsOf)) in Heq. vm_compute in Heq. discriminate.
Qed.

(** ** The latency sample *)

Lemma mapM_filter_agree {A B} (f g : A -> result B) (q : B -> bool) (l : list A) (k : list B) :
  mapM f l = Ok k ->
  (∀ x y, x ∈ l -> f x = Ok y -> ∃ y', g x = Ok y' ∧ (y' = y ∨ (q y = false ∧ q y' = false))) ->
  ∃ k', mapM g l = Ok k' ∧ List.filter q k' = List.filter q k.
Proof.
  intros Hk. apply mapM_Ok in Hk. induction Hk as [|x y l k Hx Hk IH]; intros Hfg.
  - by exists [].
  - destruct (Hfg x y) as (y' & Hy' & Hq); [by left | done |].
    destruct IH as (k' & Hk' & Hf); [intros; apply Hfg; [by right | done]|].
    exists (y' :: k'). split.
    + simpl. rewrite Hy', Hk'. reflexivity.
    + simpl. destruct Hq as [->|[-> ->]]; by rewrite Hf.
Qed.

Lemma Forall2_elem_of_r {A B} (R : A -> B -> Prop) (l : list A) (k : list B) (y : B) :
  Forall2 R l k -> y ∈ k -> ∃ x, x ∈ l ∧ R x y.
Proof.
  induction 1 as [|x y' l k HR Hlk IH]; intros Hy.
  - by apply elem_of_nil in Hy.
  - apply elem_of_cons in Hy as [->|Hy].
    + exists x. split; [by left | done].
    + destruct (IH Hy) as (x' & Hx' & HR'). exists x'. split; [by right | done].
Qed.

Lemma Forall2_elem_of_l {A B} (R : A -> B -> Prop) (l : list A) (k : list B) (x : A) :
  Forall2 R l k -> x ∈ l -> ∃ y, y ∈ k ∧ R x y.
Proof.
  induction 1 as [|x' y l k HR Hlk IH]; intros Hx.
  - by apply elem_of_nil in Hx.
  - apply elem_of_cons in Hx as [->|Hx].
    + exists y. split; [by left | done].
    + destruct (IH Hx) as (y' & Hy' & HR'). exists y'. split; [by right | done].
Qed.

Lemma elem_of_concat {A} (ls : list (list A)) (x : A) :
  x ∈ concat ls ↔ ∃ l, l ∈ ls ∧ x ∈ l.
Proof.
  rewrite list_elem_of_In, in_concat. split.
  - intros (l & Hl & Hx). exists l. by rewrite !list_elem_of_In.
  - intros (l & Hl & Hx). exists l. by rewrite <- !list_elem_of_In.
Qed.

Section Sample.
Variable nodesSummary : NodesSummary.

Lemma latencies_kept (healthy : list Z) (sample : list number) (x : number) :
  latencies nodesSummary healthy = Ok sample -> x ∈ sample -> keptSample x = true.
Proof.
  unfold latencies. intros Hs Hx.
  apply bind_Ok_inv in Hs as (ls & Hls & [= <-]).
  apply elem_of_concat in Hx as (l & Hl & Hx).
  apply mapM_Ok in Hls.
  destruct (Forall2_elem_of_r _ _ _ _ Hls Hl) as (a & _ & Ha).
  unfold latenciesFrom in Ha. apply bind_Ok_inv in Ha as (k & _ & [= <-]).
  apply list_elem_of_In, filter_In in Hx. tauto.
Qed.

Lemma latencyMillis_withLatency_ne (a b l' a' b' : Z) :
  a' ≠ a ∨ b' ≠ b ->
  latencyMillis (withLatency nodesSummary a b l') a' b' = latencyMillis nodesSummary a' b'.
Proof.
  intros Hne. unfold latencyMillis, withLatency. simpl.
  rewrite lookup_alter.
  case_decide as Ha; [|done]. subst a'.
  destruct (nodeStatusByID nodesSummary !! a) as [status|]; [|done]. simpl.
  rewrite lookup_insert_ne by (intros ->; tauto). done.
Qed.

Lemma latencyMillis_withLatency_eq (a b l' : Z) (status : NodeStatus) :
  nodeStatusByID nodesSummary !! a = Some status ->
  latencyMillis (withLatency nodesSummary a b l') a b = Ok (NanoToMilli (toNumber l')).
Proof.
  intros Hs. unfold latencyMillis, withLatency. simpl.
  rewrite lookup_alter, decide_True by done. rewrite Hs. simpl.
  by rewrite lookup_insert_eq.
Qed.

Lemma latencyMillis_entry (a b l : Z) (status : NodeStatus) :
  nodeStatusByID nodesSummary !! a = Some status ->
  status_latencies status !! b = Some l ->
  latencyMillis nodesSummary a b = Ok (NanoToMilli (toNumber l)).
Proof. intros Hs Hl. unfold latencyMillis. rewrite Hs. simpl. by rewrite Hl. Qed.

Lemma latencies_withLatency (healthy : list Z) (sample : list number) (a b l l' : Z)
    (status : NodeStatus) :
  nodeStatusByID nodesSummary !! a = Some status ->
  status_latencies status !! b = Some l ->
  keptSample (NanoToMilli (toNumber l)) = false ->
  keptSample (NanoToMilli (toNumber l')) = false ->
  latencies nodesSummary healthy = Ok sample ->
  latencies (withLatency nodesSummary a b l') healthy = Ok sample.
Proof.
  intros Hs Hl Hk Hk' Hsample. unfold latencies in *.
  apply bind_Ok_inv in Hsample as (ls & Hls & [= <-]).
  cut (mapM (latenciesFrom (withLatency nodesSummary a b l') healthy) healthy = Ok ls).
  { intros ->. reflexivity. }
  rewrite <- Hls. apply mapM_ext_in. intros a' Ha'.
  apply mapM_Ok in Hls.
  destruct (Forall2_elem_of_l _ _ _ _ Hls Ha') as (k & _ & Hk0).
  rewrite Hk0. unfold latenciesFrom in *.
  apply bind_Ok_inv in Hk0 as (k0 & Hk0 & [= <-]).
  destruct (mapM_filter_agree (latencyMillis nodesSummary a')
              (latencyMillis (withLatency nodesSummary a b l') a')
              keptSample _ _ Hk0) as (k' & -> & Hf).
  - intros b' y _ Hy.
    destruct (decide (a' = a ∧ b' = b)) as [[-> ->]|Hne].
    + exists (NanoToMilli (toNumber l')). split.
      * by eapply latencyMillis_withLatency_eq.
      * right. rewrite (latencyMillis_entry _ _ _ _ Hs Hl) in Hy.
        injection Hy as <-. done.
    + exists y. split; [|by left].
      rewrite latencyMillis_withLatency_ne; [done|].
      destruct (decide (a' = a)); [right|left]; tauto.
  - simpl. by rewrite Hf.
Qed.

End Sample.

(** C10. A latency entry whose value in milliseconds is finite and not above
    zero is given a heat by [getLatencyCell], next to the value itself, and
    is not in the sample list: the sample, and with it [mean], [stddev] and
    the thresholds, is the same for every such value of the entry, while the
    cell follows the value. *)
Theorem nonpositive_latency_classified_not_sampled (nodesSummary : NodesSummary)
    (healthy : list Z) (stale : gset Z) (sample : list number) (a b l : Z)
    (status : NodeStatus) :
  latencies nodesSummary healthy = Ok sample ->
  a ∈ healthy -> b ∈ healthy -> a ≠ b -> a ∉ stale -> b ∉ stale ->
  nodeStatusByID nodesSummary !! a = Some status ->
  status_latencies status !! b = Some l ->
  isFinite (NanoToMilli (toNumber l)) = true ->
  num_gt (NanoToMilli (toNumber l)) (num_of_Z 0) = false ->
  getLatencyCell nodesSummary stale sample a b
  = Ok (CellHeat (heatOf sample (NanoToMilli (toNumber l))) (NanoToMilli (toNumber l)))
  ∧ (NanoToMilli (toNumber l) ∉ sample)
  ∧ (∀ l', isFinite (NanoToMilli (toNumber l')) = true ->
           num_gt (NanoToMilli (toNumber l')) (num_of_Z 0) = false ->
           latencies (withLatency nodesSummary a b l') healthy = Ok sample
           ∧ getLatencyCell (withLatency nodesSummary a b l') stale sample a b
             = Ok (CellHeat (heatOf sample (NanoToMilli (toNumber l')))
                            (NanoToMilli (toNumber l')))).
Proof.
  intros Hsample _ _ Hab Ha Hb Hs Hl Hfin Hpos.
  assert (Hkept : ∀ x, num_gt (NanoToMilli (toNumber x)) (num_of_Z 0) = false ->
                       keptSample (NanoToMilli (toNumber x)) = false).
  { intros x Hx. unfold keptSample. rewrite Hx. apply andb_false_r. }
  split; [|split].
  - rewrite (getLatencyCell_entry _ _ _ _ _ _ Hab Ha Hb Hs). by rewrite Hl.
  - intros Hin. apply (latencies_kept _ _ _ _ Hsample) in Hin.
    rewrite Hkept in Hin by done. discriminate.
  - intros l' _ Hpos'. split.
    + eapply latencies_withLatency; eauto.
    + erewrite getLatencyCell_entry; [| done | done | done |].
      2:{ unfold withLatency. simpl. rewrite lookup_alter, decide_True by done.
          rewrite Hs. reflexivity. }
      simpl. by rewrite lookup_insert_eq.
Qed.

Lemma nonpositive_latency_classified_not_sampled_witness :
  ∃ sample,
    latencies oneZeroLatency [1; 2; 3] = Ok sample
    ∧ getLatencyCell oneZeroLatency ∅ sample 1 2
      = Ok (CellHeat (heatOf sample (NanoToMilli (toNumber 0))) (NanoToMilli (toNumber 0)))
    ∧ (NanoToMilli (toNumber 0) ∉ sample)
    ∧ latencies (withLatency oneZeroLatency 1 2 (-50000000)) [1; 2; 3] = Ok sample.
Proof.
  destruct (latencies oneZeroLatency [1; 2; 3]) as [sample|] eqn:Hsample;
    [|by vm_compute in Hsample].
  exists sample.
  destruct (nonpositive_latency_classified_not_sampled oneZeroLatency [1; 2; 3] ∅ sample 1 2 0
              (mkStatus 1 "east" [(2, 0); (3, 50000000)]))
    as (Hcell & Hout & Hany);
    [ exact Hsample | by_computation | by_computation | lia | by_computation | by_computation
    | by vm_compute | by vm_compute | by vm_compute | by vm_compute | ].
  split; [reflexivity|]. split; [exact Hcell|]. split; [exact Hout|].
  apply (Hany (-50000000)); by vm_compute.
Defined.

Example oneZeroLatency_cells :
  ∃ sample,
    latencies oneZeroLatency [1; 2; 3] = Ok sample
    ∧ length sample = 5%nat
    ∧ getLatencyCell oneZeroLatency ∅ sample 1 2 = Ok (CellHeat StddevEven (num_of_Z 0))
    ∧ latencies (withLatency oneZeroLatency 1 2 (-50000000)) [1; 2; 3] = Ok sample
    ∧ getLatencyCell (withLatency oneZeroLatency 1 2 (-50000000)) ∅ sample 1 2
      = Ok (CellHeat StddevMinus2 (NanoToMilli (toNumber (-50000000)))).
Proof. eexists. by_evaluation. Qed.

(** ** The missing-connection list *)

Lemma keys_perm {V} (m : gmap Z V) : lodash.keys m ≡ₚ (map_to_list m).*1.
Proof.
  unfold lodash.keys. rewrite stable_sort_perm.
  rewrite <- list_fmap_compose. done.
Qed.

Lemma NoDup_keys {V} (m : gmap Z V) : NoDup (lodash.keys m).
Proof. rewrite keys_perm. apply NoDup_fst_map_to_list. Qed.

Lemma elem_of_keys {V} (m : gmap Z V) (k : Z) : k ∈ lodash.keys m ↔ is_Some (m !! k).
Proof.
  rewrite keys_perm, list_elem_of_fmap. split.
  - intros ([k' v] & -> & Hin). apply elem_of_map_to_list in Hin. by eexists.
  - intros [v Hv]. exists (k, v). split; [done|]. by apply elem_of_map_to_list.
Qed.

Lemma NoDup_difference (l k : list Z) : NoDup l -> NoDup (lodash.difference l k).
Proof. apply NoDup_filter. Qed.

Lemma elem_of_difference_list (l k : list Z) (x : Z) :
  x ∈ lodash.difference l k ↔ x ∈ l ∧ x ∉ k.
Proof. unfold lodash.difference. rewrite list_elem_of_filter. tauto. Qed.

Lemma filter_eq_not_elem_of {A} `{EqDecision A} (l : list A) (x : A) :
  x ∉ l -> filter (λ y, y = x) l = [].
Proof.
  induction l as [|y l IH]; intros Hx; [done|].
  apply not_elem_of_cons in Hx as [Hne Hx].
  rewrite filter_cons, decide_False by done. by apply IH.
Qed.

Lemma length_filter_eq_NoDup {A} `{EqDecision A} (l : list A) (x : A) :
  NoDup l -> x ∈ l -> length (filter (λ y, y = x) l) = 1%nat.
Proof.
  induction 1 as [|y l Hy Hl IH]; intros Hx.
  - by apply elem_of_nil in Hx.
  - rewrite filter_cons. destruct (decide (y = x)) as [->|Hne].
    + simpl. by rewrite filter_eq_not_elem_of.
    + apply elem_of_cons in Hx as [->|Hx]; [done|]. by apply IH.
Qed.

Lemma length_filter_fmap {A B} (g : A -> B) (P : B -> Prop) (Q : A -> Prop)
    `{!∀ y, Decision (P y), !∀ x, Decision (Q x)} (l : list A) :
  (∀ x, Q x ↔ P (g x)) ->
  length (filter Q l) = length (filter P (map g l)).
Proof.
  intros HPQ. induction l as [|x l IH]; [done|]. simpl. rewrite !filter_cons.
  destruct (decide (Q x)) as [HQ|HQ].
  - rewrite decide_True by by apply HPQ. simpl. by rewrite IH.
  - rewrite decide_False by by rewrite <- HPQ. done.
Qed.

Lemma concat_perm_Forall2 {A B C} (g : B -> C) (F : A -> list C)
    (l : list A) (ls : list (list B)) :
  Forall2 (λ x lx, map g lx ≡ₚ F x) l ls ->
  map g (concat ls) ≡ₚ concat (map F l).
Proof.
  induction 1 as [|x lx l ls Hx Hl IH]; simpl; [done|].
  by rewrite map_app, Hx, IH.
Qed.

Lemma NoDup_concat_pairs (l : list Z) (D : Z -> list Z) :
  NoDup l -> (∀ x, x ∈ l -> NoDup (D x)) ->
  NoDup (concat (map (λ x, map (λ b, (Some x, Some b)) (D x)) l)).
Proof.
  induction 1 as [|x l Hx Hl IH]; intros HD; simpl; [constructor|].
  apply NoDup_app. split; [|split].
  - apply (NoDup_fmap_2 (λ b, (Some x, Some b))). apply HD. by left.
  - intros e He Hin.
    apply list_elem_of_fmap in He as (b & -> & _).
    apply elem_of_concat in Hin as (lx & Hlx & Hin).
    apply list_elem_of_fmap in Hlx as (x' & -> & Hx').
    apply list_elem_of_fmap in Hin as (b' & [= <- _] & _). done.
  - apply IH. intros; apply HD. by right.
Qed.

Section NoConnections.
Variable nodesSummary : NodesSummary.
Variable healthy : list Z.

(** The peers [nodeIDa] reports a latency to and that are not healthy. *)
Let peersOf (status : NodeStatus) : list Z :=
  lodash.difference (lodash.keys (status_latencies status)) healthy.

Lemma noConnectionsFrom_Ok (a : Z) (status : NodeStatus) :
  nodeStatusByID nodesSummary !! a = Some status ->
  is_Some (identityByID nodesSummary !! a) ->
  (∀ b, b ∈ peersOf status -> is_Some (identityByID nodesSummary !! b)) ->
  ∃ l, noConnectionsFrom nodesSummary healthy a = Ok l
       ∧ map endsOf l ≡ₚ map (λ b, (Some a, Some b)) (peersOf status).
Proof.
  intros Hs [ia Hia] Hpeers. unfold noConnectionsFrom. rewrite Hs. simpl.
  set (l0 := map _ (lodash.difference _ _)).
  assert (Hl0 : ∀ c, c ∈ l0 -> ∃ ib, from c = Some ia ∧ to c = Some ib).
  { intros c Hc. apply list_elem_of_fmap in Hc as (b & -> & Hb).
    destruct (Hpeers b Hb) as [ib Hib]. exists ib. simpl. by rewrite Hia, Hib. }
  assert (Hsort : ∀ K (lt : K -> K -> bool) (it : NoConnection -> result K) l,
             l ≡ₚ l0 ->
             (∀ c ia ib, from c = Some ia -> to c = Some ib -> ∃ k, it c = Ok k) ->
             ∃ l', lodash.sortBy lt it l = Ok l' ∧ l' ≡ₚ l0).
  { intros K lt it l Hl Hit.
    destruct (sortBy_total lt it l) as [l' Hl'].
    - intros c Hc. rewrite Hl in Hc. destruct (Hl0 c Hc) as (ib & Hf & Ht). eauto.
    - exists l'. split; [done|]. by rewrite (sortBy_perm _ _ _ _ Hl'). }
  destruct (Hsort _ Z.ltb (λ c, prop (to c) nodeID) l0) as (l1 & -> & H1); [done| |].
  { intros c ? ib _ ->. by eexists. }
  simpl.
  destruct (Hsort _ String.ltb (λ c, prop (to c) locality) l1) as (l2 & -> & H2); [done| |].
  { intros c ? ib _ ->. by eexists. }
  simpl.
  destruct (Hsort _ Z.ltb (λ c, prop (from c) nodeID) l2) as (l3 & -> & H3); [done| |].
  { intros c ? ib -> _. by eexists. }
  simpl.
  destruct (Hsort _ String.ltb (λ c, prop (from c) locality) l3) as (l4 & -> & H4); [done| |].
  { intros c ? ib -> _. by eexists. }
  exists l4. split; [done|]. rewrite H4. unfold l0.
  rewrite map_map.
  match goal with |- ?x ≡ₚ ?y => cut (x = y); [by intros ->|] end.
  apply map_ext_in.
  intros b Hb%list_elem_of_In. unfold endsOf, idOf. simpl.
  destruct (Hpeers b Hb) as [ib Hib]. rewrite Hia, Hib. simpl.
  by rewrite (identityByID_nodeID _ _ _ Hia), (identityByID_nodeID _ _ _ Hib).
Qed.

End NoConnections.

Lemma Forall2_Ok_impl {A B} (f : A -> result B) (R : A -> B -> Prop)
    (l : list A) (k : list B) :
  Forall2 (λ x y, f x = Ok y) l k ->
  (∀ x, x ∈ l -> ∃ y, f x = Ok y ∧ R x y) ->
  Forall2 R l k.
Proof.
  induction 1 as [|x y l k Hx Hl IH]; intros HR; constructor.
  - destruct (HR x) as (y' & Hy' & Hxy); [by left|]. congruence.
  - apply IH. intros; apply HR. by right.
Qed.

(** C9. Over distinct healthy ids whose statuses and identities are known,
    the list is produced, and for a healthy node [a] that reports a latency
    to a peer outside the healthy ids it holds exactly one entry from [a] to
    that peer; no entry starts from the peer, whatever the peer reports. *)
Theorem noConnection_exactly_once (nodesSummary : NodesSummary) (healthy : list Z)
    (a peer l : Z) (status : NodeStatus) :
  NoDup healthy ->
  (∀ x, x ∈ healthy ->
        is_Some (nodeStatusByID nodesSummary !! x) ∧ is_Some (identityByID nodesSummary !! x)) ->
  (∀ x st b, x ∈ healthy -> nodeStatusByID nodesSummary !! x = Some st ->
             is_Some (status_latencies st !! b) -> is_Some (identityByID nodesSummary !! b)) ->
  a ∈ healthy ->
  nodeStatusByID nodesSummary !! a = Some status ->
  status_latencies status !! peer = Some l ->
  peer ∉ healthy ->
  ∃ noConns,
    noConnections nodesSummary healthy = Ok noConns
    ∧ length (filter (λ c, endsOf c = (Some a, Some peer)) noConns) = 1%nat
    ∧ (∀ c, c ∈ noConns -> idOf (from c) ≠ Some peer).
Proof.
  intros Hnd Hknown Hpeers Ha Hs Hl Hpeer.
  set (D := λ x, match nodeStatusByID nodesSummary !! x with
                 | Some st => lodash.difference (lodash.keys (status_latencies st)) healthy
                 | None => []
                 end).
  set (F := λ x, map (λ b : Z, (Some x, Some b)) (D x)).
  assert (Hfrom : ∀ x, x ∈ healthy ->
            ∃ lx, noConnectionsFrom nodesSummary healthy x = Ok lx ∧ map endsOf lx ≡ₚ F x).
  { intros x Hx. destruct (Hknown x Hx) as [[st Hst] Hix].
    destruct (noConnectionsFrom_Ok nodesSummary healthy x st Hst Hix) as (lx & Hlx & Hp).
    - intros b [Hb _]%elem_of_difference_list. apply elem_of_keys in Hb. eauto.
    - exists lx. split; [done|]. unfold F, D. by rewrite Hst. }
  destruct (mapM_total (noConnectionsFrom nodesSummary healthy) healthy) as [ls Hls].
  { intros x Hx. destruct (Hfrom x Hx) as (lx & Hlx & _). eauto. }
  assert (Hperm : map endsOf (concat ls) ≡ₚ concat (map F healthy)).
  { apply concat_perm_Forall2. apply mapM_Ok in Hls.
    by apply (Forall2_Ok_impl _ _ _ _ Hls). }
  assert (HndE : NoDup (concat (map F healthy))).
  { apply NoDup_concat_pairs; [done|]. intros x _. unfold D.
    destruct (nodeStatusByID nodesSummary !! x); [|constructor].
    apply NoDup_difference, NoDup_keys. }
  exists (concat ls). split; [|split].
  - unfold noConnections. by rewrite Hls.
  - rewrite (length_filter_fmap endsOf (λ e, e = (Some a, Some peer))
               (λ c, endsOf c = (Some a, Some peer))) by done.
    rewrite Hperm. apply length_filter_eq_NoDup; [done|].
    apply elem_of_concat. exists (F a). split; [by apply list_elem_of_fmap_2|].
    unfold F, D. rewrite Hs.
    apply (list_elem_of_fmap_2 (λ b : Z, (Some a, Some b))).
    apply elem_of_difference_list. split; [|done]. apply elem_of_keys. by eexists.
  - intros c Hc Hfromc.
    assert (He : endsOf c ∈ concat (map F healthy)).
    { rewrite <- Hperm. by apply list_elem_of_fmap_2. }
    apply elem_of_concat in He as (lx & Hlx & He).
    apply list_elem_of_fmap in Hlx as (x & -> & Hx).
    apply list_elem_of_fmap in He as (b & He & _).
    unfold endsOf in He. rewrite Hfromc in He. injection He as <-. done.
Qed.

Lemma noConnection_exactly_once_witness :
  ∃ noConns,
    noConnections mixedCluster [1; 2] = Ok noConns
    ∧ length (filter (λ c, endsOf c = (Some 1, Some 3)) noConns) = 1%nat
    ∧ (∀ c, c ∈ noConns -> idOf (from c) ≠ Some 3).
Proof.
  apply (noConnection_exactly_once mixedCluster [1; 2] 1 3 7000000
           (mkStatus 1 "east" [(2, 5000000); (3, 7000000); (4, 9000000)])).
  - by_computation.
  - intros x Hx.
    repeat (apply elem_of_cons in Hx as [->|Hx]; [split; by vm_compute; eexists|]).
    by apply elem_of_nil in Hx.
  - intros x st b Hx Hst Hb. apply elem_of_keys in Hb.
    assert (Hdom : b ∈ [1; 2; 3; 4]).
    { repeat (apply elem_of_cons in Hx as [->|Hx];
              [vm_compute in Hst; injection Hst as <-; vm_compute in Hb;
               repeat (apply elem_of_cons in Hb as [->|Hb]; [by_computation|]);
               by apply elem_of_nil in Hb|]).
      by apply elem_of_nil in Hx. }
    repeat (apply elem_of_cons in Hdom as [->|Hdom]; [by vm_compute; eexists|]).
    by apply elem_of_nil in Hdom.
  - by_computation.
  - by vm_compute.
  - by vm_compute.
  - by_computation.
Defined.

(** ** Other ways [render] throws *)

Example unknown_peer_throws :
  noConnections unknownPeer [1] = Throw TypeError
  ∧ render (H := literal_engine) unknownPeer noQuery = Throw TypeError.
Proof. split; vm_compute; reflexivity. Qed.

Example empty_sample_legend_throws :
  latencies zeroLatency [1; 2] = Ok []
  ∧ legend [] = Throw TypeError
  ∧ render (H := literal_engine) zeroLatency noQuery = Throw TypeError.
Proof. by_evaluation. Qed.

(** ** The worked example *)

Example threeNodes_sample :
  latencies threeNodes [1; 2; 3]
  = Ok (map (λ ms, NanoToMilli (toNumber (ms * 1000000))) [5; 50; 5; 6; 50; 6]).
Proof. vm_compute. reflexivity. Qed.

Example threeNodes_mean :
  ∃ sample m, latencies threeNodes [1; 2; 3] = Ok sample
    ∧ mean sample = Some m
    ∧ num_lt (num_of_Z 20) m = true ∧ num_lt m (num_of_Z 21) = true.
Proof. eexists _, _. by_evaluation. Qed.

Example threeNodes_stddev :
  ∃ sample d, latencies threeNodes [1; 2; 3] = Ok sample
    ∧ stddev sample = Some d
    ∧ num_lt (num_of_Z 22) d = true ∧ num_lt d (num_of_Z 24) = true.
Proof. eexists _, _. by_evaluation. Qed.

(** * Further properties *)

(** ** Orders behind [_.sortBy] *)

Lemma lt_irrefl {K} (lt : K -> K -> bool) `{!KeyOrder lt} (a : K) : lt a a = false.
Proof. destruct (lt a a) eqn:E; [|done]. by rewrite (lt_asym _ _ E) in E. Qed.

#[global] Instance Z_ltb_order : KeyOrder Z.ltb.
Proof. split; intros; lia. Qed.

Lemma string_compare_lt_trans (a b c : string) :
  String.compare a b = Lt -> String.compare b c = Lt -> String.compare a c = Lt.
Proof.
  revert b c. induction a as [|x a IH]; intros [|y b] [|z c]; simpl; try done.
  unfold Ascii.compare.
  destruct (N.compare_spec (N_of_ascii x) (N_of_ascii y)) as [Hxy|Hxy|Hxy]; [| |done];
  destruct (N.compare_spec (N_of_ascii y) (N_of_ascii z)) as [Hyz|Hyz|Hyz]; try done.
  - rewrite Hxy, Hyz, N.compare_refl. apply IH.
  - intros _ _. rewrite Hxy. by apply N.compare_lt_iff in Hyz as ->.
  - intros _ _. rewrite <- Hyz. by apply N.compare_lt_iff in Hxy as ->.
  - intros _ _. assert (Hxz : (N_of_ascii x < N_of_ascii z)%N) by lia.
    by apply N.compare_lt_iff in Hxz as ->.
Qed.

#[global] Instance string_ltb_order : KeyOrder String.ltb.
Proof.
  split; unfold String.ltb.
  - intros a b. rewrite (String.compare_antisym b a). by destruct (String.compare a b).
  - intros a b c Hab Hbc.
    destruct (String.compare c a) eqn:Hca; [done| |done].
    rewrite (String.compare_antisym b a) in Hab. rewrite (String.compare_antisym c b) in Hbc.
    destruct (String.compare a b) eqn:Eab; [| |done].
    + apply String.compare_eq_iff in Eab as ->.
      rewrite (String.compare_antisym b c), Hca in Hbc. done.
    + destruct (String.compare b c) eqn:Ebc; [| |done].
      * apply String.compare_eq_iff in Ebc as ->.
        rewrite (String.compare_antisym a c), Hca in Eab. done.
      * pose proof (string_compare_lt_trans _ _ _ Eab Ebc) as Hac.
        rewrite (String.compare_antisym a c), Hca in Hac. done.
  - intros a b Hab Hba. rewrite (String.compare_antisym b a) in Hba.
    destruct (String.compare a b) eqn:E; [|done..].
    by apply String.compare_eq_iff.
Qed.

(** ** What a stable sort leaves in order *)

Section StableSort.
Context {K A : Type} (lt : K -> K -> bool) `{!KeyOrder lt}.
Context (R : relation (K * A)).

Lemma insert_by_keyThen (x : K * A) (l : list (K * A)) :
  StronglySorted (keyThen lt R) l -> Forall (R x) l ->
  StronglySorted (keyThen lt R) (lodash.insert_by lt x l).
Proof.
  induction l as [|y l IH]; intros Hl Hx; simpl.
  - repeat constructor.
  - apply StronglySorted_inv in Hl as [Hl Hy].
    apply Forall_cons in Hx as [Hxy Hx].
    destruct (lt y.1 x.1) eqn:Hyx.
    + constructor; [by apply IH|].
      rewrite insert_by_perm. constructor; [|done].
      split; [by apply lt_asym | by rewrite Hyx].
    + constructor; [by constructor|].
      constructor; [by split|].
      rewrite Forall_forall in Hy, Hx |- *. intros z Hz. split; [|by auto].
      destruct (Hy z Hz) as [Hzy _]. by eapply le_trans.
Qed.

Lemma stable_sort_keyThen (l : list (K * A)) :
  StronglySorted R l -> StronglySorted (keyThen lt R) (lodash.stable_sort lt l).
Proof.
  induction 1 as [|x l Hl IH Hx]; [constructor|].
  unfold lodash.stable_sort in *. simpl.
  apply insert_by_keyThen; [done|].
  by rewrite (stable_sort_perm lt l).
Qed.

Lemma stable_sort_sorted_id (l : list (K * A)) :
  StronglySorted (λ p q, lt q.1 p.1 = false) l -> lodash.stable_sort lt l = l.
Proof.
  induction 1 as [|x l Hl IH Hx]; [done|].
  unfold lodash.stable_sort in *. simpl. rewrite IH.
  destruct l as [|y l]; [done|]. simpl.
  apply Forall_cons in Hx as [Hxy _]. by rewrite Hxy.
Qed.

End StableSort.

Lemma StronglySorted_True {A} (l : list A) : StronglySorted (λ _ _, True) l.
Proof. induction l; constructor; [done|]. by apply Forall_forall. Qed.

Lemma StronglySorted_fmap_strong {A B} (P : relation A) (P' : relation B) (Q : A -> Prop)
    (h : A -> B) (l : list A) :
  (∀ p q, Q p -> Q q -> P p q -> P' (h p) (h q)) ->
  Forall Q l -> StronglySorted P l -> StronglySorted P' (h <$> l).
Proof.
  intros HP HQ Hl. revert HQ. induction Hl as [|x l Hl IH Hx]; intros HQ; [constructor|].
  apply Forall_cons in HQ as [HQx HQ]. simpl. constructor; [by apply IH|].
  apply Forall_fmap. rewrite Forall_forall in Hx. rewrite Forall_forall in HQ.
  apply Forall_forall. intros y Hy. simpl. by auto.
Qed.

Lemma StronglySorted_Some_inv {A} (P : relation (option A)) (P' : relation A) (l : list A) :
  (∀ x y, P (Some x) (Some y) -> P' x y) ->
  StronglySorted P (Some <$> l) -> StronglySorted P' l.
Proof.
  intros HP. induction l as [|x l IH]; simpl; intros Hl; [constructor|].
  apply StronglySorted_inv in Hl as [Hl Hx]. constructor; [by apply IH|].
  rewrite Forall_forall in Hx. apply Forall_forall.
  intros y Hy. apply HP, Hx. by apply list_elem_of_fmap_2.
Qed.

Lemma Forall_is_Some_fmap {A} (l : list (option A)) :
  Forall is_Some l -> ∃ k, l = Some <$> k.
Proof.
  induction 1 as [|x l [y ->] _ [k ->]]; [by exists []|]. by exists (y :: k).
Qed.

Section SortBy.
Context {K A : Type} (lt : K -> K -> bool) `{!KeyOrder lt}.

Lemma sortBy_Ok_inv (iteratee : A -> result K) (l l' : list A) (x : A) :
  lodash.sortBy lt iteratee l = Ok l' -> x ∈ l -> ∃ k, iteratee x = Ok k.
Proof.
  unfold lodash.sortBy. intros Hs Hx.
  apply bind_Ok_inv in Hs as (criteria & Hc & _). apply mapM_Ok in Hc.
  destruct (Forall2_elem_of_l _ _ _ _ Hc Hx) as (k & _ & Hk). eauto.
Qed.

(** One pass of [_.sortBy]: the criteria ascend, and where the criteria do
    not order two elements the order [R] of the input is kept. *)
Lemma sortBy_keyThen (iteratee : A -> result K) (g : A -> K) (R : relation A)
    (l l' : list A) :
  lodash.sortBy lt iteratee l = Ok l' ->
  (∀ x, x ∈ l -> iteratee x = Ok (g x)) ->
  StronglySorted R l ->
  StronglySorted (λ a b, lt (g b) (g a) = false ∧ (lt (g a) (g b) = false -> R a b)) l'.
Proof.
  unfold lodash.sortBy. intros Hs Hg Hl.
  apply bind_Ok_inv in Hs as (criteria & Hc & [= <-]).
  assert (Hzip : zip criteria l = (λ x, (g x, x)) <$> l).
  { apply mapM_Ok in Hc. clear Hl. induction Hc as [|x k l c Hx Hc IH]; [done|].
    simpl. rewrite IH by (intros; apply Hg; by right).
    rewrite Hg in Hx by (by left). by injection Hx as <-. }
  rewrite Hzip.
  apply (StronglySorted_fmap_strong
           (keyThen lt (λ p q, R p.2 q.2)) _ (λ p, p.1 = g p.2)).
  - intros p q Hp Hq [H1 H2]. by rewrite <- Hp, <- Hq.
  - rewrite (stable_sort_perm lt). apply Forall_fmap, Forall_forall. done.
  - apply stable_sort_keyThen; [done|].
    apply (StronglySorted_fmap_strong R _ (λ _, True)); [done | by apply Forall_forall | done].
Qed.

(** Sorting again on the same criteria changes nothing. *)
Lemma sortBy_sorted_id (iteratee : A -> result K) (g : A -> K) (l : list A) :
  (∀ x, x ∈ l -> iteratee x = Ok (g x)) ->
  StronglySorted (λ a b, lt (g b) (g a) = false) l ->
  lodash.sortBy lt iteratee l = Ok l.
Proof.
  intros Hg Hl. unfold lodash.sortBy.
  assert (Hc : mapM iteratee l = Ok (g <$> l)).
  { apply mapM_Ok. clear Hl. induction l as [|x l IH]; constructor.
    - apply Hg. by left.
    - apply IH. intros; apply Hg; by right. }
  rewrite Hc. change (Ok ((lodash.stable_sort lt (zip (g <$> l) l)).*2) = Ok l). f_equal.
  assert (Hzip : zip (g <$> l) l = (λ x, (g x, x)) <$> l).
  { clear. induction l as [|x l IH]; [done|]. simpl. f_equal. apply IH. }
  rewrite Hzip, (stable_sort_sorted_id lt).
  - rewrite <- list_fmap_compose. by rewrite list_fmap_id.
  - apply (StronglySorted_fmap_strong (λ a b, lt (g b) (g a) = false) _ (λ _, True));
      [done | by apply Forall_forall | done].
Qed.

End SortBy.

(** ** Identities *)

Section Identities.
Variable nodesSummary : NodesSummary.

Lemma identityByID_fold :
  identityByID nodesSummary
  = foldl (λ m status, <[ node_id (desc status) := identityOf status ]> m)
          ∅ (nodeStatuses nodesSummary).
Proof. reflexivity. Qed.

Lemma identityByID_lookup (id : Z) :
  identityByID nodesSummary !! id
  = identityOf <$> last (filter (λ status, node_id (desc status) = id)
                                (nodeStatuses nodesSummary)).
Proof.
  rewrite identityByID_fold.
  induction (nodeStatuses nodesSummary) as [|status l IH] using rev_ind.
  - simpl. by rewrite lookup_empty.
  - rewrite foldl_snoc, filter_app, lookup_insert.
    rewrite filter_cons, filter_nil. case_decide as Hid.
    + by rewrite last_snoc.
    + by rewrite app_nil_r.
Qed.

(** X1. [identityByID] answers, for an id, the identity of the last status
    of [nodeStatuses] that carries the id, and [undefined] when no status
    does: a later status with the same id replaces an earlier one. *)
Theorem identityByID_last_status (id : Z) :
  identityByID nodesSummary !! id
  = identityOf <$> last (filter (λ status, node_id (desc status) = id)
                                (nodeStatuses nodesSummary)).
Proof. apply identityByID_lookup. Qed.

Lemma identityByID_Some (id : Z) (i : Identity) :
  identityByID nodesSummary !! id = Some i ->
  ∃ status, status ∈ nodeStatuses nodesSummary
            ∧ node_id (desc status) = id ∧ i = identityOf status.
Proof.
  rewrite identityByID_lookup. intros Hi.
  apply fmap_Some in Hi as (status & Hlast & ->).
  apply last_Some_elem_of, list_elem_of_filter in Hlast as [Hid Hin]. eauto.
Qed.

Lemma identityByID_known (status : NodeStatus) :
  status ∈ nodeStatuses nodesSummary ->
  is_Some (identityByID nodesSummary !! node_id (desc status)).
Proof.
  intros Hin. rewrite identityByID_lookup.
  apply fmap_is_Some.
  destruct (last _) as [x|] eqn:Hlast; [by eexists|].
  apply last_None in Hlast.
  assert (Hf : status ∈ filter (λ st, node_id (desc st) = node_id (desc status))
                         (nodeStatuses nodesSummary))
    by (by apply list_elem_of_filter).
  rewrite Hlast in Hf. by apply elem_of_nil in Hf.
Qed.

End Identities.

(** ** The node classifier, filters included *)

Lemma filterM_sublist {A} (p : A -> result bool) (l k : list A) :
  filterM p l = Ok k -> k `sublist_of` l.
Proof.
  revert k. induction l as [|x l IH]; intros k; simpl.
  - by intros [= <-].
  - intros Hk. apply bind_Ok_inv in Hk as (b & Hb & Hk).
    apply bind_Ok_inv in Hk as (k' & Hk' & [= <-]).
    destruct b; [apply sublist_skip | apply sublist_cons]; by apply IH.
Qed.

Lemma filterM_elem_of_2 {A} (p : A -> result bool) (l k : list A) (x : A) :
  filterM p l = Ok k -> x ∈ l -> p x = Ok true -> x ∈ k.
Proof.
  revert k. induction l as [|y l IH]; intros k; simpl.
  - intros _ Hx. by apply elem_of_nil in Hx.
  - intros Hk Hx Hp. apply bind_Ok_inv in Hk as (b & Hb & Hk).
    apply bind_Ok_inv in Hk as (k' & Hk' & [= <-]).
    apply elem_of_cons in Hx as [->|Hx].
    + rewrite Hp in Hb. injection Hb as <-. by left.
    + destruct b; [right|]; by apply IH.
Qed.

Lemma filterM_total {A} (p : A -> result bool) (l : list A) :
  (∀ x, x ∈ l -> ∃ b, p x = Ok b) -> ∃ k, filterM p l = Ok k.
Proof.
  induction l as [|x l IH]; intros Hp; simpl; [by eexists|].
  destruct (Hp x) as [b ->]; [by left|].
  destruct IH as [k ->]; [intros; apply Hp; by right|]. by eexists.
Qed.

Lemma filterM_throws {A} (p : A -> result bool) (l : list A) (x : A) (e : JsError) :
  x ∈ l -> p x = Throw e -> ∃ e', filterM p l = Throw e'.
Proof.
  induction l as [|y l IH]; intros Hx Hp; [by apply elem_of_nil in Hx|].
  simpl. apply elem_of_cons in Hx as [->|Hx].
  - rewrite Hp. by eexists.
  - destruct (p y) as [b|e0]; [|by eexists]. simpl.
    destruct (IH Hx Hp) as [e' ->]. by eexists.
Qed.

Section Classifier2.
Context `{RegExpEngine}.
Variable nodesSummary : NodesSummary.
Variable query : Query.

Lemma elem_of_onlyRequested_iff (ids : list Z) (id : Z) :
  id ∈ onlyRequested query ids ↔
  id ∈ ids ∧ (requestedIDs query = ∅ ∨ id ∈ requestedIDs query).
Proof.
  unfold onlyRequested. case_decide as Hsize.
  - rewrite list_elem_of_filter. split.
    + intros [? ?]. auto.
    + intros [? [Hempty|?]]; [|done]. rewrite Hempty, size_empty in Hsize. lia.
  - split; [|tauto]. intros Hin. split; [done|]. left.
    apply leibniz_equiv, size_empty_iff. lia.
Qed.

Lemma onlyRequested_sublist (ids : list Z) : onlyRequested query ids `sublist_of` ids.
Proof. unfold onlyRequested. case_decide; [apply sublist_filter | done]. Qed.

Lemma notMatching_sublist (locality : option RegExp) (ids k : list Z) :
  notMatching nodesSummary locality ids = Ok k -> k `sublist_of` ids.
Proof.
  destruct locality as [re|]; simpl; [apply filterM_sublist | by intros [= <-]].
Qed.

Lemma elem_of_notMatching_iff (locality : option RegExp) (ids k : list Z) (id : Z) :
  notMatching nodesSummary locality ids = Ok k ->
  id ∈ k ↔
  id ∈ ids ∧ ∀ re, locality = Some re ->
                   ∃ l, localityOf nodesSummary id = Ok l ∧ RegExp_test re l = false.
Proof.
  destruct locality as [re|]; simpl; intros Hk.
  - split.
    + intros Hid. destruct (filterM_elem_of _ _ _ _ Hk Hid) as [Hin Hp].
      split; [done|]. intros ? [= <-].
      apply bind_Ok_inv in Hp as (l & Hl & [= Ht]). exists l. split; [done|].
      by apply negb_true_iff.
    + intros [Hin Hre]. destruct (Hre re eq_refl) as (l & Hl & Ht).
      apply (filterM_elem_of_2 _ _ _ _ Hk Hin). rewrite Hl. simpl. by rewrite Ht.
  - injection Hk as <-. split; [|tauto]. intros Hin. split; [done|]. intros; discriminate.
Qed.

Lemma idsContext_iff (locality : option RegExp) (live : LivenessStatus) (k : list Z) :
  notMatching nodesSummary locality (onlyRequested query (withLiveness nodesSummary live)) = Ok k ->
  k `sublist_of` nodeIDs nodesSummary
  ∧ ∀ id, id ∈ k ↔
          id ∈ nodeIDs nodesSummary
          ∧ livenessStatusByNodeID nodesSummary !! id = Some live
          ∧ (requestedIDs query = ∅ ∨ id ∈ requestedIDs query)
          ∧ (∀ re, locality = Some re ->
                   ∃ l, localityOf nodesSummary id = Ok l ∧ RegExp_test re l = false).
Proof.
  intros Hk. split.
  - etrans; [by eapply notMatching_sublist|].
    etrans; [apply onlyRequested_sublist|]. apply sublist_filter.
  - intros id. rewrite (elem_of_notMatching_iff _ _ _ _ Hk).
    rewrite elem_of_onlyRequested_iff, elem_of_withLiveness. tauto.
Qed.

End Classifier2.

Lemma ids_characterised `{RegExpEngine} (nodesSummary : NodesSummary) (query : Query)
    (locality : option RegExp) (h : list Z) (st : gset Z) :
  healthyIDs nodesSummary query locality = Ok h ->
  staleIDs nodesSummary query locality = Ok st ->
  h `sublist_of` nodeIDs nodesSummary
  ∧ (∀ id, id ∈ h ↔
           id ∈ nodeIDs nodesSummary
           ∧ livenessStatusByNodeID nodesSummary !! id = Some HEALTHY
           ∧ (requestedIDs query = ∅ ∨ id ∈ requestedIDs query)
           ∧ (∀ re, locality = Some re ->
                    ∃ l, localityOf nodesSummary id = Ok l ∧ RegExp_test re l = false))
  ∧ (∀ id, id ∈ st ↔
           id ∈ nodeIDs nodesSummary
           ∧ livenessStatusByNodeID nodesSummary !! id = Some SUSPECT
           ∧ (requestedIDs query = ∅ ∨ id ∈ requestedIDs query)
           ∧ (∀ re, locality = Some re ->
                    ∃ l, localityOf nodesSummary id = Ok l ∧ RegExp_test re l = false)).
Proof.
  unfold healthyIDs, staleIDs, healthyIDsContext, staleIDsContext. intros Hh Hst.
  apply bind_Ok_inv in Hst as (s & Hs & [= <-]).
  destruct (idsContext_iff _ _ _ _ _ Hh) as [Hsub Hin].
  destruct (idsContext_iff _ _ _ _ _ Hs) as [_ Hin'].
  split; [done|]. split; [done|].
  intros id. rewrite elem_of_list_to_set. apply Hin'.
Qed.

(** X2. When the healthy ids are computed, they are a sublist of [nodeIDs]
    (same order, nothing added) holding exactly the ids that are [HEALTHY],
    are requested when any id is requested, and whose locality the pattern,
    if there is one, does not match; the stale ids are the same with
    [SUSPECT]. *)
Theorem classifier_with_filters `{RegExpEngine} (nodesSummary : NodesSummary) (query : Query)
    (locality : option RegExp) (h : list Z) (st : gset Z) :
  healthyIDs nodesSummary query locality = Ok h ->
  staleIDs nodesSummary query locality = Ok st ->
  h `sublist_of` nodeIDs nodesSummary
  ∧ (∀ id, id ∈ h ↔
           id ∈ nodeIDs nodesSummary
           ∧ livenessStatusByNodeID nodesSummary !! id = Some HEALTHY
           ∧ (requestedIDs query = ∅ ∨ id ∈ requestedIDs query)
           ∧ (∀ re, locality = Some re ->
                    ∃ l, localityOf nodesSummary id = Ok l ∧ RegExp_test re l = false))
  ∧ (∀ id, id ∈ st ↔
           id ∈ nodeIDs nodesSummary
           ∧ livenessStatusByNodeID nodesSummary !! id = Some SUSPECT
           ∧ (requestedIDs query = ∅ ∨ id ∈ requestedIDs query)
           ∧ (∀ re, locality = Some re ->
                    ∃ l, localityOf nodesSummary id = Ok l ∧ RegExp_test re l = false)).
Proof. apply ids_characterised. Qed.

Lemma classifier_with_filters_witness :
  [2] `sublist_of` nodeIDs mixedCluster
  ∧ (∀ id, id ∈ [2] ↔
           id ∈ nodeIDs mixedCluster
           ∧ livenessStatusByNodeID mixedCluster !! id = Some HEALTHY
           ∧ (requestedIDs {| node_ids := Some "2,3,4"; query_locality := None |} = ∅
              ∨ id ∈ requestedIDs {| node_ids := Some "2,3,4"; query_locality := None |})
           ∧ (∀ re, Some "east" = Some re ->
                    ∃ l, localityOf mixedCluster id = Ok l
                         ∧ RegExp_test (RegExpEngine := literal_engine) re l = false))
  ∧ (∀ id, id ∈ (list_to_set [] : gset Z) ↔
           id ∈ nodeIDs mixedCluster
           ∧ livenessStatusByNodeID mixedCluster !! id = Some SUSPECT
           ∧ (requestedIDs {| node_ids := Some "2,3,4"; query_locality := None |} = ∅
              ∨ id ∈ requestedIDs {| node_ids := Some "2,3,4"; query_locality := None |})
           ∧ (∀ re, Some "east" = Some re ->
                    ∃ l, localityOf mixedCluster id = Ok l
                         ∧ RegExp_test (RegExpEngine := literal_engine) re l = false)).
Proof.
  apply (classifier_with_filters (H := literal_engine) mixedCluster
           {| node_ids := Some "2,3,4"; query_locality := None |} (Some "east"));
    vm_compute; reflexivity.
Defined.

(** ** The two identity lists *)

Section Display.
Context `{RegExpEngine}.
Variable nodesSummary : NodesSummary.

Lemma byNodeIDThenLocality_sorted (ids : list Z) (l : list (option Identity)) :
  byNodeIDThenLocality nodesSummary ids = Ok l ->
  ∃ idents, l = Some <$> idents
            ∧ StronglySorted localityThenID idents
            ∧ nodeID <$> idents ≡ₚ ids.
Proof.
  intros Hl. pose proof (byNodeIDThenLocality_perm _ _ _ Hl) as Hperm.
  unfold byNodeIDThenLocality in Hl.
  apply bind_Ok_inv in Hl as (l1 & H1 & H2).
  set (l0 := map (λ nodeID, identityByID nodesSummary !! nodeID) ids) in *.
  assert (Hsome0 : ∀ x, x ∈ l0 -> is_Some x).
  { intros x Hx. destruct (sortBy_Ok_inv _ _ _ _ _ H1 Hx) as [k Hk].
    destruct x; [by eexists | discriminate]. }
  assert (Hsome : Forall is_Some l).
  { apply Forall_forall. intros x Hx. apply Hsome0. by rewrite <- Hperm. }
  destruct (Forall_is_Some_fmap _ Hsome) as [idents ->].
  exists idents. split; [done|]. split.
  - pose proof (sortBy_keyThen Z.ltb _ (from_option nodeID 0) (λ _ _, True) _ _ H1) as S1.
    pose proof (sortBy_keyThen String.ltb _ (from_option locality "")
                  (λ a b, (from_option nodeID 0 b <? from_option nodeID 0 a) = false
                          ∧ ((from_option nodeID 0 a <? from_option nodeID 0 b) = false
                             -> True)) _ _ H2) as S2.
    eapply StronglySorted_Some_inv; [|apply S2].
    + intros i j [Hloc Hid]. simpl in *. split; [done|]. intros Heq.
      destruct Hid as [Hid _]; [rewrite Heq; apply (lt_irrefl String.ltb)|]. lia.
    + intros x Hx. rewrite (sortBy_perm _ _ _ _ H1) in Hx.
      by destruct (Hsome0 x Hx) as [i ->].
    + apply S1; [|apply StronglySorted_True].
      intros x Hx. by destruct (Hsome0 x Hx) as [i ->].
  - apply (fmap_Permutation (from_option nodeID 0)) in Hperm.
    rewrite <- list_fmap_compose in Hperm. simpl in Hperm.
    etrans; [exact Hperm|]. unfold l0. rewrite <- (list_fmap_compose _ _ ids).
    match goal with |- ?x ≡ₚ ?y => cut (x = y); [by intros ->|] end.
    rewrite <- (list_fmap_id ids) at 2. apply list_fmap_ext. intros k id Hid. simpl.
    assert (Hin : identityByID nodesSummary !! id ∈ l0).
    { apply list_elem_of_fmap_2'  with id; [|done]. by eapply list_elem_of_lookup_2. }
    destruct (Hsome0 _ Hin) as [i Hi]. rewrite Hi. simpl. by eapply identityByID_nodeID.
Qed.

End Display.

(** X3. The identities of [displayIdentities], and those of
    [staleIdentities], come out ordered by locality, and by node id within
    one locality; no entry of either list is [undefined]. *)
Theorem identity_lists_ordered `{RegExpEngine} (nodesSummary : NodesSummary) (query : Query)
    (locality : option RegExp) (l : list (option Identity)) :
  displayIdentities nodesSummary query locality = Ok l
  ∨ staleIdentities nodesSummary query locality = Ok l ->
  ∃ idents, l = Some <$> idents ∧ StronglySorted localityThenID idents.
Proof.
  intros [Hl|Hl].
  - unfold displayIdentities in Hl.
    apply bind_Ok_inv in Hl as (h & _ & Hl). apply bind_Ok_inv in Hl as (s & _ & Hl).
    destruct (byNodeIDThenLocality_sorted _ _ _ Hl) as (idents & ? & ? & _). eauto.
  - unfold staleIdentities in Hl. apply bind_Ok_inv in Hl as (s & _ & Hl).
    destruct (byNodeIDThenLocality_sorted _ _ _ Hl) as (idents & ? & ? & _). eauto.
Qed.

Lemma identity_lists_ordered_witness :
  ∃ idents,
    [Some (identityOf (mkStatus 1 "east" [(2, 5000000); (3, 7000000); (4, 9000000)]));
     Some (identityOf (mkStatus 3 "east" [(1, 7000000); (2, 8000000); (4, 9000000)]));
     Some (identityOf (mkStatus 2 "west" [(1, 5000000); (3, 8000000); (4, 9000000)]))]
    = Some <$> idents
    ∧ StronglySorted localityThenID idents.
Proof.
  apply (identity_lists_ordered (H := literal_engine) mixedCluster noQuery None).
  left. vm_compute. reflexivity.
Defined.

Lemma identities_content `{RegExpEngine} (nodesSummary : NodesSummary) (query : Query)
    (locality : option RegExp) (h : list Z) (st : gset Z)
    (display stale : list (option Identity)) :
  healthyIDs nodesSummary query locality = Ok h ->
  staleIDs nodesSummary query locality = Ok st ->
  displayIdentities nodesSummary query locality = Ok display ->
  staleIdentities nodesSummary query locality = Ok stale ->
  NoDup (idOf <$> display)
  ∧ (∀ id, Some id ∈ idOf <$> display ↔ id ∈ h ∨ id ∈ st)
  ∧ (∀ id, Some id ∈ idOf <$> stale ↔ id ∈ st)
  ∧ (∀ i, Some i ∈ display ∨ Some i ∈ stale ->
          ∃ status, status ∈ nodeStatuses nodesSummary ∧ i = identityOf status).
Proof.
  unfold healthyIDs, staleIDs, displayIdentities, staleIdentities.
  intros Hh Hst Hd Hs. apply bind_Ok_inv in Hst as (s & Hsc & [= <-]).
  rewrite Hh in Hd. simpl in Hd. rewrite Hsc in Hd, Hs. simpl in Hd, Hs.
  destruct (byNodeIDThenLocality_sorted _ _ _ Hd) as (di & -> & _ & Hdp).
  destruct (byNodeIDThenLocality_sorted _ _ _ Hs) as (si & -> & _ & Hsp).
  assert (Hproj : ∀ k : list Identity, idOf <$> (Some <$> k) = Some <$> (nodeID <$> k)).
  { intros k. by rewrite <- !list_fmap_compose. }
  rewrite !Hproj. split; [|split; [|split]].
  - apply (NoDup_fmap_2 Some). rewrite Hdp. apply NoDup_uniq.
  - intros id. rewrite (list_elem_of_fmap_inj Some), Hdp.
    unfold lodash.union. rewrite elem_of_uniq, elem_of_app, elem_of_list_to_set. done.
  - intros id. by rewrite (list_elem_of_fmap_inj Some), Hsp, elem_of_list_to_set.
  - intros i Hi.
    assert (Hlook : ∃ id, identityByID nodesSummary !! id = Some i).
    { destruct Hi as [Hi|Hi].
      - rewrite (byNodeIDThenLocality_perm _ _ _ Hd) in Hi.
        apply list_elem_of_fmap in Hi as (id & Hid & _). eauto.
      - rewrite (byNodeIDThenLocality_perm _ _ _ Hs) in Hi.
        apply list_elem_of_fmap in Hi as (id & Hid & _). eauto. }
    destruct Hlook as [id Hid].
    destruct (identityByID_Some _ _ _ Hid) as (status & ? & _ & ?). eauto.
Qed.

(** X4. [displayIdentities] holds the identity of every healthy id and of
    every stale id, and of no other node, each once; every identity in it is
    the one built from a status of [nodeStatuses].  [staleIdentities] holds
    those of the stale ids. *)
Theorem identity_lists_content `{RegExpEngine} (nodesSummary : NodesSummary) (query : Query)
    (locality : option RegExp) (h : list Z) (st : gset Z)
    (display stale : list (option Identity)) :
  healthyIDs nodesSummary query locality = Ok h ->
  staleIDs nodesSummary query locality = Ok st ->
  displayIdentities nodesSummary query locality = Ok display ->
  staleIdentities nodesSummary query locality = Ok stale ->
  NoDup (idOf <$> display)
  ∧ (∀ id, Some id ∈ idOf <$> display ↔ id ∈ h ∨ id ∈ st)
  ∧ (∀ id, Some id ∈ idOf <$> stale ↔ id ∈ st)
  ∧ (∀ i, Some i ∈ display ∨ Some i ∈ stale ->
          ∃ status, status ∈ nodeStatuses nodesSummary ∧ i = identityOf status).
Proof. apply identities_content. Qed.

Lemma identity_lists_content_witness :
  ∃ display stale,
    displayIdentities (H := literal_engine) mixedCluster noQuery None = Ok display
    ∧ staleIdentities (H := literal_engine) mixedCluster noQuery None = Ok stale
    ∧ NoDup (idOf <$> display)
    ∧ (∀ id, Some id ∈ idOf <$> display ↔ id ∈ [1; 2] ∨ id ∈ (list_to_set [3] : gset Z))
    ∧ (∀ id, Some id ∈ idOf <$> stale ↔ id ∈ (list_to_set [3] : gset Z))
    ∧ (∀ i, Some i ∈ display ∨ Some i ∈ stale ->
            ∃ status, status ∈ nodeStatuses mixedCluster ∧ i = identityOf status).
Proof.
  destruct (displayIdentities (H := literal_engine) mixedCluster noQuery None)
    as [display|] eqn:Hd; [|by vm_compute in Hd].
  destruct (staleIdentities (H := literal_engine) mixedCluster noQuery None)
    as [stale|] eqn:Hs; [|by vm_compute in Hs].
  exists display, stale. split; [done|]. split; [done|].
  apply (identity_lists_content (H := literal_engine) mixedCluster noQuery None
           [1; 2] (list_to_set [3]) display stale); [by vm_compute | by vm_compute | done | done].
Defined.

(** ** The sample list: its values, its size, when it is produced *)

Lemma mapM_Throw {A B} (f : A -> result B) (l : list A) (e : JsError) :
  mapM f l = Throw e -> ∃ x, x ∈ l ∧ f x = Throw e.
Proof.
  induction l as [|x l IH]; simpl; [discriminate|].
  destruct (f x) as [y|e'] eqn:Hx; simpl.
  - destruct (mapM f l) as [k|e'] eqn:Hl; simpl; [discriminate|].
    intros [= <-]. destruct IH as (x' & Hin & Hx'); [done|].
    exists x'. split; [by right | done].
  - intros [= <-]. exists x. split; [by left | done].
Qed.

Lemma mapM_Ok_or_Throw {A B} (f : A -> result B) (l : list A) :
  (∃ k, mapM f l = Ok k) ↔ ∀ x, x ∈ l -> ∃ y, f x = Ok y.
Proof.
  split; [|apply mapM_total].
  intros [k Hk] x Hx. apply mapM_Ok in Hk.
  destruct (Forall2_elem_of_l _ _ _ _ Hk Hx) as (y & _ & Hy). eauto.
Qed.

Lemma length_concat_le {A B} (l : list A) (ls : list (list B)) (n : nat) (P : A -> list B -> Prop) :
  Forall2 P l ls -> (∀ x k, P x k -> length k ≤ n)%nat ->
  (length (concat ls) ≤ length l * n)%nat.
Proof.
  induction 1 as [|x k l ls Hx Hl IH]; intros Hn; simpl; [lia|].
  rewrite length_app. pose proof (Hn x k Hx). specialize (IH Hn). lia.
Qed.

Lemma Forall2_with_elem_of {A B} (R : A -> B -> Prop) (l : list A) (k : list B) :
  Forall2 R l k -> Forall2 (λ x y, x ∈ l ∧ R x y) l k.
Proof.
  induction 1 as [|x y l k Hx Hl IH]; constructor.
  - split; [by left | done].
  - eapply Forall2_impl; [exact IH|]. intros a b [Ha Hab]. split; [by right | done].
Qed.

Lemma length_without (a : Z) (l : list Z) :
  a ∈ l -> (length (lodash.without a l) ≤ length l - 1)%nat.
Proof.
  intros Ha. unfold lodash.without.
  pose proof (length_filter_lt (λ x, x ≠ a) l a Ha) as Hlt.
  assert (¬ (a ≠ a)) as Hna by tauto. specialize (Hlt Hna). lia.
Qed.

Lemma elem_of_without (a x : Z) (l : list Z) :
  x ∈ lodash.without a l ↔ x ∈ l ∧ x ≠ a.
Proof. unfold lodash.without. rewrite list_elem_of_filter. tauto. Qed.

Section Sample2.
Variable nodesSummary : NodesSummary.

Lemma latencyMillis_Ok_iff (a b : Z) :
  (∃ ms, latencyMillis nodesSummary a b = Ok ms) ↔
  ∃ status l, nodeStatusByID nodesSummary !! a = Some status
              ∧ status_latencies status !! b = Some l.
Proof.
  unfold latencyMillis. split.
  - intros [ms Hms]. destruct (nodeStatusByID nodesSummary !! a) as [status|]; [|done].
    simpl in Hms. destruct (status_latencies status !! b) as [l|] eqn:Hl; [|done]. eauto.
  - intros (status & l & -> & Hl). simpl. rewrite Hl. by eexists.
Qed.

Lemma latencyMillis_Throw (a b : Z) (e : JsError) :
  latencyMillis nodesSummary a b = Throw e -> e = TypeError.
Proof.
  unfold latencyMillis. destruct (nodeStatusByID nodesSummary !! a) as [status|]; simpl.
  - destruct (status_latencies status !! b); simpl; [discriminate | by intros [= <-]].
  - by intros [= <-].
Qed.

Lemma latenciesFrom_Ok_iff (healthy : list Z) (a : Z) :
  (∃ l, latenciesFrom nodesSummary healthy a = Ok l) ↔
  ∀ b, b ∈ healthy -> b ≠ a -> ∃ ms, latencyMillis nodesSummary a b = Ok ms.
Proof.
  unfold latenciesFrom. split.
  - intros [l Hl] b Hb Hba. apply bind_Ok_inv in Hl as (k & Hk & _).
    apply (proj1 (mapM_Ok_or_Throw (latencyMillis nodesSummary a) (lodash.without a healthy)));
      [by eexists|]. by apply elem_of_without.
  - intros Hall. destruct (mapM_total (latencyMillis nodesSummary a)
                             (lodash.without a healthy)) as [k ->].
    + intros b [Hb Hba]%elem_of_without. by apply Hall.
    + by eexists.
Qed.

Lemma latencies_Ok_iff (healthy : list Z) :
  ((∃ sample, latencies nodesSummary healthy = Ok sample) ↔
   ∀ a b, a ∈ healthy -> b ∈ healthy -> a ≠ b ->
          ∃ status l, nodeStatusByID nodesSummary !! a = Some status
                      ∧ status_latencies status !! b = Some l)
  ∧ (∀ e, latencies nodesSummary healthy = Throw e -> e = TypeError).
Proof.
  unfold latencies. split; [split|].
  - intros [sample Hs] a b Ha Hb Hab.
    apply bind_Ok_inv in Hs as (ls & Hls & _).
    apply latencyMillis_Ok_iff.
    assert (Hfrom : ∃ l, latenciesFrom nodesSummary healthy a = Ok l)
      by (apply (proj1 (mapM_Ok_or_Throw (latenciesFrom nodesSummary healthy) healthy));
          [by eexists | done]).
    apply (proj1 (latenciesFrom_Ok_iff healthy a) Hfrom); [done | congruence].
  - intros Hall.
    destruct (mapM_total (latenciesFrom nodesSummary healthy) healthy) as [ls ->].
    + intros a Ha. apply latenciesFrom_Ok_iff. intros b Hb Hba.
      apply latencyMillis_Ok_iff. apply Hall; [done | done | congruence].
    + by eexists.
  - intros e He.
    destruct (mapM (latenciesFrom nodesSummary healthy) healthy) as [ls|e'] eqn:Hls;
      [discriminate|]. injection He as <-.
    apply mapM_Throw in Hls as (a & _ & Ha). unfold latenciesFrom in Ha.
    destruct (mapM (latencyMillis nodesSummary a) (lodash.without a healthy))
      as [k|e''] eqn:Hk; [discriminate|]. injection Ha as <-.
    apply mapM_Throw in Hk as (b & _ & Hb). by eapply latencyMillis_Throw.
Qed.

(** X5. The sample list is produced exactly when every healthy node has a
    status whose latency map has an entry for every other healthy node;
    otherwise the computation throws, and what it throws is a [TypeError]. *)
Theorem latencies_produced_iff (healthy : list Z) :
  ((∃ sample, latencies nodesSummary healthy = Ok sample) ↔
   ∀ a b, a ∈ healthy -> b ∈ healthy -> a ≠ b ->
          ∃ status l, nodeStatusByID nodesSummary !! a = Some status
                      ∧ status_latencies status !! b = Some l)
  ∧ (∀ e, latencies nodesSummary healthy = Throw e -> e = TypeError).
Proof. apply latencies_Ok_iff. Qed.

Lemma sample_values (healthy : list Z) (sample : list number) :
  latencies nodesSummary healthy = Ok sample ->
  Forall (λ ms, isFinite ms = true ∧ num_gt ms (num_of_Z 0) = true) sample
  ∧ (length sample ≤ length healthy * (length healthy - 1))%nat
  ∧ (∀ ms, ms ∈ sample ↔
           ∃ a b status l, a ∈ healthy ∧ b ∈ healthy ∧ a ≠ b
                           ∧ nodeStatusByID nodesSummary !! a = Some status
                           ∧ status_latencies status !! b = Some l
                           ∧ ms = NanoToMilli (toNumber l)
                           ∧ isFinite ms = true ∧ num_gt ms (num_of_Z 0) = true).
Proof.
  intros Hs.
  assert (Hkept : ∀ ms, ms ∈ sample -> isFinite ms = true ∧ num_gt ms (num_of_Z 0) = true).
  { intros ms Hms. apply (latencies_kept _ _ _ _ Hs) in Hms. unfold keptSample in Hms.
    by apply andb_true_iff in Hms. }
  split; [by apply Forall_forall|].
  unfold latencies in Hs. apply bind_Ok_inv in Hs as (ls & Hls & [= <-]).
  apply mapM_Ok in Hls. split.
  - apply (length_concat_le _ _ _
             (λ a k, a ∈ healthy ∧ latenciesFrom nodesSummary healthy a = Ok k)).
    + by apply Forall2_with_elem_of.
    + intros a k [Ha Hk]. unfold latenciesFrom in Hk.
      apply bind_Ok_inv in Hk as (k' & Hk' & [= <-]).
      apply mapM_Ok, Forall2_length in Hk'.
      pose proof (length_without a healthy Ha).
      pose proof (List.filter_length_le keptSample k'). lia.
  - intros ms. split.
    + intros Hms. destruct (Hkept ms Hms) as [Hfin Hpos].
      apply elem_of_concat in Hms as (k & Hk & Hms).
      destruct (Forall2_elem_of_r _ _ _ _ Hls Hk) as (a & Ha & Hfrom).
      unfold latenciesFrom in Hfrom. apply bind_Ok_inv in Hfrom as (k' & Hk' & [= <-]).
      apply list_elem_of_In, filter_In in Hms as [Hms%list_elem_of_In _].
      apply mapM_Ok in Hk'.
      destruct (Forall2_elem_of_r _ _ _ _ Hk' Hms) as (b & [Hb Hba]%elem_of_without & Hab).
      unfold latencyMillis in Hab.
      destruct (nodeStatusByID nodesSummary !! a) as [status|] eqn:Hst; [|done].
      simpl in Hab. destruct (status_latencies status !! b) as [l|] eqn:Hl; [|done].
      injection Hab as <-. exists a, b, status, l. repeat split; done.
    + intros (a & b & status & l & Ha & Hb & Hab & Hst & Hl & -> & Hfin & Hpos).
      destruct (Forall2_elem_of_l _ _ _ _ Hls Ha) as (k & Hk & Hfrom).
      apply elem_of_concat. exists k. split; [done|].
      unfold latenciesFrom in Hfrom. apply bind_Ok_inv in Hfrom as (k' & Hk' & [= <-]).
      apply mapM_Ok in Hk'.
      assert (Hbw : b ∈ lodash.without a healthy) by (apply elem_of_without; split; congruence).
      destruct (Forall2_elem_of_l _ _ _ _ Hk' Hbw) as (y & Hy & Hab').
      rewrite (latencyMillis_entry _ _ _ _ _ Hst Hl) in Hab'. injection Hab' as <-.
      apply list_elem_of_In, filter_In. split; [by apply list_elem_of_In|].
      unfold keptSample. by rewrite Hfin, Hpos.
Qed.

(** X6. Every value of the sample list is finite and above zero, and over
    [n] healthy ids the list has at most [n * (n - 1)] values.  The values
    in it are exactly the latencies, in milliseconds, that a healthy node
    reports to another healthy node and that are finite and above zero. *)
Theorem latencies_values (healthy : list Z) (sample : list number) :
  latencies nodesSummary healthy = Ok sample ->
  Forall (λ ms, isFinite ms = true ∧ num_gt ms (num_of_Z 0) = true) sample
  ∧ (length sample ≤ length healthy * (length healthy - 1))%nat
  ∧ (∀ ms, ms ∈ sample ↔
           ∃ a b status l, a ∈ healthy ∧ b ∈ healthy ∧ a ≠ b
                           ∧ nodeStatusByID nodesSummary !! a = Some status
                           ∧ status_latencies status !! b = Some l
                           ∧ ms = NanoToMilli (toNumber l)
                           ∧ isFinite ms = true ∧ num_gt ms (num_of_Z 0) = true).
Proof. apply sample_values. Qed.

End Sample2.

Lemma latencies_values_witness :
  Forall (λ ms, isFinite ms = true ∧ num_gt ms (num_of_Z 0) = true)
         (millis [5; 50; 5; 6; 50; 6])
  ∧ (length (millis [5; 50; 5; 6; 50; 6]%Z)
     ≤ length [1; 2; 3]%Z * (length [1; 2; 3]%Z - 1))%nat
  ∧ (∀ ms, ms ∈ millis [5; 50; 5; 6; 50; 6] ↔
           ∃ a b status l, a ∈ [1; 2; 3] ∧ b ∈ [1; 2; 3] ∧ a ≠ b
                           ∧ nodeStatusByID threeNodes !! a = Some status
                           ∧ status_latencies status !! b = Some l
                           ∧ ms = NanoToMilli (toNumber l)
                           ∧ isFinite ms = true ∧ num_gt ms (num_of_Z 0) = true).
Proof. apply (latencies_values threeNodes [1; 2; 3]). vm_compute. reflexivity. Defined.

(** ** Statistics on short samples, and the legend *)

Lemma num_add_NaN_r (x : number) : num_add x NaN = NaN.
Proof. by destruct x. Qed.

Lemma num_sub_NaN_r (x : number) : num_sub x NaN = NaN.
Proof. by destruct x. Qed.

Lemma d3Variance_short (sample : list number) :
  (length sample ≤ 1)%nat -> d3Variance sample = None.
Proof.
  destruct sample as [|x [|y sample]]; simpl; intros Hlen; [done| |lia].
  unfold d3Variance. simpl. by destruct (isNaN x).
Qed.

(** X7. With fewer than two samples [stddev] is [undefined], the four
    thresholds are NaN whatever [mean] is, and every latency is given the
    heat [even]. *)
Theorem short_sample_all_even (sample : list number) :
  (length sample ≤ 1)%nat ->
  stddev sample = None
  ∧ stddevPlus1 sample = NaN ∧ stddevPlus2 sample = NaN
  ∧ stddevMinus1 sample = NaN ∧ stddevMinus2 sample = NaN
  ∧ ∀ latency, heatOf sample latency = StddevEven.
Proof.
  intros Hlen.
  assert (Hd : stddev sample = None).
  { unfold stddev, d3Deviation. by rewrite d3Variance_short. }
  assert (H1 : stddevPlus1 sample = NaN).
  { unfold stddevPlus1. rewrite Hd. apply num_add_NaN_r. }
  assert (H2 : stddevPlus2 sample = NaN).
  { unfold stddevPlus2. rewrite Hd. apply num_add_NaN_r. }
  assert (H3 : stddevMinus1 sample = NaN).
  { unfold stddevMinus1. rewrite Hd. apply num_sub_NaN_r. }
  assert (H4 : stddevMinus2 sample = NaN).
  { unfold stddevMinus2. rewrite Hd. apply num_sub_NaN_r. }
  repeat (split; [done|]). intros latency. by apply heatOf_NaN.
Qed.

Lemma short_sample_all_even_witness :
  stddev [NanoToMilli (toNumber 5000000)] = None
  ∧ stddevPlus1 [NanoToMilli (toNumber 5000000)] = NaN
  ∧ stddevPlus2 [NanoToMilli (toNumber 5000000)] = NaN
  ∧ stddevMinus1 [NanoToMilli (toNumber 5000000)] = NaN
  ∧ stddevMinus2 [NanoToMilli (toNumber 5000000)] = NaN
  ∧ ∀ latency, heatOf [NanoToMilli (toNumber 5000000)] latency = StddevEven.
Proof. apply short_sample_all_even. simpl. lia. Defined.

Lemma d3Mean_count (values : list number) (s : number) (j : Z) :
  Forall (λ x, isNaN x = false) values ->
  ∃ s', foldl (λ '(s, j) a, if isNaN a then (s, j - 1) else (num_add s a, j)) (s, j) values
        = (s', j).
Proof.
  intros Hv. revert s. induction Hv as [|x l Hx Hl IH]; intros s; simpl; [by eexists|].
  rewrite Hx. apply IH.
Qed.

Lemma d3Mean_None_iff (values : list number) :
  Forall (λ x, isNaN x = false) values ->
  d3Mean values = None ↔ values = [].
Proof.
  intros Hv. unfold d3Mean.
  destruct (d3Mean_count values (num_of_Z 0) (Z.of_nat (length values)) Hv) as [s' ->].
  destruct values as [|x l]; [done|]. simpl length.
  destruct (Z.eqb_spec (Z.of_nat (S (length l))) 0); [lia | done].
Qed.

(** X8. Over a sample of numbers the legend is built exactly when the sample
    is not empty: on the empty sample reading [mean.toFixed] throws a
    [TypeError].  A legend that is built has five entries, [mean] in the
    middle. *)
Theorem legend_built_iff (sample : list number) :
  Forall (λ x, isNaN x = false) sample ->
  (legend sample = Throw TypeError ↔ sample = [])
  ∧ (sample ≠ [] ->
     ∃ m, mean sample = Some m
          ∧ legend sample
            = Ok [stddevMinus2 sample; stddevMinus1 sample; m;
                  stddevPlus1 sample; stddevPlus2 sample]).
Proof.
  intros Hv. pose proof (d3Mean_None_iff sample Hv) as Hmean.
  unfold legend, mean. destruct (d3Mean sample) as [m|]; simpl.
  - split.
    + split; [discriminate|]. intros Hs. by apply Hmean in Hs.
    + intros _. by exists m.
  - split; [split; [intros _; by apply Hmean | done]|].
    intros Hne. destruct Hne. by apply Hmean.
Qed.

Lemma legend_built_iff_witness :
  (legend (millis [5; 50]) = Throw TypeError
   ↔ millis [5; 50] = [])
  ∧ (millis [5; 50] ≠ [] ->
     ∃ m, mean (millis [5; 50]) = Some m
          ∧ legend (millis [5; 50])
            = Ok [stddevMinus2 (millis [5; 50]);
                  stddevMinus1 (millis [5; 50]); m;
                  stddevPlus1 (millis [5; 50]);
                  stddevPlus2 (millis [5; 50])]).
Proof.
  apply legend_built_iff. repeat constructor.
Defined.

(** ** [render] as a whole *)

Lemma NoDup_two {A} (l : list A) (x y : A) :
  NoDup l -> x ∈ l -> y ∈ l -> x ≠ y -> (2 ≤ length l)%nat.
Proof.
  destruct l as [|u [|v l]]; simpl; intros _ Hx Hy Hxy; [| |lia].
  - by apply elem_of_nil in Hx.
  - apply list_elem_of_singleton in Hx, Hy. congruence.
Qed.

Section RenderFacts.
Context `{RegExpEngine}.
Variable nodesSummary : NodesSummary.
Variable query : Query.

(** What went well when [render] returns a page. *)
Lemma render_page_inv (r : Report) :
  render nodesSummary query = Ok (page r) ->
  nodeIDs nodesSummary ≠ [] ∧ livenessStatusByNodeID nodesSummary ≠ ∅
  ∧ ∃ locality healthy stale sample,
      localityRegex query = Ok locality
      ∧ healthyIDs nodesSummary query locality = Ok healthy
      ∧ staleIDs nodesSummary query locality = Ok stale
      ∧ displayIdentities nodesSummary query locality = Ok (report_displayIdentities r)
      ∧ staleIdentities nodesSummary query locality = Ok (report_staleIdentities r)
      ∧ latencies nodesSummary healthy = Ok sample
      ∧ noConnections nodesSummary healthy = Ok (report_noConnections r)
      ∧ latencyTable nodesSummary stale sample (report_displayIdentities r)
        = Ok (report_latencyTable r)
      ∧ legend sample = Ok (report_legend r).
Proof.
  unfold render. intros Hr.
  destruct (bool_decide (nodeIDs nodesSummary = [])) eqn:Hids; [discriminate|].
  destruct (bool_decide (livenessStatusByNodeID nodesSummary = ∅)) eqn:Hlive; [discriminate|].
  apply bool_decide_eq_false in Hids, Hlive. simpl in Hr.
  apply bind_Ok_inv in Hr as (locality & Hloc & Hr).
  apply bind_Ok_inv in Hr as (healthy & Hh & Hr).
  apply bind_Ok_inv in Hr as (stale & Hst & Hr).
  apply bind_Ok_inv in Hr as (display & Hd & Hr).
  apply bind_Ok_inv in Hr as (staleIdents & Hsi & Hr).
  apply bind_Ok_inv in Hr as (sample & Hsample & Hr).
  apply bind_Ok_inv in Hr as (noConns & Hnc & Hr).
  apply bind_Ok_inv in Hr as (table & Htable & Hr).
  apply bind_Ok_inv in Hr as (leg & Hleg & [= <-]). simpl.
  split; [done|]. split; [done|]. exists locality, healthy, stale, sample. by repeat split.
Qed.

Lemma render_loading_iff :
  render nodesSummary query = Ok loading ↔
  nodeIDs nodesSummary = [] ∨ livenessStatusByNodeID nodesSummary = ∅.
Proof.
  unfold render.
  destruct (bool_decide (nodeIDs nodesSummary = [])) eqn:Hids;
    [apply bool_decide_eq_true in Hids; by split; auto|].
  destruct (bool_decide (livenessStatusByNodeID nodesSummary = ∅)) eqn:Hlive;
    [apply bool_decide_eq_true in Hlive; by split; auto|].
  apply bool_decide_eq_false in Hids, Hlive. simpl. split; [|tauto].
  intros Hr. exfalso.
  repeat (apply bind_Ok_inv in Hr as (? & _ & Hr)). discriminate.
Qed.

End RenderFacts.

(** X9. When [render] returns a page, at least two identities are displayed,
    two healthy nodes among them, so [displayResults] shows the table and the
    legend: the notice [noNodes] is never what a returned page shows. *)
Theorem page_shows_table `{RegExpEngine} (nodesSummary : NodesSummary) (query : Query)
    (r : Report) :
  render nodesSummary query = Ok (page r) ->
  (2 ≤ length (report_displayIdentities r))%nat
  ∧ displayResults r = tableAndLegend (report_latencyTable r) (report_legend r)
  ∧ ∃ a b, a ≠ b
           ∧ livenessStatusByNodeID nodesSummary !! a = Some HEALTHY
           ∧ livenessStatusByNodeID nodesSummary !! b = Some HEALTHY
           ∧ Some a ∈ idOf <$> report_displayIdentities r
           ∧ Some b ∈ idOf <$> report_displayIdentities r.
Proof.
  intros Hr.
  destruct (render_page_inv _ _ _ Hr)
    as (_ & _ & locality & healthy & stale & sample
        & _ & Hh & Hst & Hd & Hsi & Hsample & _ & _ & Hleg).
  assert (Hne : sample ≠ []).
  { intros ->. vm_compute in Hleg. discriminate. }
  destruct sample as [|ms sample]; [done|].
  destruct (sample_values _ _ _ Hsample) as (_ & _ & Hin).
  destruct (proj1 (Hin ms)) as (a & b & _ & _ & Ha & Hb & Hab & _); [by left|].
  destruct (identities_content _ _ _ _ _ _ _ Hh Hst Hd Hsi) as (Hnd & Hdisp & _).
  destruct (ids_characterised _ _ _ _ _ Hh Hst) as (_ & Hhealthy & _).
  assert (Hda : Some a ∈ idOf <$> report_displayIdentities r) by (apply Hdisp; auto).
  assert (Hdb : Some b ∈ idOf <$> report_displayIdentities r) by (apply Hdisp; auto).
  assert (Hlen : (2 ≤ length (report_displayIdentities r))%nat).
  { rewrite <- (length_fmap idOf). apply (NoDup_two _ (Some a) (Some b)); [done..|congruence]. }
  split; [done|]. split.
  - unfold displayResults. rewrite bool_decide_eq_false_2; [done|].
    intros Hnil. rewrite Hnil in Hlen. simpl in Hlen. lia.
  - exists a, b. repeat split; try done; by apply Hhealthy.
Qed.

Lemma page_shows_table_witness :
  ∃ r, render (H := literal_engine) threeNodes noQuery = Ok (page r)
       ∧ (2 ≤ length (report_displayIdentities r))%nat
       ∧ displayResults r = tableAndLegend (report_latencyTable r) (report_legend r)
       ∧ ∃ a b, a ≠ b
                ∧ livenessStatusByNodeID threeNodes !! a = Some HEALTHY
                ∧ livenessStatusByNodeID threeNodes !! b = Some HEALTHY
                ∧ Some a ∈ idOf <$> report_displayIdentities r
                ∧ Some b ∈ idOf <$> report_displayIdentities r.
Proof.
  destruct (render (H := literal_engine) threeNodes noQuery) as [[|r]|] eqn:Hr;
    [by vm_compute in Hr | | by vm_compute in Hr].
  exists r. split; [done|]. by apply (page_shows_table (H := literal_engine) threeNodes noQuery).
Defined.

(** ** When [render] returns *)

Section Totality.
Context `{RegExpEngine}.
Variable nodesSummary : NodesSummary.

Lemma localityRegex_total (query : Query) : ∃ locality, localityRegex query = Ok locality.
Proof.
  unfold localityRegex, new_RegExp.
  destruct (negb _); [|by eexists].
  destruct (RegExp_compile _); simpl; by eexists.
Qed.

Lemma notMatching_total (locality : option RegExp) (ids : list Z) :
  (∀ id, id ∈ ids -> is_Some (nodeStatusByID nodesSummary !! id)) ->
  ∃ k, notMatching nodesSummary locality ids = Ok k.
Proof.
  intros Hs. destruct locality as [re|]; simpl; [|by eexists].
  apply filterM_total. intros id Hid. destruct (Hs id Hid) as [status Hst].
  unfold localityOf. rewrite Hst. simpl. by eexists.
Qed.

Lemma idsContext_total (query : Query) (locality : option RegExp) (live : LivenessStatus) :
  (∀ id, id ∈ nodeIDs nodesSummary -> is_Some (nodeStatusByID nodesSummary !! id)) ->
  ∃ k, notMatching nodesSummary locality
         (onlyRequested query (withLiveness nodesSummary live)) = Ok k.
Proof.
  intros Hs. apply notMatching_total. intros id Hid. apply Hs.
  by apply elem_of_onlyRequested, elem_of_withLiveness in Hid as [? _].
Qed.

Lemma byNodeIDThenLocality_total (ids : list Z) :
  (∀ id, id ∈ ids -> is_Some (identityByID nodesSummary !! id)) ->
  ∃ l, byNodeIDThenLocality nodesSummary ids = Ok l.
Proof.
  intros Hi. unfold byNodeIDThenLocality.
  set (l0 := map _ ids).
  assert (H0 : ∀ x, x ∈ l0 -> is_Some x).
  { intros x Hx. apply list_elem_of_fmap in Hx as (id & -> & Hid). by apply Hi. }
  destruct (sortBy_total Z.ltb (λ identity, prop identity nodeID) l0) as [l1 H1].
  { intros x Hx. destruct (H0 x Hx) as [i ->]. by eexists. }
  rewrite H1. simpl. apply sortBy_total.
  intros x Hx. rewrite (sortBy_perm _ _ _ _ H1) in Hx. destruct (H0 x Hx) as [i ->]. by eexists.
Qed.

Lemma byNodeIDThenLocality_Ok_iff (ids : list Z) :
  (∃ l, byNodeIDThenLocality nodesSummary ids = Ok l) ↔
  ∀ id, id ∈ ids -> is_Some (identityByID nodesSummary !! id).
Proof.
  split; [|apply byNodeIDThenLocality_total].
  intros [l Hl] id Hid. unfold byNodeIDThenLocality in Hl.
  apply bind_Ok_inv in Hl as (l1 & H1 & _).
  destruct (sortBy_Ok_inv _ _ _ _ (identityByID nodesSummary !! id) H1) as [k Hk].
  - by apply (list_elem_of_fmap_2 (λ nodeID, identityByID nodesSummary !! nodeID)).
  - destruct (identityByID nodesSummary !! id); [by eexists | discriminate].
Qed.

Lemma noConnections_total (healthy : list Z) :
  (∀ a, a ∈ healthy -> is_Some (nodeStatusByID nodesSummary !! a)
                       ∧ is_Some (identityByID nodesSummary !! a)) ->
  (∀ a status b, a ∈ healthy -> nodeStatusByID nodesSummary !! a = Some status ->
                 is_Some (status_latencies status !! b) -> b ∉ healthy ->
                 is_Some (identityByID nodesSummary !! b)) ->
  ∃ l, noConnections nodesSummary healthy = Ok l.
Proof.
  intros Hknown Hpeers. unfold noConnections.
  destruct (mapM_total (noConnectionsFrom nodesSummary healthy) healthy) as [ls ->];
    [|by eexists].
  intros a Ha. destruct (Hknown a Ha) as [[status Hst] Hia].
  destruct (noConnectionsFrom_Ok nodesSummary healthy a status Hst Hia) as (l & Hl & _);
    [|by eexists].
  intros b [Hb Hbh]%elem_of_difference_list. apply elem_of_keys in Hb. eauto.
Qed.

Lemma getLatencyCell_total (stale : gset Z) (sample : list number) (a b : Z) :
  is_Some (nodeStatusByID nodesSummary !! a) ->
  ∃ cell, getLatencyCell nodesSummary stale sample a b = Ok cell.
Proof.
  intros [status Hst]. unfold getLatencyCell.
  case_decide; [by eexists|]. case_decide; [by eexists|].
  rewrite Hst. simpl. destruct (status_latencies status !! b); by eexists.
Qed.

Lemma latencyTable_total (stale : gset Z) (sample : list number) (idents : list Identity) :
  (∀ i, i ∈ idents -> is_Some (nodeStatusByID nodesSummary !! nodeID i)) ->
  ∃ table, latencyTable nodesSummary stale sample (Some <$> idents) = Ok table.
Proof.
  intros Hs. unfold latencyTable. apply mapM_total.
  intros ? (i & -> & Hi)%list_elem_of_fmap. apply mapM_total.
  intros ? (j & -> & Hj)%list_elem_of_fmap. simpl.
  apply getLatencyCell_total. by apply Hs.
Qed.

End Totality.

Lemma isFinite_not_NaN (x : number) : isFinite x = true -> isNaN x = false.
Proof. by destruct x. Qed.

Lemma legend_Ok_iff (sample : list number) :
  Forall (λ x, isNaN x = false) sample ->
  match sample with
  | [] => legend sample = Throw TypeError
  | _ => ∃ leg, legend sample = Ok leg
  end.
Proof.
  intros Hv. pose proof (d3Mean_None_iff sample Hv) as Hmean.
  unfold legend, mean. destruct (d3Mean sample) as [m|]; simpl.
  - destruct sample; [|by eexists]. destruct Hmean as [_ Hm]. by specialize (Hm eq_refl).
  - destruct Hmean as [Hm _]. by rewrite (Hm eq_refl).
Qed.

(** X10. On a consistent snapshot [render] fails in one way only: it answers
    the loading notice, or a page, or it throws the [TypeError] of the legend
    because no latency between two displayed healthy nodes is positive. *)
Theorem render_on_consistent `{RegExpEngine} (nodesSummary : NodesSummary) (query : Query) :
  consistent nodesSummary ->
  render nodesSummary query = Ok loading
  ∨ (∃ r, render nodesSummary query = Ok (page r))
  ∨ (render nodesSummary query = Throw TypeError
     ∧ ∃ locality healthy,
         localityRegex query = Ok locality
         ∧ healthyIDs nodesSummary query locality = Ok healthy
         ∧ latencies nodesSummary healthy = Ok []).
Proof.
  intros [Hknown Hpeers Hmesh]. unfold render.
  destruct (_ || _); [by left | right].
  destruct (localityRegex_total query) as [locality Hloc]. rewrite Hloc. simpl.
  destruct (idsContext_total nodesSummary query locality HEALTHY) as [h Hh];
    [intros; by apply Hknown|].
  destruct (idsContext_total nodesSummary query locality SUSPECT) as [s Hs];
    [intros; by apply Hknown|].
  assert (Hhin : ∀ id, id ∈ h -> id ∈ nodeIDs nodesSummary
                                 ∧ livenessStatusByNodeID nodesSummary !! id = Some HEALTHY).
  { intros id Hid. eapply idsContext_liveness; eauto. }
  assert (Hsin : ∀ id, id ∈ s -> id ∈ nodeIDs nodesSummary).
  { intros id Hid. eapply idsContext_liveness; eauto. }
  assert (HhOk : healthyIDs nodesSummary query locality = Ok h) by exact Hh.
  assert (HsOk : staleIDs nodesSummary query locality = Ok (list_to_set s)).
  { unfold staleIDs, staleIDsContext. by rewrite Hs. }
  rewrite HhOk, HsOk. simpl.
  destruct (byNodeIDThenLocality_total nodesSummary (lodash.union h s)) as [display Hd].
  { intros id Hid. apply elem_of_uniq, elem_of_app in Hid as [Hid|Hid]; apply Hknown;
      [by apply Hhin | by apply Hsin]. }
  destruct (byNodeIDThenLocality_total nodesSummary s) as [staleIdents Hsi].
  { intros id Hid. by apply Hknown, Hsin. }
  assert (HdOk : displayIdentities nodesSummary query locality = Ok display).
  { unfold displayIdentities, healthyIDsContext, staleIDsContext. by rewrite Hh, Hs. }
  assert (HsiOk : staleIdentities nodesSummary query locality = Ok staleIdents).
  { unfold staleIdentities, staleIDsContext. by rewrite Hs. }
  rewrite HdOk, HsiOk. simpl.
  destruct (proj2 (proj1 (latencies_Ok_iff nodesSummary h))) as [sample Hsample].
  { intros a b Ha Hb Hab. destruct (Hhin a Ha) as [Hna Hla], (Hhin b Hb) as [Hnb Hlb].
    destruct (Hknown a Hna) as [[status Hst] _].
    destruct (Hmesh a b status) as [l Hl]; eauto. }
  rewrite Hsample. simpl.
  destruct (noConnections_total nodesSummary h) as [noConns Hnc].
  { intros a Ha. by apply Hknown, Hhin. }
  { intros a status b _ Hst Hb _. by eapply Hpeers. }
  rewrite Hnc. simpl.
  destruct (byNodeIDThenLocality_sorted _ _ _ Hd) as (idents & -> & _ & Hperm).
  destruct (latencyTable_total nodesSummary (list_to_set s) sample idents) as [table Ht].
  { intros i Hi. apply Hknown.
    assert (Hin : nodeID i ∈ lodash.union h s).
    { rewrite <- Hperm. by apply list_elem_of_fmap_2. }
    apply elem_of_uniq, elem_of_app in Hin as [Hin|Hin]; [by apply Hhin | by apply Hsin]. }
  rewrite Ht. simpl.
  assert (Hv : Forall (λ x, isNaN x = false) sample).
  { destruct (sample_values _ _ _ Hsample) as (Hfin & _).
    eapply Forall_impl; [exact Hfin|]. intros x [Hx _]. by apply isFinite_not_NaN. }
  pose proof (legend_Ok_iff sample Hv) as Hleg.
  destruct sample as [|ms sample].
  - right. rewrite Hleg. simpl. split; [done|]. by exists locality, h.
  - left. destruct Hleg as [leg ->]. simpl. by eexists.
Qed.

Lemma consistent_intro (nodesSummary : NodesSummary) :
  Forall (λ id, is_Some (nodeStatusByID nodesSummary !! id)
                ∧ is_Some (identityByID nodesSummary !! id)) (nodeIDs nodesSummary) ->
  map_Forall (λ _ status,
                map_Forall (λ b _, is_Some (identityByID nodesSummary !! b))
                           (status_latencies status)) (nodeStatusByID nodesSummary) ->
  Forall (λ a, Forall (λ b,
      a ≠ b ->
      livenessStatusByNodeID nodesSummary !! a = Some HEALTHY ->
      livenessStatusByNodeID nodesSummary !! b = Some HEALTHY ->
      is_Some (nodeStatusByID nodesSummary !! a ≫= λ status, status_latencies status !! b))
    (nodeIDs nodesSummary)) (nodeIDs nodesSummary) ->
  consistent nodesSummary.
Proof.
  intros Hl Hp Hm. split.
  - intros id Hid. rewrite Forall_forall in Hl. by apply Hl.
  - intros a status b Hst [l Hb]. exact (Hp a status Hst b l Hb).
  - intros a b status Ha Hb Hab Hla Hlb Hst. rewrite Forall_forall in Hm.
    specialize (Hm a Ha). rewrite Forall_forall in Hm.
    specialize (Hm b Hb Hab Hla Hlb). by rewrite Hst in Hm.
Qed.

Lemma render_on_consistent_witness :
  render (H := literal_engine) zeroLatency noQuery = Ok loading
  ∨ (∃ r, render (H := literal_engine) zeroLatency noQuery = Ok (page r))
  ∨ (render (H := literal_engine) zeroLatency noQuery = Throw TypeError
     ∧ ∃ locality healthy,
         localityRegex (H := literal_engine) noQuery = Ok locality
         ∧ healthyIDs (H := literal_engine) zeroLatency noQuery locality = Ok healthy
         ∧ latencies zeroLatency healthy = Ok []).
Proof.
  apply render_on_consistent, consistent_intro;
    (apply (bool_decide_unpack _); vm_compute; reflexivity).
Defined.

(** ** The locality pattern *)

Section Pattern.
Context `{RegExpEngine}.
Variable nodesSummary : NodesSummary.

Lemma render_query_ext (query query' : Query) :
  node_ids query = node_ids query' ->
  localityRegex query = localityRegex query' ->
  render nodesSummary query = render nodesSummary query'.
Proof.
  destruct query as [ids l], query' as [ids' l']. simpl. intros <- Hloc.
  unfold render. rewrite Hloc. reflexivity.
Qed.

End Pattern.

(** X11. A locality text the engine refuses filters nothing: the page is the
    one of the same query without a locality. *)
Theorem refused_pattern_filters_nothing `{RegExpEngine} (nodesSummary : NodesSummary)
    (query : Query) (pattern : string) :
  query_locality query = Some pattern ->
  RegExp_compile pattern = None ->
  render nodesSummary query
  = render nodesSummary {| node_ids := node_ids query; query_locality := None |}.
Proof.
  intros Hq Hc. apply render_query_ext; [done|].
  unfold localityRegex, new_RegExp. rewrite Hq. simpl.
  destruct (negb _); [|done]. by rewrite Hc.
Qed.

Lemma refused_pattern_filters_nothing_witness :
  render (H := literal_engine) mixedCluster
         {| node_ids := Some "1,2,3"; query_locality := Some "(east" |}
  = render (H := literal_engine) mixedCluster
           {| node_ids := Some "1,2,3"; query_locality := None |}.
Proof.
  apply (refused_pattern_filters_nothing (H := literal_engine) mixedCluster
           {| node_ids := Some "1,2,3"; query_locality := Some "(east" |} "(east");
    reflexivity.
Defined.

(** ** What [render] throws *)

Lemma bind_Throw_inv {A B} (f : A -> result B) (m : result A) (e : JsError) :
  (m ≫= f) = Throw e -> m = Throw e ∨ ∃ a, m = Ok a ∧ f a = Throw e.
Proof. destruct m as [a|e']; simpl; [eauto | intros [= ->]; by left]. Qed.

Lemma prop_Throw {A B} (v : option A) (field : A -> B) (e : JsError) :
  prop v field = Throw e -> v = None ∧ e = TypeError.
Proof. destruct v; simpl; [discriminate | by intros [= <-]]. Qed.

Lemma filterM_Throw {A} (p : A -> result bool) (l : list A) (e : JsError) :
  filterM p l = Throw e -> ∃ x, x ∈ l ∧ p x = Throw e.
Proof.
  induction l as [|x l IH]; simpl; [discriminate|].
  destruct (p x) as [b|e'] eqn:Hx; simpl.
  - destruct (filterM p l) as [k|e'] eqn:Hl; simpl; [discriminate|].
    intros [= <-]. destruct IH as (x' & Hin & Hx'); [done|].
    exists x'. split; [by right | done].
  - intros [= <-]. exists x. split; [by left | done].
Qed.

Lemma sortBy_Throw {K A} (lt : K -> K -> bool) (iteratee : A -> result K) (l : list A)
    (e : JsError) :
  lodash.sortBy lt iteratee l = Throw e -> ∃ x, x ∈ l ∧ iteratee x = Throw e.
Proof.
  unfold lodash.sortBy. intros [Hm|(c & _ & [=])]%bind_Throw_inv. by apply mapM_Throw.
Qed.

Section Throws.
Context `{RegExpEngine}.
Variable nodesSummary : NodesSummary.

Lemma notMatching_Throw (locality : option RegExp) (ids : list Z) (e : JsError) :
  notMatching nodesSummary locality ids = Throw e ->
  e = TypeError ∧ ∃ id, id ∈ ids ∧ nodeStatusByID nodesSummary !! id = None.
Proof.
  destruct locality as [re|]; simpl; [|discriminate].
  intros (id & Hid & Hp)%filterM_Throw.
  apply bind_Throw_inv in Hp as [Hp|(l & _ & [=])].
  unfold localityOf in Hp. apply bind_Throw_inv in Hp as [Hp|(d & _ & [=])].
  apply prop_Throw in Hp as [Hnone ->]. eauto.
Qed.

Lemma byNodeIDThenLocality_Throw (ids : list Z) (e : JsError) :
  byNodeIDThenLocality nodesSummary ids = Throw e -> e = TypeError.
Proof.
  unfold byNodeIDThenLocality.
  intros [(x & _ & Hp)%sortBy_Throw|(l & _ & (x & _ & Hp)%sortBy_Throw)]%bind_Throw_inv;
    by apply prop_Throw in Hp as [_ ->].
Qed.

Lemma noConnections_Throw (healthy : list Z) (e : JsError) :
  noConnections nodesSummary healthy = Throw e -> e = TypeError.
Proof.
  unfold noConnections. intros [Hm|(l & _ & [=])]%bind_Throw_inv.
  apply mapM_Throw in Hm as (a & _ & Ha). unfold noConnectionsFrom in Ha.
  apply bind_Throw_inv in Ha as [Hp|(lat & _ & Ha)]; [by apply prop_Throw in Hp as [_ ->]|].
  do 3 (apply bind_Throw_inv in Ha
          as [(? & _ & Hp)%sortBy_Throw|(? & _ & Ha)];
        [by apply prop_Throw in Hp as [_ ->]|]).
  apply sortBy_Throw in Ha as (c & _ & Hp). by apply prop_Throw in Hp as [_ ->].
Qed.

Lemma getLatencyCell_Throw (stale : gset Z) (sample : list number) (a b : Z) (e : JsError) :
  getLatencyCell nodesSummary stale sample a b = Throw e ->
  e = TypeError ∧ a ≠ b ∧ (a ∉ stale) ∧ (b ∉ stale) ∧ nodeStatusByID nodesSummary !! a = None.
Proof.
  unfold getLatencyCell. case_decide as Hab; [discriminate|].
  case_decide as Hst; [discriminate|].
  intros [Hp|(lat & _ & Hc)]%bind_Throw_inv.
  - apply prop_Throw in Hp as [Hnone ->]. tauto.
  - by destruct (lat !! b).
Qed.

Lemma latencyTable_Throw (stale : gset Z) (sample : list number)
    (display : list (option Identity)) (e : JsError) :
  latencyTable nodesSummary stale sample display = Throw e -> e = TypeError.
Proof.
  unfold latencyTable. intros (ia & _ & (ib & _ & Hc)%mapM_Throw)%mapM_Throw.
  apply bind_Throw_inv in Hc as [Hp|(a & _ & Hc)]; [by apply prop_Throw in Hp as [_ ->]|].
  apply bind_Throw_inv in Hc as [Hp|(b & _ & Hc)]; [by apply prop_Throw in Hp as [_ ->]|].
  by apply getLatencyCell_Throw in Hc as [-> _].
Qed.

Lemma legend_Throw (sample : list number) (e : JsError) :
  legend sample = Throw e -> e = TypeError.
Proof.
  unfold legend. intros [Hp|(m & _ & [=])]%bind_Throw_inv. by apply prop_Throw in Hp as [_ ->].
Qed.

End Throws.

Lemma render_not_SyntaxError `{RegExpEngine} (nodesSummary : NodesSummary) (query : Query) :
  render nodesSummary query ≠ Throw SyntaxError.
Proof.
  intros Hr. unfold render in Hr. destruct (_ || _); [discriminate|].
  destruct (localityRegex_total query) as [locality Hloc]. rewrite Hloc in Hr. simpl in Hr.
  assert (Hctx : ∀ live e,
             notMatching nodesSummary locality
               (onlyRequested query (withLiveness nodesSummary live)) = Throw e ->
             e = TypeError).
  { intros live e He. by apply notMatching_Throw in He as [-> _]. }
  apply bind_Throw_inv in Hr as [He|(healthy & _ & Hr)]; [by apply Hctx in He|].
  apply bind_Throw_inv in Hr as [He|(stale & _ & Hr)].
  { unfold staleIDs in He. apply bind_Throw_inv in He as [He|(? & _ & [=])]. by apply Hctx in He. }
  apply bind_Throw_inv in Hr as [He|(display & _ & Hr)].
  { unfold displayIdentities in He.
    apply bind_Throw_inv in He as [He|(? & _ & He)]; [by apply Hctx in He|].
    apply bind_Throw_inv in He as [He|(? & _ & He)]; [by apply Hctx in He|].
    by apply byNodeIDThenLocality_Throw in He. }
  apply bind_Throw_inv in Hr as [He|(staleIdents & _ & Hr)].
  { unfold staleIdentities in He.
    apply bind_Throw_inv in He as [He|(? & _ & He)]; [by apply Hctx in He|].
    by apply byNodeIDThenLocality_Throw in He. }
  apply bind_Throw_inv in Hr as [He|(sample & _ & Hr)].
  { by apply (proj2 (latencies_Ok_iff nodesSummary healthy)) in He. }
  apply bind_Throw_inv in Hr as [He|(noConns & _ & Hr)]; [by apply noConnections_Throw in He|].
  apply bind_Throw_inv in Hr as [He|(table & _ & Hr)]; [by apply latencyTable_Throw in He|].
  apply bind_Throw_inv in Hr as [He|(leg & _ & Hr)]; [by apply legend_Throw in He|].
  discriminate.
Qed.

(** X12. [render] returns, or it throws a [TypeError]; it never throws a
    [SyntaxError]: the one a refused locality pattern raises is caught, and
    every other failure is a read on [undefined]. *)
Theorem render_throws_only_TypeError `{RegExpEngine} (nodesSummary : NodesSummary)
    (query : Query) :
  (∃ v, render nodesSummary query = Ok v) ∨ render nodesSummary query = Throw TypeError.
Proof.
  destruct (render nodesSummary query) as [v|[]] eqn:Hr; [left; by exists v | by right |].
  by apply render_not_SyntaxError in Hr.
Qed.

(** ** The order of the no-connection list *)

Lemma StronglySorted_all {A} (R : relation A) (l : list A) :
  (∀ x y, x ∈ l -> y ∈ l -> R x y) -> StronglySorted R l.
Proof.
  induction l as [|x l IH]; intros HR; constructor.
  - apply IH. intros y z Hy Hz. apply HR; by right.
  - apply Forall_forall. intros y Hy. apply HR; [by left | by right].
Qed.

Section NoConnectionOrder.
Variable nodesSummary : NodesSummary.
Variable healthy : list Z.

(** The entries one healthy node contributes: all from that node, each to a
    peer outside the healthy ids that the node reports a latency to, and the
    targets in the order of [localityThenID]. *)
Lemma noConnectionsFrom_sorted (a : Z) (g : list NoConnection) :
  noConnectionsFrom nodesSummary healthy a = Ok g ->
  ∃ status targets,
    nodeStatusByID nodesSummary !! a = Some status
    ∧ to <$> g = Some <$> targets
    ∧ StronglySorted localityThenID targets
    ∧ nodeID <$> targets ≡ₚ lodash.difference (lodash.keys (status_latencies status)) healthy
    ∧ (∀ c, c ∈ g -> ∃ ia, from c = Some ia ∧ nodeID ia = a).
Proof.
  unfold noConnectionsFrom. intros Hg.
  apply bind_Ok_inv in Hg as (lat & Hlat & Hg).
  destruct (nodeStatusByID nodesSummary !! a) as [status|] eqn:Hst; [|discriminate].
  injection Hlat as <-. exists status.
  set (peers := lodash.difference (lodash.keys (status_latencies status)) healthy) in *.
  set (l0 := map _ peers) in Hg.
  apply bind_Ok_inv in Hg as (l1 & H1 & Hg).
  apply bind_Ok_inv in Hg as (l2 & H2 & Hg).
  apply bind_Ok_inv in Hg as (l3 & H3 & H4).
  pose proof (sortBy_perm _ _ _ _ H1) as P1.
  pose proof (sortBy_perm _ _ _ _ H2) as P2.
  assert (Hfrom0 : ∀ c, c ∈ l0 -> from c = identityByID nodesSummary !! a).
  { intros c (b & -> & _)%list_elem_of_fmap. done. }
  assert (Hto0 : ∀ c, c ∈ l0 -> is_Some (to c)).
  { intros c Hc. destruct (sortBy_Ok_inv _ _ _ _ _ H1 Hc) as [k Hk].
    destruct (to c); [by eexists | discriminate]. }
  assert (Hfrom2 : ∀ c, c ∈ l2 -> ∃ ia, from c = Some ia ∧ identityByID nodesSummary !! a = Some ia).
  { intros c Hc. destruct (sortBy_Ok_inv _ _ _ _ _ H3 Hc) as [k Hk].
    rewrite P2, P1 in Hc. rewrite <- (Hfrom0 c Hc).
    destruct (from c) as [ia|]; [by exists ia | discriminate]. }
  assert (E3 : l3 = l2).
  { destruct l2 as [|c0 l2']; [by apply sortBy_perm, Permutation_nil_r in H3|].
    destruct (Hfrom2 c0) as (ia & _ & Hia); [by left|].
    assert (Hs : lodash.sortBy Z.ltb (λ noConnection : NoConnection,
                   prop (from noConnection) nodeID) (c0 :: l2') = Ok (c0 :: l2')).
    { apply (sortBy_sorted_id Z.ltb _ (λ _, nodeID ia)).
      - intros c Hc. destruct (Hfrom2 c Hc) as (ia' & -> & Hia'). simpl. congruence.
      - apply StronglySorted_all. intros ? ? _ _. apply Z.ltb_irrefl. }
    congruence. }
  subst l3.
  assert (E4 : g = l2).
  { destruct l2 as [|c0 l2']; [by apply sortBy_perm, Permutation_nil_r in H4|].
    destruct (Hfrom2 c0) as (ia & _ & Hia); [by left|].
    assert (Hs : lodash.sortBy String.ltb (λ noConnection : NoConnection,
                   prop (from noConnection) locality) (c0 :: l2') = Ok (c0 :: l2')).
    { apply (sortBy_sorted_id String.ltb _ (λ _, locality ia)).
      - intros c Hc. destruct (Hfrom2 c Hc) as (ia' & -> & Hia'). simpl. congruence.
      - apply StronglySorted_all. intros ? ? _ _. apply (lt_irrefl String.ltb). }
    congruence. }
  subst g.
  assert (Hsome : Forall is_Some (to <$> l2)).
  { apply Forall_fmap, Forall_forall. intros c Hc. apply Hto0. by rewrite <- P1, <- P2. }
  destruct (Forall_is_Some_fmap _ Hsome) as [targets Ht]. exists targets.
  split; [done|]. split; [done|]. split; [|split].
  - pose proof (sortBy_keyThen Z.ltb _ (λ c, from_option nodeID 0 (to c)) (λ _ _, True) _ _ H1)
      as S1.
    pose proof (sortBy_keyThen String.ltb _ (λ c, from_option locality "" (to c))
                  (λ c d, (from_option nodeID 0 (to d) <? from_option nodeID 0 (to c)) = false
                          ∧ ((from_option nodeID 0 (to c) <? from_option nodeID 0 (to d)) = false
                             -> True)) _ _ H2) as S2.
    apply (StronglySorted_Some_inv
             (λ i j, String.ltb (from_option locality "" j) (from_option locality "" i) = false
                     ∧ (String.ltb (from_option locality "" i) (from_option locality "" j) = false
                        -> from_option nodeID 0 i ≤ from_option nodeID 0 j))).
    { intros i j [Hloc Hid]. simpl in *. split; [done|]. intros Heq. apply Hid.
      rewrite Heq. apply (lt_irrefl String.ltb). }
    rewrite <- Ht.
    eapply (StronglySorted_fmap_strong _ _ (λ _, True)); [| by apply Forall_forall | apply S2].
    + intros c d _ _ [Hloc Hid]. split; [done|]. intros Hlt.
      destruct (Hid Hlt) as [Hge _]. lia.
    + intros c Hc. rewrite P1 in Hc. by destruct (Hto0 c Hc) as [i ->].
    + apply S1; [|apply StronglySorted_True].
      intros c Hc. by destruct (Hto0 c Hc) as [i ->].
  - assert (Hids : from_option nodeID 0 <$> (to <$> l2) ≡ₚ peers).
    { rewrite P2, P1. unfold l0. rewrite <- !list_fmap_compose.
      match goal with |- ?x ≡ₚ ?y => cut (x = y); [by intros ->|] end.
      rewrite <- (list_fmap_id peers) at 2. apply list_fmap_ext. intros k b Hb. simpl.
      assert (Hin : {| from := identityByID nodesSummary !! a;
                       to := identityByID nodesSummary !! b |} ∈ l0).
      { apply (list_elem_of_fmap_2' _ _ b); [by eapply list_elem_of_lookup_2 | done]. }
      destruct (Hto0 _ Hin) as [ib Hib]. simpl in Hib. rewrite Hib. simpl.
      by eapply identityByID_nodeID. }
    rewrite Ht, <- list_fmap_compose in Hids. exact Hids.
  - intros c Hc. destruct (Hfrom2 c Hc) as (ia & Hf & Hia). exists ia. split; [done|].
    by eapply identityByID_nodeID.
Qed.

End NoConnectionOrder.

Lemma noConnections_groups (nodesSummary : NodesSummary) (healthy : list Z)
    (noConns : list NoConnection) :
  noConnections nodesSummary healthy = Ok noConns ->
  ∃ groups,
    noConns = concat groups
    ∧ Forall2 (λ a g,
        ∃ status targets,
          nodeStatusByID nodesSummary !! a = Some status
          ∧ to <$> g = Some <$> targets
          ∧ StronglySorted localityThenID targets
          ∧ nodeID <$> targets
            ≡ₚ lodash.difference (lodash.keys (status_latencies status)) healthy
          ∧ (∀ c, c ∈ g -> ∃ ia, from c = Some ia ∧ nodeID ia = a))
      healthy groups.
Proof.
  unfold noConnections. intros Hn.
  apply bind_Ok_inv in Hn as (groups & Hg & [= <-]).
  exists groups. split; [done|]. apply mapM_Ok in Hg.
  eapply Forall2_impl; [exact Hg|]. intros a g. apply noConnectionsFrom_sorted.
Qed.

(** X13. The no-connection list is the groups of the healthy nodes, one after
    the other in the order of the healthy ids.  The group of a node holds one
    entry from that node for each key of its latency map outside the healthy
    ids, the targets ordered by locality and then by id. *)
Theorem noConnections_grouped (nodesSummary : NodesSummary) (healthy : list Z)
    (noConns : list NoConnection) :
  noConnections nodesSummary healthy = Ok noConns ->
  ∃ groups,
    noConns = concat groups
    ∧ Forall2 (λ a g,
        ∃ status targets,
          nodeStatusByID nodesSummary !! a = Some status
          ∧ to <$> g = Some <$> targets
          ∧ StronglySorted localityThenID targets
          ∧ nodeID <$> targets
            ≡ₚ lodash.difference (lodash.keys (status_latencies status)) healthy
          ∧ (∀ c, c ∈ g -> ∃ ia, from c = Some ia ∧ nodeID ia = a))
      healthy groups.
Proof. apply noConnections_groups. Qed.

Lemma noConnections_grouped_witness :
  ∃ groups,
    [ {| from := identityByID twoFromOneTo !! 1; to := identityByID twoFromOneTo !! 3 |};
      {| from := identityByID twoFromOneTo !! 2; to := identityByID twoFromOneTo !! 3 |} ]
    = concat groups
    ∧ Forall2 (λ a g,
        ∃ status targets,
          nodeStatusByID twoFromOneTo !! a = Some status
          ∧ to <$> g = Some <$> targets
          ∧ StronglySorted localityThenID targets
          ∧ nodeID <$> targets
            ≡ₚ lodash.difference (lodash.keys (status_latencies status)) [1; 2]
          ∧ (∀ c, c ∈ g -> ∃ ia, from c = Some ia ∧ nodeID ia = a))
      [1; 2] groups.
Proof.
  apply (noConnections_grouped twoFromOneTo [1; 2]). vm_compute. reflexivity.
Defined.

(** ** The latency table *)

(** X14. Outside the diagonal and the stale nodes a cell is built exactly
    when the row's node has a status: [getLatencyCell] throws, a [TypeError],
    only for two different fresh nodes the first of which has none. *)
Theorem cell_throws_iff (nodesSummary : NodesSummary) (stale : gset Z) (sample : list number)
    (a b : Z) :
  (∀ e, getLatencyCell nodesSummary stale sample a b = Throw e -> e = TypeError)
  ∧ (getLatencyCell nodesSummary stale sample a b = Throw TypeError
     ↔ a ≠ b ∧ (a ∉ stale) ∧ (b ∉ stale) ∧ nodeStatusByID nodesSummary !! a = None).
Proof.
  split; [intros e He; by apply getLatencyCell_Throw in He as [-> _]|].
  split; [intros He; by apply getLatencyCell_Throw in He as [_ ?]|].
  intros (Hab & Ha & Hb & Hnone). unfold getLatencyCell.
  rewrite decide_False by done. rewrite decide_False by tauto. by rewrite Hnone.
Qed.

Lemma latencyTable_lookup (nodesSummary : NodesSummary) (stale : gset Z) (sample : list number)
    (display : list (option Identity)) (table : list (list Cell)) :
  latencyTable nodesSummary stale sample display = Ok table ->
  length table = length display
  ∧ Forall (λ row, length row = length display) table
  ∧ (∀ i j row cell,
       table !! i = Some row -> row !! j = Some cell ->
       ∃ a b, display !! i = Some (Some a) ∧ display !! j = Some (Some b)
              ∧ getLatencyCell nodesSummary stale sample (nodeID a) (nodeID b) = Ok cell).
Proof.
  unfold latencyTable. intros Ht. apply mapM_Ok in Ht.
  split; [symmetry; by eapply Forall2_length|]. split.
  - apply Forall_forall. intros row Hrow.
    destruct (Forall2_elem_of_r _ _ _ _ Ht Hrow) as (ia & _ & Hr).
    apply mapM_Ok in Hr. symmetry. by eapply Forall2_length.
  - intros i j row cell Hi Hj.
    destruct (Forall2_lookup_r _ _ _ _ _ Ht Hi) as (ia & Hia & Hr).
    apply mapM_Ok in Hr.
    destruct (Forall2_lookup_r _ _ _ _ _ Hr Hj) as (ib & Hib & Hc).
    apply bind_Ok_inv in Hc as (a & Ha & Hc). apply bind_Ok_inv in Hc as (b & Hb & Hc).
    destruct ia as [ia|]; [|discriminate]. destruct ib as [ib|]; [|discriminate].
    injection Ha as <-. injection Hb as <-. by exists ia, ib.
Qed.

(** X15. A latency table that is built is square, one row and one column for
    each displayed identity in the order of the display; the cell of row [i]
    and column [j] is the one [getLatencyCell] builds for the two ids, and the
    cells of the diagonal are the [--self] cells. *)
Theorem latencyTable_square (nodesSummary : NodesSummary) (stale : gset Z)
    (sample : list number) (display : list (option Identity)) (table : list (list Cell)) :
  latencyTable nodesSummary stale sample display = Ok table ->
  length table = length display
  ∧ Forall (λ row, length row = length display) table
  ∧ (∀ i j row cell,
       table !! i = Some row -> row !! j = Some cell ->
       ∃ a b, display !! i = Some (Some a) ∧ display !! j = Some (Some b)
              ∧ getLatencyCell nodesSummary stale sample (nodeID a) (nodeID b) = Ok cell)
  ∧ (∀ i row cell, table !! i = Some row -> row !! i = Some cell -> cell = CellSelf).
Proof.
  intros Ht. destruct (latencyTable_lookup _ _ _ _ _ Ht) as (Hlen & Hrows & Hcell).
  split; [done|]. split; [done|]. split; [done|].
  intros i row cell Hi Hj. destruct (Hcell i i row cell Hi Hj) as (a & b & Ha & Hb & Hc).
  rewrite Ha in Hb. injection Hb as <-. rewrite getLatencyCell_self in Hc. congruence.
Qed.

Lemma latencyTable_square_witness :
  ∃ table,
    latencyTable mixedCluster (list_to_set [3]) (millis [5; 5])
      [identityByID mixedCluster !! 1; identityByID mixedCluster !! 3;
       identityByID mixedCluster !! 2] = Ok table
    ∧ length table = 3%nat
    ∧ Forall (λ row, length row = 3%nat) table
    ∧ (∀ i j row cell,
         table !! i = Some row -> row !! j = Some cell ->
         ∃ a b, [identityByID mixedCluster !! 1; identityByID mixedCluster !! 3;
                 identityByID mixedCluster !! 2] !! i = Some (Some a)
                ∧ [identityByID mixedCluster !! 1; identityByID mixedCluster !! 3;
                   identityByID mixedCluster !! 2] !! j = Some (Some b)
                ∧ getLatencyCell mixedCluster (list_to_set [3]) (millis [5; 5])
                    (nodeID a) (nodeID b) = Ok cell)
    ∧ (∀ i row cell, table !! i = Some row -> row !! i = Some cell -> cell = CellSelf).
Proof.
  destruct (latencyTable mixedCluster (list_to_set [3]) (millis [5; 5])
              [identityByID mixedCluster !! 1; identityByID mixedCluster !! 3;
               identityByID mixedCluster !! 2]) as [table|] eqn:Ht;
    [|by vm_compute in Ht].
  exists table. split; [done|]. by apply latencyTable_square in Ht.
Defined.

(** ** The display order does not depend on the order of [nodeIDs] *)

Lemma filterM_Permutation {A} (p : A -> result bool) (l l' k : list A) :
  l ≡ₚ l' -> filterM p l = Ok k -> ∃ k', filterM p l' = Ok k' ∧ k ≡ₚ k'.
Proof.
  intros Hl. revert k. induction Hl as [|x l l' Hl IH|x y l|l l' l'' _ IH1 _ IH2]; intros k; simpl.
  - intros [= <-]. by exists [].
  - intros Hk. apply bind_Ok_inv in Hk as (b & -> & Hk).
    apply bind_Ok_inv in Hk as (k0 & Hk0 & [= <-]).
    destruct (IH _ Hk0) as (k' & -> & Hperm). simpl.
    eexists. split; [done|]. destruct b; by rewrite Hperm.
  - intros Hk. apply bind_Ok_inv in Hk as (b & -> & Hk).
    apply bind_Ok_inv in Hk as (k0 & Hk0 & [= <-]).
    apply bind_Ok_inv in Hk0 as (c & -> & Hk0).
    apply bind_Ok_inv in Hk0 as (k1 & -> & [= <-]). simpl.
    eexists. split; [done|]. destruct b, c; try done. apply perm_swap.
  - intros Hk. destruct (IH1 _ Hk) as (k' & Hk' & P1).
    destruct (IH2 _ Hk') as (k'' & Hk'' & P2). exists k''. split; [done|]. by etrans.
Qed.

Section Canonical.
Context `{RegExpEngine}.
Variable nodesSummary : NodesSummary.

Lemma byNodeIDThenLocality_canonical (ids ids' : list Z) (l : list (option Identity)) :
  ids ≡ₚ ids' ->
  byNodeIDThenLocality nodesSummary ids = Ok l ->
  byNodeIDThenLocality nodesSummary ids' = Ok l.
Proof.
  intros Hperm Hl.
  destruct (byNodeIDThenLocality_total nodesSummary ids') as [l' Hl'].
  { intros id Hid. rewrite <- Hperm in Hid.
    by apply (proj1 (byNodeIDThenLocality_Ok_iff nodesSummary ids) (ex_intro _ l Hl)). }
  rewrite Hl'. f_equal. symmetry.
  destruct (byNodeIDThenLocality_sorted _ _ _ Hl) as (idents & El & Hs & _).
  destruct (byNodeIDThenLocality_sorted _ _ _ Hl') as (idents' & El' & Hs' & _).
  pose proof (byNodeIDThenLocality_perm _ _ _ Hl) as P.
  pose proof (byNodeIDThenLocality_perm _ _ _ Hl') as P'.
  assert (Hll' : l ≡ₚ l') by (by rewrite P, P', Hperm).
  assert (Hget : ∀ i, Some i ∈ l -> identityByID nodesSummary !! nodeID i = Some i).
  { intros i Hi. rewrite P in Hi. apply list_elem_of_fmap in Hi as (id & Hi & _).
    symmetry in Hi. by rewrite (identityByID_nodeID _ _ _ Hi). }
  subst l l'.
  set (R := λ x y : option Identity,
              match x, y with Some i, Some j => localityThenID i j | _, _ => True end).
  assert (HR : ∀ k, StronglySorted localityThenID k -> StronglySorted R (Some <$> k)).
  { intros k Hk. apply (StronglySorted_fmap_strong localityThenID R (λ _, True)).
    - intros p q _ _ Hpq. exact Hpq.
    - by apply Forall_forall.
    - exact Hk. }
  apply (StronglySorted_unique_strong R); [|by apply HR|by apply HR|done].
  intros x y Hx Hy Hxy Hyx.
  assert (Hy' : y ∈ Some <$> idents) by (by rewrite Hll').
  pose proof Hx as Hi'. apply list_elem_of_fmap in Hx as (i & -> & _).
  pose proof Hy' as Hj. apply list_elem_of_fmap in Hj as (j & -> & _).
  simpl in Hxy, Hyx. destruct Hxy as [Hji Hij], Hyx as [Hij' Hji'].
  assert (Hloc : locality i = locality j) by (by apply (lt_connex (lt := String.ltb))).
  assert (Hid : nodeID i = nodeID j).
  { specialize (Hij Hloc). symmetry in Hloc. specialize (Hji' Hloc). lia. }
  apply Hget in Hi', Hy'. rewrite Hid in Hi'. congruence.
Qed.

End Canonical.

(** X16. The two identity lists do not depend on the order in which the
    snapshot lists its ids: listing the ids in another order gives the same
    lists, element for element. *)
Theorem identity_lists_canonical `{RegExpEngine} (nodesSummary nodesSummary' : NodesSummary)
    (query : Query) (locality : option RegExp) (display stale : list (option Identity)) :
  reordered nodesSummary nodesSummary' ->
  displayIdentities nodesSummary query locality = Ok display ->
  staleIdentities nodesSummary query locality = Ok stale ->
  displayIdentities nodesSummary' query locality = Ok display
  ∧ staleIdentities nodesSummary' query locality = Ok stale.
Proof.
  destruct nodesSummary as [statuses ids byID live], nodesSummary' as [statuses' ids' byID' live'].
  intros (Hst & Hby & Hlive & Hperm). simpl in *. subst statuses' byID' live'.
  set (ns := {| nodeStatuses := statuses; nodeIDs := ids; nodeStatusByID := byID;
                livenessStatusByNodeID := live |}).
  set (ns' := {| nodeStatuses := statuses; nodeIDs := ids'; nodeStatusByID := byID;
                 livenessStatusByNodeID := live |}).
  assert (Hctx : ∀ st k,
             notMatching ns locality (onlyRequested query (withLiveness ns st)) = Ok k ->
             ∃ k', notMatching ns' locality (onlyRequested query (withLiveness ns' st)) = Ok k'
                   ∧ k ≡ₚ k').
  { intros st k Hk.
    assert (Hw : onlyRequested query (withLiveness ns st)
                 ≡ₚ onlyRequested query (withLiveness ns' st)).
    { unfold onlyRequested, withLiveness. simpl. case_decide; by rewrite Hperm. }
    destruct locality as [re|]; simpl in *.
    - by apply (filterM_Permutation _ _ _ _ Hw).
    - injection Hk as <-. by eexists. }
  assert (Hsort : ∀ l l' r, l ≡ₚ l' ->
             byNodeIDThenLocality ns l = Ok r -> byNodeIDThenLocality ns' l' = Ok r).
  { intros l l' r Hl Hr. by apply (byNodeIDThenLocality_canonical ns l l'). }
  intros Hd Hs. split.
  - unfold displayIdentities, healthyIDsContext, staleIDsContext in *.
    apply bind_Ok_inv in Hd as (h & Hh & Hd). apply bind_Ok_inv in Hd as (s & Hs' & Hd).
    destruct (Hctx _ _ Hh) as (h' & -> & Ph). destruct (Hctx _ _ Hs') as (s' & -> & Ps).
    simpl. apply (Hsort (lodash.union h s)); [|done].
    apply NoDup_Permutation; [apply NoDup_uniq..|].
    intros id. unfold lodash.union. rewrite !elem_of_uniq, !elem_of_app. by rewrite Ph, Ps.
  - unfold staleIdentities, staleIDsContext in *.
    apply bind_Ok_inv in Hs as (s & Hs' & Hs).
    destruct (Hctx _ _ Hs') as (s' & -> & Ps). simpl. by apply (Hsort s).
Qed.

Lemma identity_lists_canonical_witness :
  ∃ display stale,
    displayIdentities (H := literal_engine) mixedCluster noQuery None = Ok display
    ∧ staleIdentities (H := literal_engine) mixedCluster noQuery None = Ok stale
    ∧ idOf <$> display = [Some 1; Some 3; Some 2]
    ∧ displayIdentities (H := literal_engine)
        {| nodeStatuses := nodeStatuses mixedCluster;
           nodeIDs := [4; 3; 2; 1];
           nodeStatusByID := nodeStatusByID mixedCluster;
           livenessStatusByNodeID := livenessStatusByNodeID mixedCluster |}
        noQuery None = Ok display
    ∧ staleIdentities (H := literal_engine)
        {| nodeStatuses := nodeStatuses mixedCluster;
           nodeIDs := [4; 3; 2; 1];
           nodeStatusByID := nodeStatusByID mixedCluster;
           livenessStatusByNodeID := livenessStatusByNodeID mixedCluster |}
        noQuery None = Ok stale.
Proof.
  destruct (displayIdentities (H := literal_engine) mixedCluster noQuery None)
    as [display|] eqn:Hd; [|by vm_compute in Hd].
  destruct (staleIdentities (H := literal_engine) mixedCluster noQuery None)
    as [stale|] eqn:Hs; [|by vm_compute in Hs].
  exists display, stale. split; [done|]. split; [done|]. split.
  { vm_compute in Hd. injection Hd as <-. vm_compute. reflexivity. }
  apply (identity_lists_canonical (H := literal_engine) mixedCluster); [|done..].
  split; [reflexivity|]. split; [reflexivity|]. split; [reflexivity|].
  apply (bool_decide_unpack _). vm_compute. reflexivity.
Defined.

(** ** Nodes that no status describes *)

Lemma identityByID_is_Some (nodesSummary : NodesSummary) (id : Z) :
  is_Some (identityByID nodesSummary !! id) ↔
  ∃ status, status ∈ nodeStatuses nodesSummary ∧ node_id (desc status) = id.
Proof.
  split.
  - intros [i Hi]. destruct (identityByID_Some _ _ _ Hi) as (status & Hin & Hid & _). eauto.
  - intros (status & Hin & <-). by apply identityByID_known.
Qed.

(** X17. Once the two classes are computed, the displayed identities are
    produced exactly when [nodeStatuses] holds a status for every healthy and
    every stale id; with a status missing, reading the [nodeID] of the absent
    identity throws a [TypeError]. *)
Theorem display_needs_statuses `{RegExpEngine} (nodesSummary : NodesSummary) (query : Query)
    (locality : option RegExp) (h : list Z) (st : gset Z) :
  healthyIDs nodesSummary query locality = Ok h ->
  staleIDs nodesSummary query locality = Ok st ->
  ((∃ display, displayIdentities nodesSummary query locality = Ok display) ↔
   ∀ id, id ∈ h ∨ id ∈ st ->
         ∃ status, status ∈ nodeStatuses nodesSummary ∧ node_id (desc status) = id)
  ∧ (∀ e, displayIdentities nodesSummary query locality = Throw e -> e = TypeError).
Proof.
  intros Hh Hst. unfold healthyIDs in Hh. unfold staleIDs in Hst.
  apply bind_Ok_inv in Hst as (s & Hs & [= <-]).
  unfold displayIdentities. rewrite Hh, Hs. simpl. split.
  - rewrite byNodeIDThenLocality_Ok_iff. split.
    + intros Hall id Hid. apply identityByID_is_Some, Hall.
      unfold lodash.union. rewrite elem_of_uniq, elem_of_app.
      destruct Hid as [Hid|Hid]; [by left | right; by apply elem_of_list_to_set in Hid].
    + intros Hall id Hid. apply identityByID_is_Some, Hall.
      unfold lodash.union in Hid. rewrite elem_of_uniq, elem_of_app in Hid.
      destruct Hid as [Hid|Hid]; [by left | right; by apply elem_of_list_to_set].
  - intros e. apply byNodeIDThenLocality_Throw.
Qed.

Lemma display_needs_statuses_witness :
  ((∃ display, displayIdentities (H := literal_engine) mixedCluster noQuery None = Ok display) ↔
   ∀ id, id ∈ [1; 2] ∨ id ∈ (list_to_set [3] : gset Z) ->
         ∃ status, status ∈ nodeStatuses mixedCluster ∧ node_id (desc status) = id)
  ∧ (∀ e, displayIdentities (H := literal_engine) mixedCluster noQuery None = Throw e
          -> e = TypeError).
Proof.
  apply (display_needs_statuses (H := literal_engine) mixedCluster noQuery None);
    vm_compute; reflexivity.
Defined.

(** ** The stale table, the no-connection table and the header cells *)

Lemma staleTable_Some (idents : list Identity) :
  staleTable (Some <$> idents)
  = Ok (match idents with [] => None | _ => Some (staleRowOf <$> idents) end).
Proof.
  unfold staleTable. destruct idents as [|i idents]; [done|].
  rewrite bool_decide_eq_false_2 by done.
  assert (Hm : ∀ l : list Identity,
             mapM (λ staleIdentity : option Identity,
                     n ← prop staleIdentity nodeID;
                     a ← prop staleIdentity address;
                     l ← prop staleIdentity locality;
                     u ← prop staleIdentity updatedAt;
                     Ok {| sr_key := n;
                           sr_node := ("n" ++ Number_toString n)%string;
                           sr_address := a;
                           sr_locality := l;
                           sr_lastUpdated := u |}) (Some <$> l)
             = Ok (staleRowOf <$> l)).
  { intros l. apply mapM_Ok. induction l; constructor; auto. }
  by rewrite Hm.
Qed.

Lemma noConnectionTable_rows (l : list NoConnection) :
  (∀ c, c ∈ l -> is_Some (from c) ∧ is_Some (to c)) ->
  ∃ table, noConnectionTable l = Ok table
           ∧ (table = None ↔ l = [])
           ∧ (∀ rows, table = Some rows ->
                      nr_key <$> rows = seq 0 (length l)
                      ∧ Forall2 (λ c row,
                           ∃ ia ib, from c = Some ia ∧ to c = Some ib
                             ∧ nr_fromNode row = ("n" ++ Number_toString (nodeID ia))%string
                             ∧ nr_toNode row = ("n" ++ Number_toString (nodeID ib))%string)
                         l rows).
Proof.
  intros Hl. unfold noConnectionTable.
  destruct (decide (l = [])) as [->|Hne].
  { exists None. rewrite bool_decide_eq_true_2 by done. by repeat split. }
  rewrite bool_decide_eq_false_2 by done.
  assert (Hrows : ∀ k0, ∃ rows,
             mapM (λ '(k, noConn), noConnectionRow k noConn) (zip (seq k0 (length l)) l)
             = Ok rows
             ∧ nr_key <$> rows = seq k0 (length l)
             ∧ Forall2 (λ c row,
                  ∃ ia ib, from c = Some ia ∧ to c = Some ib
                    ∧ nr_fromNode row = ("n" ++ Number_toString (nodeID ia))%string
                    ∧ nr_toNode row = ("n" ++ Number_toString (nodeID ib))%string)
                l rows).
  { clear Hne. induction l as [|c l IH]; intros k0; simpl.
    - exists []. repeat split; constructor.
    - destruct (Hl c) as [[ia Hia] [ib Hib]]; [by left|].
      destruct (IH (λ c' Hc', Hl c' (list_elem_of_further _ _ _ Hc')) (S k0))
        as (rows & -> & Hk & Hf).
      unfold noConnectionRow at 1. rewrite Hia, Hib. simpl.
      eexists. split; [done|]. split; [rewrite fmap_cons; by f_equal|].
      constructor; [|done]. by exists ia, ib. }
  destruct (Hrows 0%nat) as (rows & -> & Hk & Hf). simpl.
  exists (Some rows). split; [done|]. split; [done|].
  by intros ? [= <-].
Qed.

Lemma headerRow_Some (stale : gset Z) (idents : list Identity) :
  ∃ cells, headerRow stale (Some <$> idents) = Ok cells
           ∧ hc_key <$> cells = nodeID <$> idents
           ∧ Forall2 (λ i cell,
                hc_key cell = nodeID i
                ∧ hc_text cell = ("n" ++ Number_toString (nodeID i))%string
                ∧ hc_title cell
                  = String.concat newline [hc_text cell; address i; locality i]
                ∧ (hc_className cell
                   = "network-table__cell network-table__cell--header network-table__cell--header-warning"
                   ↔ nodeID i ∈ stale)
                ∧ (hc_className cell = "network-table__cell network-table__cell--header"
                   ↔ nodeID i ∉ stale))
              idents cells.
Proof.
  unfold headerRow. induction idents as [|i idents (cells & IH & Hk & Hf)]; simpl.
  - exists []. repeat split; constructor.
  - change (list_fmap Identity (option Identity) Some idents) with (Some <$> idents).
    rewrite IH. simpl.
    eexists. split; [done|]. split; [rewrite fmap_cons; simpl; by f_equal|].
    constructor; [|done]. simpl. split; [done|]. split; [done|]. split; [done|].
    case_decide; split; split; try done; by intros [=].
Qed.

Section PageMarkup.
Context `{RegExpEngine}.
Variable nodesSummary : NodesSummary.
Variable query : Query.

Lemma page_identities (r : Report) :
  render nodesSummary query = Ok (page r) ->
  ∃ display stale,
    report_displayIdentities r = Some <$> display
    ∧ report_staleIdentities r = Some <$> stale.
Proof.
  intros Hr.
  destruct (render_page_inv _ _ _ Hr)
    as (_ & _ & locality & healthy & st & sample & _ & _ & _ & Hd & Hsi & _).
  unfold displayIdentities in Hd. unfold staleIdentities in Hsi.
  apply bind_Ok_inv in Hd as (h & _ & Hd). apply bind_Ok_inv in Hd as (s & _ & Hd).
  apply bind_Ok_inv in Hsi as (s' & _ & Hsi).
  destruct (byNodeIDThenLocality_sorted _ _ _ Hd) as (display & -> & _).
  destruct (byNodeIDThenLocality_sorted _ _ _ Hsi) as (stale & -> & _).
  by exists display, stale.
Qed.

End PageMarkup.

(** X18. For a page that [render] returns, [staleTable] never throws; it is
    [null] exactly when no node is stale, and otherwise has one row for each
    stale identity, in their order, keyed by the ids of the stale nodes. *)
Theorem staleTable_of_page `{RegExpEngine} (nodesSummary : NodesSummary) (query : Query)
    (r : Report) :
  render nodesSummary query = Ok (page r) ->
  ∃ locality st table,
    localityRegex query = Ok locality
    ∧ staleIDs nodesSummary query locality = Ok st
    ∧ staleTable (report_staleIdentities r) = Ok table
    ∧ (table = None ↔ st = ∅)
    ∧ (∀ rows, table = Some rows ->
               Some <$> (sr_key <$> rows) = idOf <$> report_staleIdentities r
               ∧ ∀ id, id ∈ sr_key <$> rows ↔ id ∈ st).
Proof.
  intros Hr.
  destruct (page_identities _ _ _ Hr) as (display & stale & Ed & Es).
  destruct (render_page_inv _ _ _ Hr)
    as (_ & _ & locality & healthy & st & sample & Hloc & Hh & Hst & Hd & Hsi & _).
  destruct (identities_content _ _ _ _ _ _ _ Hh Hst Hd Hsi) as (_ & _ & Hstale & _).
  rewrite Es in Hstale |- *. rewrite staleTable_Some.
  assert (Hin : ∀ id, id ∈ nodeID <$> stale ↔ id ∈ st).
  { intros id. rewrite <- Hstale, <- list_fmap_compose.
    change (idOf ∘ Some) with (Some ∘ nodeID). rewrite list_fmap_compose.
    split; [apply list_elem_of_fmap_2|].
    intros (x & [= ->] & Hx)%list_elem_of_fmap. done. }
  eexists locality, st, _. split; [done|]. split; [done|]. split; [done|]. split.
  - destruct stale as [|i stale]; split; try done.
    + intros _. apply elem_of_equiv_empty_L. intros id Hid. apply Hin in Hid.
      by apply elem_of_nil in Hid.
    + intros ->. assert (Hi : nodeID i ∈ (∅ : gset Z)) by (apply Hin; by left).
      by apply elem_of_empty in Hi.
  - intros rows Hrows. destruct stale as [|i stale]; [done|].
    assert (rows = staleRowOf <$> i :: stale) as -> by congruence.
    split.
    + generalize (i :: stale). intros l. induction l as [|j l IH]; [done|].
      rewrite !fmap_cons. f_equal. exact IH.
    + intros id. rewrite <- Hin, <- list_fmap_compose. done.
Qed.

Lemma staleTable_of_page_witness :
  ∃ r, render (H := literal_engine) mixedCluster noQuery = Ok (page r)
       ∧ ∃ locality st table,
           localityRegex (H := literal_engine) noQuery = Ok locality
           ∧ staleIDs (H := literal_engine) mixedCluster noQuery locality = Ok st
           ∧ staleTable (report_staleIdentities r) = Ok table
           ∧ (table = None ↔ st = ∅)
           ∧ (∀ rows, table = Some rows ->
                      Some <$> (sr_key <$> rows) = idOf <$> report_staleIdentities r
                      ∧ ∀ id, id ∈ sr_key <$> rows ↔ id ∈ st).
Proof.
  destruct (render (H := literal_engine) mixedCluster noQuery) as [[|r]|] eqn:Hr;
    [by vm_compute in Hr | | by vm_compute in Hr].
  exists r. split; [done|].
  by apply (staleTable_of_page (H := literal_engine) mixedCluster noQuery).
Defined.

(** X19. For a page that [render] returns, [noConnectionTable] never throws;
    it is [null] exactly when every key of the latency map of every healthy
    node is a healthy id, and otherwise has one row for each entry, keyed by
    the position in the list. *)
Theorem noConnectionTable_of_page `{RegExpEngine} (nodesSummary : NodesSummary)
    (query : Query) (r : Report) :
  render nodesSummary query = Ok (page r) ->
  ∃ locality healthy table,
    localityRegex query = Ok locality
    ∧ healthyIDs nodesSummary query locality = Ok healthy
    ∧ noConnectionTable (report_noConnections r) = Ok table
    ∧ (table = None ↔
       ∀ a status b, a ∈ healthy -> nodeStatusByID nodesSummary !! a = Some status ->
                     is_Some (status_latencies status !! b) -> b ∈ healthy)
    ∧ (∀ rows, table = Some rows ->
               nr_key <$> rows = seq 0 (length (report_noConnections r))).
Proof.
  intros Hr.
  destruct (render_page_inv _ _ _ Hr)
    as (_ & _ & locality & healthy & st & sample & Hloc & Hh & _ & _ & _ & _ & Hnc & _).
  destruct (noConnections_groups _ _ _ Hnc) as (groups & Hconcat & Hgroups).
  destruct (noConnectionTable_rows (report_noConnections r)) as (table & Ht & Hnone & Hrows).
  { intros c Hc. rewrite Hconcat in Hc. apply elem_of_concat in Hc as (g & Hg & Hc).
    destruct (Forall2_elem_of_r _ _ _ _ Hgroups Hg)
      as (a & _ & status & targets & _ & Hto & _ & _ & Hfrom).
    split.
    - destruct (Hfrom c Hc) as (ia & -> & _). by eexists.
    - assert (Hin : to c ∈ Some <$> targets).
      { rewrite <- Hto. by apply list_elem_of_fmap_2. }
      apply list_elem_of_fmap in Hin as (ib & -> & _). by eexists. }
  exists locality, healthy, table. split; [done|]. split; [done|]. split; [done|]. split.
  - rewrite Hnone, Hconcat. split.
    + intros Hnil a status b Ha Hst Hb.
      destruct (Forall2_elem_of_l _ _ _ _ Hgroups Ha)
        as (g & Hg & status' & targets & Hst' & Hto & _ & Hperm & _).
      assert (status' = status) as -> by congruence.
      assert (Eg : g = []).
      { destruct g as [|c g]; [done|].
        assert (Hc : c ∈ concat groups) by (apply elem_of_concat; exists (c :: g); split;
                                            [done | by left]).
        rewrite Hnil in Hc. by apply elem_of_nil in Hc. }
      subst g. destruct targets; [|done]. simpl in Hperm.
      destruct (decide (b ∈ healthy)) as [|Hnb]; [done|].
      assert (Hin : b ∈ lodash.difference (lodash.keys (status_latencies status)) healthy).
      { apply elem_of_difference_list. split; [by apply elem_of_keys | done]. }
      rewrite <- Hperm in Hin. by apply elem_of_nil in Hin.
    + intros Hall. destruct (concat groups) as [|c l] eqn:El; [done|]. exfalso.
      assert (Hc : c ∈ concat groups) by (rewrite El; by left).
      apply elem_of_concat in Hc as (g & Hg & Hc).
      destruct (Forall2_elem_of_r _ _ _ _ Hgroups Hg)
        as (a & Ha & status & targets & Hst & Hto & _ & Hperm & _).
      assert (Hin : to c ∈ Some <$> targets).
      { rewrite <- Hto. by apply list_elem_of_fmap_2. }
      apply list_elem_of_fmap in Hin as (ib & _ & Hib).
      assert (Hb : nodeID ib ∈ lodash.difference (lodash.keys (status_latencies status)) healthy).
      { rewrite <- Hperm. by apply list_elem_of_fmap_2. }
      apply elem_of_difference_list in Hb as [Hkey Hnb]. apply Hnb.
      apply (Hall a status); [done..|]. by apply elem_of_keys.
  - intros rows Hr'. by destruct (Hrows rows Hr').
Qed.

Lemma noConnectionTable_of_page_witness :
  ∃ r, render (H := literal_engine) mixedCluster noQuery = Ok (page r)
       ∧ ∃ locality healthy table,
           localityRegex (H := literal_engine) noQuery = Ok locality
           ∧ healthyIDs (H := literal_engine) mixedCluster noQuery locality = Ok healthy
           ∧ noConnectionTable (report_noConnections r) = Ok table
           ∧ (table = None ↔
              ∀ a status b, a ∈ healthy -> nodeStatusByID mixedCluster !! a = Some status ->
                            is_Some (status_latencies status !! b) -> b ∈ healthy)
           ∧ (∀ rows, table = Some rows ->
                      nr_key <$> rows = seq 0 (length (report_noConnections r))).
Proof.
  destruct (render (H := literal_engine) mixedCluster noQuery) as [[|r]|] eqn:Hr;
    [by vm_compute in Hr | | by vm_compute in Hr].
  exists r. split; [done|].
  by apply (noConnectionTable_of_page (H := literal_engine) mixedCluster noQuery).
Defined.

(** X20. For a page that [render] returns, the header row is built without a
    throw, one cell for each displayed identity and no key twice.  A cell
    shows [n] and the id, and carries the warning class exactly when its node
    is [SUSPECT], the plain header class exactly when it is [HEALTHY]. *)
Theorem headerRow_of_page `{RegExpEngine} (nodesSummary : NodesSummary) (query : Query)
    (r : Report) :
  render nodesSummary query = Ok (page r) ->
  ∃ locality st cells,
    localityRegex query = Ok locality
    ∧ staleIDs nodesSummary query locality = Ok st
    ∧ headerRow st (report_displayIdentities r) = Ok cells
    ∧ NoDup (hc_key <$> cells)
    ∧ Forall2 (λ identity cell,
         ∃ i, identity = Some i
              ∧ hc_key cell = nodeID i
              ∧ hc_text cell = ("n" ++ Number_toString (nodeID i))%string
              ∧ (hc_className cell
                 = "network-table__cell network-table__cell--header network-table__cell--header-warning"
                 ↔ livenessStatusByNodeID nodesSummary !! nodeID i = Some SUSPECT)
              ∧ (hc_className cell = "network-table__cell network-table__cell--header"
                 ↔ livenessStatusByNodeID nodesSummary !! nodeID i = Some HEALTHY))
       (report_displayIdentities r) cells.
Proof.
  intros Hr.
  destruct (page_identities _ _ _ Hr) as (display & stale & Ed & Es).
  destruct (render_page_inv _ _ _ Hr)
    as (_ & _ & locality & healthy & st & sample & Hloc & Hh & Hst & Hd & Hsi & _).
  destruct (identities_content _ _ _ _ _ _ _ Hh Hst Hd Hsi) as (Hnd & Hdisp & _).
  destruct (ids_characterised _ _ _ _ _ Hh Hst) as (_ & Hhealthy & Hstale).
  rewrite Ed in Hnd, Hdisp |- *.
  destruct (headerRow_Some st display) as (cells & Hcells & Hkeys & Hf).
  exists locality, st, cells. split; [done|]. split; [done|]. split; [done|]. split.
  - rewrite Hkeys. rewrite <- list_fmap_compose in Hnd.
    change (idOf ∘ Some) with (Some ∘ nodeID) in Hnd. rewrite list_fmap_compose in Hnd.
    by apply NoDup_fmap in Hnd; [|apply _].
  - apply Forall2_fmap_l. apply Forall2_with_elem_of in Hf.
    eapply Forall2_impl; [exact Hf|]. intros i cell (Hi & Hk & Htext & _ & Hwarn & Hplain).
    exists i. simpl. split; [done|]. split; [done|]. split; [done|].
    assert (Hshown : nodeID i ∈ healthy ∨ nodeID i ∈ st).
    { apply Hdisp. rewrite <- list_fmap_compose.
      by apply (list_elem_of_fmap_2 (idOf ∘ Some)). }
    rewrite Hwarn, Hplain. split; split.
    + intros Hin. by apply Hstale in Hin as (_ & ? & _).
    + intros Hs. destruct Hshown as [Hin|Hin]; [|done].
      apply Hhealthy in Hin as (_ & Hl & _). congruence.
    + intros Hnin. destruct Hshown as [Hin|Hin]; [|done].
      by apply Hhealthy in Hin as (_ & ? & _).
    + intros Hl Hin. apply Hstale in Hin as (_ & Hs & _). congruence.
Qed.

Lemma headerRow_of_page_witness :
  ∃ r, render (H := literal_engine) mixedCluster noQuery = Ok (page r)
       ∧ ∃ locality st cells,
           localityRegex (H := literal_engine) noQuery = Ok locality
           ∧ staleIDs (H := literal_engine) mixedCluster noQuery locality = Ok st
           ∧ headerRow st (report_displayIdentities r) = Ok cells
           ∧ NoDup (hc_key <$> cells)
           ∧ Forall2 (λ identity cell,
                ∃ i, identity = Some i
                     ∧ hc_key cell = nodeID i
                     ∧ hc_text cell = ("n" ++ Number_toString (nodeID i))%string
                     ∧ (hc_className cell
                        = "network-table__cell network-table__cell--header network-table__cell--header-warning"
                        ↔ livenessStatusByNodeID mixedCluster !! nodeID i = Some SUSPECT)
                     ∧ (hc_className cell = "network-table__cell network-table__cell--header"
                        ↔ livenessStatusByNodeID mixedCluster !! nodeID i = Some HEALTHY))
              (report_displayIdentities r) cells.
Proof.
  destruct (render (H := literal_engine) mixedCluster noQuery) as [[|r]|] eqn:Hr;
    [by vm_compute in Hr | | by vm_compute in Hr].
  exists r. split; [done|].
  by apply (headerRow_of_page (H := literal_engine) mixedCluster noQuery).
Defined.

(** ** The requested ids, parsed back from their text *)

Lemma split_comma_nonempty (s : string) : ∃ t ts, split_comma s = t :: ts.
Proof.
  induction s as [|c s (t & ts & IH)]; simpl; [by eexists _, _|].
  destruct (Ascii.eqb c ","); [by eexists _, _|]. rewrite IH. by eexists _, _.
Qed.

Lemma split_comma_app (a b : string) :
  split_comma (a ++ "," ++ b)%string = (split_comma a ++ split_comma b)%list.
Proof.
  induction a as [|c a IH]; [done|].
  change (String c a ++ "," ++ b)%string with (String c (a ++ "," ++ b)). simpl.
  destruct (Ascii.eqb c ","); [by rewrite IH|].
  rewrite IH. by destruct (split_comma_nonempty a) as (t & ts & ->).
Qed.

Lemma getNodeIDs_app_comma (a b : string) :
  getNodeIDs (Some (a ++ "," ++ b)%string) = getNodeIDs (Some a) ∪ getNodeIDs (Some b).
Proof.
  apply set_eq. intros n. rewrite elem_of_union, !elem_of_getNodeIDs. split.
  - intros (Hn & s & tok & [= <-] & Hin & Hp). rewrite split_comma_app in Hin.
    apply elem_of_app in Hin as [Hin|Hin]; [left | right]; (split; [done|]); eauto.
  - intros [(Hn & s & tok & [= <-] & Hin & Hp)|(Hn & s & tok & [= <-] & Hin & Hp)];
      (split; [done|]); eexists _, tok; (split; [done|]); rewrite split_comma_app, elem_of_app;
      auto.
Qed.

(** X21. The ids requested by two texts joined with a comma are the ids
    requested by the one together with those requested by the other. *)
Theorem getNodeIDs_comma (a b : string) :
  getNodeIDs (Some (a ++ "," ++ b)%string) = getNodeIDs (Some a) ∪ getNodeIDs (Some b).
Proof. apply getNodeIDs_app_comma. Qed.












(** ** When the no-connection list and the latency table are produced *)

Section Produced.
Variable nodesSummary : NodesSummary.

Lemma noConnectionsFrom_Ok_iff (healthy : list Z) (a : Z) :
  (∃ g, noConnectionsFrom nodesSummary healthy a = Ok g) ↔
  ∃ status,
    nodeStatusByID nodesSummary !! a = Some status
    ∧ ∀ b, is_Some (status_latencies status !! b) -> b ∉ healthy ->
           is_Some (identityByID nodesSummary !! b) ∧ is_Some (identityByID nodesSummary !! a).
Proof.
  split.
  - intros [g Hg]. pose proof Hg as Hg'. unfold noConnectionsFrom in Hg'.
    apply bind_Ok_inv in Hg' as (lat & Hlat & Hs).
    destruct (nodeStatusByID nodesSummary !! a) as [status|] eqn:Hst; [|discriminate].
    injection Hlat as <-. exists status. split; [done|]. intros b Hb Hnb.
    apply bind_Ok_inv in Hs as (l1 & H1 & Hs).
    apply bind_Ok_inv in Hs as (l2 & H2 & Hs).
    apply bind_Ok_inv in Hs as (l3 & H3 & _).
    set (c := {| from := identityByID nodesSummary !! a;
                 to := identityByID nodesSummary !! b |}).
    assert (Hc : c ∈ map (λ nodeIDb, {| from := identityByID nodesSummary !! a;
                                        to := identityByID nodesSummary !! nodeIDb |})
                     (lodash.difference (lodash.keys (status_latencies status)) healthy)).
    { apply (list_elem_of_fmap_2' _ _ b); [|done].
      apply elem_of_difference_list. split; [by apply elem_of_keys | done]. }
    split.
    + destruct (sortBy_Ok_inv _ _ _ _ _ H1 Hc) as [k Hk]. simpl in Hk.
      destruct (identityByID nodesSummary !! b); [by eexists | discriminate].
    + assert (Hc2 : c ∈ l2).
      { by rewrite (sortBy_perm _ _ _ _ H2), (sortBy_perm _ _ _ _ H1). }
      destruct (sortBy_Ok_inv _ _ _ _ _ H3 Hc2) as [k Hk]. simpl in Hk.
      destruct (identityByID nodesSummary !! a); [by eexists | discriminate].
  - intros (status & Hst & Hpeers).
    destruct (lodash.difference (lodash.keys (status_latencies status)) healthy)
      as [|b peers] eqn:Hd.
    + unfold noConnectionsFrom. rewrite Hst. simpl. rewrite Hd. by eexists.
    + assert (Hb : b ∈ lodash.difference (lodash.keys (status_latencies status)) healthy)
        by (rewrite Hd; by left).
      apply elem_of_difference_list in Hb as [Hkey Hnb]. apply elem_of_keys in Hkey.
      destruct (Hpeers b Hkey Hnb) as [_ Hia].
      destruct (noConnectionsFrom_Ok nodesSummary healthy a status Hst Hia) as (g & Hg & _);
        [|by eexists].
      intros b' [Hkey' Hnb']%elem_of_difference_list. apply elem_of_keys in Hkey'.
      by destruct (Hpeers b' Hkey' Hnb').
Qed.

Lemma getLatencyCell_heat_inv (stale : gset Z) (sample : list number) (a b : Z)
    (heat : Heat) (ms : number) :
  getLatencyCell nodesSummary stale sample a b = Ok (CellHeat heat ms) ↔
  a ≠ b ∧ (a ∉ stale) ∧ (b ∉ stale)
  ∧ ∃ status l, nodeStatusByID nodesSummary !! a = Some status
                ∧ status_latencies status !! b = Some l
                ∧ ms = NanoToMilli (toNumber l)
                ∧ heat = heatOf sample ms.
Proof.
  unfold getLatencyCell. split.
  - case_decide as Hab; [discriminate|]. case_decide as Hst; [discriminate|].
    intros Hc. apply bind_Ok_inv in Hc as (lat & Hlat & Hc).
    destruct (nodeStatusByID nodesSummary !! a) as [status|]; [|discriminate].
    injection Hlat as <-. destruct (status_latencies status !! b) as [l|] eqn:Hl; [|discriminate].
    injection Hc as <- <-. split; [done|]. split; [tauto|]. split; [tauto|]. by exists status, l.
  - intros (Hab & Ha & Hb & status & l & Hst & Hl & -> & ->).
    rewrite decide_False by done. rewrite decide_False by tauto.
    rewrite Hst. simpl. by rewrite Hl.
Qed.

End Produced.

(** X23. The no-connection list is produced exactly when every healthy node
    has a status and, for every key of its latency map outside the healthy
    ids, both that peer and the node itself have an identity; otherwise a
    [TypeError] is thrown. *)
Theorem noConnections_produced_iff (nodesSummary : NodesSummary) (healthy : list Z) :
  ((∃ noConns, noConnections nodesSummary healthy = Ok noConns) ↔
   ∀ a, a ∈ healthy ->
        ∃ status,
          nodeStatusByID nodesSummary !! a = Some status
          ∧ ∀ b, is_Some (status_latencies status !! b) -> b ∉ healthy ->
                 is_Some (identityByID nodesSummary !! b)
                 ∧ is_Some (identityByID nodesSummary !! a))
  ∧ (∀ e, noConnections nodesSummary healthy = Throw e -> e = TypeError).
Proof.
  split; [|apply noConnections_Throw].
  unfold noConnections. split.
  - intros [noConns Hn] a Ha. apply bind_Ok_inv in Hn as (groups & Hg & _).
    apply (proj1 (noConnectionsFrom_Ok_iff nodesSummary healthy a)).
    by apply (proj1 (mapM_Ok_or_Throw (noConnectionsFrom nodesSummary healthy) healthy)
                (ex_intro _ groups Hg)).
  - intros Hall.
    destruct (proj2 (mapM_Ok_or_Throw (noConnectionsFrom nodesSummary healthy) healthy))
      as [groups ->]; [|by eexists].
    intros a Ha. by apply (proj2 (noConnectionsFrom_Ok_iff nodesSummary healthy a)), Hall.
Qed.

(** X24. The latency table is produced exactly when no displayed identity is
    [undefined] and every displayed node that is not stale has a status, or
    is the only displayed node that is not stale; otherwise a [TypeError] is
    thrown. *)
Theorem latencyTable_produced_iff (nodesSummary : NodesSummary) (stale : gset Z)
    (sample : list number) (display : list (option Identity)) :
  ((∃ table, latencyTable nodesSummary stale sample display = Ok table) ↔
   (∀ identity, identity ∈ display -> is_Some identity)
   ∧ (∀ a b, Some a ∈ display -> Some b ∈ display ->
             nodeID a ≠ nodeID b -> nodeID a ∉ stale -> nodeID b ∉ stale ->
             is_Some (nodeStatusByID nodesSummary !! nodeID a)))
  ∧ (∀ e, latencyTable nodesSummary stale sample display = Throw e -> e = TypeError).
Proof.
  split; [|apply latencyTable_Throw].
  unfold latencyTable. rewrite mapM_Ok_or_Throw. split.
  - intros Hrows. split.
    + intros ia Hia. destruct (Hrows ia Hia) as [row Hrow].
      assert (Hcell := proj1 (mapM_Ok_or_Throw _ _) (ex_intro _ row Hrow) ia Hia).
      destruct Hcell as [cell Hcell]. destruct ia; [by eexists | discriminate].
    + intros a b Ha Hb Hab Has Hbs. destruct (Hrows (Some a) Ha) as [row Hrow].
      assert (Hcell := proj1 (mapM_Ok_or_Throw _ _) (ex_intro _ row Hrow) (Some b) Hb).
      destruct Hcell as [cell Hcell]. simpl in Hcell.
      destruct (nodeStatusByID nodesSummary !! nodeID a) as [status|] eqn:Hst; [by eexists|].
      assert (Hthrow : getLatencyCell nodesSummary stale sample (nodeID a) (nodeID b)
                       = Throw TypeError).
      { unfold getLatencyCell. rewrite decide_False by done. rewrite decide_False by tauto.
        by rewrite Hst. }
      congruence.
  - intros [Hsome Hstatus] ia Hia. apply mapM_Ok_or_Throw. intros ib Hib.
    destruct (Hsome ia Hia) as [a ->]. destruct (Hsome ib Hib) as [b ->]. simpl.
    unfold getLatencyCell. case_decide as Hab; [by eexists|].
    case_decide as Hst; [by eexists|].
    destruct (Hstatus a b Hia Hib Hab) as [status ->]; [tauto..|]. simpl.
    destruct (status_latencies status !! nodeID b); by eexists.
Qed.

(** X25. In a page that [render] returns, the statistics are those of the
    table: the sample holds exactly the latencies shown in the heat cells of
    the latency table that are finite and above zero. *)
Theorem sample_is_table `{RegExpEngine} (nodesSummary : NodesSummary) (query : Query)
    (r : Report) :
  render nodesSummary query = Ok (page r) ->
  ∃ locality healthy sample,
    localityRegex query = Ok locality
    ∧ healthyIDs nodesSummary query locality = Ok healthy
    ∧ latencies nodesSummary healthy = Ok sample
    ∧ legend sample = Ok (report_legend r)
    ∧ ∀ ms, ms ∈ sample ↔
            isFinite ms = true ∧ num_gt ms (num_of_Z 0) = true
            ∧ ∃ i j row heat, report_latencyTable r !! i = Some row
                              ∧ row !! j = Some (CellHeat heat ms).
Proof.
  intros Hr.
  destruct (render_page_inv _ _ _ Hr)
    as (_ & _ & locality & healthy & st & sample
        & Hloc & Hh & Hst & Hd & Hsi & Hsample & _ & Htable & Hleg).
  exists locality, healthy, sample. do 4 (split; [done|]).
  destruct (sample_values _ _ _ Hsample) as (_ & _ & Hin).
  destruct (identities_content _ _ _ _ _ _ _ Hh Hst Hd Hsi) as (_ & Hdisp & _).
  destruct (ids_characterised _ _ _ _ _ Hh Hst) as (_ & Hhealthy & Hstale).
  destruct (latencyTable_lookup _ _ _ _ _ Htable) as (Hlen & Hrows & Hcell).
  assert (Hfresh : ∀ a, a ∈ healthy -> a ∉ st).
  { intros a Ha Hs. apply Hhealthy in Ha as (_ & Hl & _). apply Hstale in Hs as (_ & Hl' & _).
    congruence. }
  assert (Hidx : ∀ a, a ∈ healthy ->
             ∃ i ia, report_displayIdentities r !! i = Some (Some ia) ∧ nodeID ia = a).
  { intros a Ha. assert (Hshown : Some a ∈ idOf <$> report_displayIdentities r)
      by (apply Hdisp; by left).
    apply list_elem_of_fmap in Hshown as ([ia|] & Hid & Hia); [|discriminate].
    injection Hid as ->. apply list_elem_of_lookup in Hia as [i Hi]. by exists i, ia. }
  intros ms. rewrite Hin. split.
  - intros (a & b & status & l & Ha & Hb & Hab & Hs & Hl & -> & Hfin & Hpos).
    split; [done|]. split; [done|].
    destruct (Hidx a Ha) as (i & ia & Hi & <-). destruct (Hidx b Hb) as (j & ib & Hj & <-).
    destruct (lookup_lt_is_Some_2 (report_latencyTable r) i) as [row Hrow].
    { rewrite Hlen. by eapply lookup_lt_Some. }
    destruct (lookup_lt_is_Some_2 row j) as [cell Hc].
    { rewrite Forall_forall in Hrows. rewrite (Hrows row) by (by eapply list_elem_of_lookup_2).
      by eapply lookup_lt_Some. }
    destruct (Hcell i j row cell Hrow Hc) as (ia' & ib' & Hi' & Hj' & Hget).
    assert (ia' = ia) as -> by congruence. assert (ib' = ib) as -> by congruence.
    rewrite (getLatencyCell_entry _ _ _ _ _ status) in Hget by auto. rewrite Hl in Hget.
    injection Hget as <-. by eexists i, j, row, _.
  - intros (Hfin & Hpos & i & j & row & heat & Hrow & Hc).
    destruct (Hcell i j row _ Hrow Hc) as (ia & ib & Hi & Hj & Hget).
    apply getLatencyCell_heat_inv in Hget
      as (Hab & Has & Hbs & status & l & Hs & Hl & -> & _).
    assert (Hshown : ∀ k (ik : Identity), report_displayIdentities r !! k = Some (Some ik) ->
                       nodeID ik ∉ st -> nodeID ik ∈ healthy).
    { intros k ik Hk Hns.
      assert (Hin' : Some (nodeID ik) ∈ idOf <$> report_displayIdentities r).
      { apply (list_elem_of_fmap_2' idOf _ (Some ik)); [by eapply list_elem_of_lookup_2 | done]. }
      apply Hdisp in Hin' as [?|?]; [done | by destruct Hns]. }
    exists (nodeID ia), (nodeID ib), status, l.
    split; [by eapply Hshown|]. split; [by eapply Hshown|]. done.
Qed.

Lemma sample_is_table_witness :
  ∃ r, render (H := literal_engine) oneZeroLatency noQuery = Ok (page r)
       ∧ ∃ locality healthy sample,
           localityRegex (H := literal_engine) noQuery = Ok locality
           ∧ healthyIDs (H := literal_engine) oneZeroLatency noQuery locality = Ok healthy
           ∧ latencies oneZeroLatency healthy = Ok sample
           ∧ legend sample = Ok (report_legend r)
           ∧ ∀ ms, ms ∈ sample ↔
                   isFinite ms = true ∧ num_gt ms (num_of_Z 0) = true
                   ∧ ∃ i j row heat, report_latencyTable r !! i = Some row
                                     ∧ row !! j = Some (CellHeat heat ms).
Proof.
  destruct (render (H := literal_engine) oneZeroLatency noQuery) as [[|r]|] eqn:Hr;
    [by vm_compute in Hr | | by vm_compute in Hr].
  exists r. split; [done|].
  by apply (sample_is_table (H := literal_engine) oneZeroLatency noQuery).
Defined.

(** ** When the deviation is defined *)

Lemma d3Variance_None_iff (values : list number) :
  Forall (λ x, isNaN x = false) values ->
  d3Variance values = None ↔ (length values ≤ 1)%nat.
Proof.
  intros Hv. unfold d3Variance.
  match goal with
  | |- context [foldl ?f _ values] =>
      assert (Hc : ∀ m s j, ∃ m' s',
                 foldl f (m, s, j) values = (m', s', j + Z.of_nat (length values)))
  end.
  { induction Hv as [|x l Hx Hl IH]; intros m s j; simpl.
    - eexists _, _. f_equal. lia.
    - rewrite Hx. edestruct IH as (m' & s' & ->). eexists _, _. f_equal. lia. }
  destruct (Hc (num_of_Z 0) (num_of_Z 0) 0) as (m' & s' & ->).
  destruct (Z.ltb_spec 1 (0 + Z.of_nat (length values))); split; (done || lia).
Qed.

(** X26. Over a sample of numbers [stddev] is [undefined] exactly when the
    sample has fewer than two values, and [mean] exactly when it has none. *)
Theorem statistics_defined_iff (sample : list number) :
  Forall (λ x, isNaN x = false) sample ->
  (mean sample = None ↔ sample = [])
  ∧ (stddev sample = None ↔ (length sample ≤ 1)%nat).
Proof.
  intros Hv. split; [by apply d3Mean_None_iff|].
  rewrite <- (d3Variance_None_iff sample Hv). unfold stddev, d3Deviation.
  destruct (d3Variance sample) as [v|]; [|done]. by destruct (truthy v).
Qed.

Lemma statistics_defined_iff_witness :
  (mean (millis [5; 50]) = None ↔ millis [5; 50] = [])
  ∧ (stddev (millis [5; 50]) = None ↔ (length (millis [5; 50]%Z) ≤ 1)%nat).
Proof. apply statistics_defined_iff. repeat constructor. Defined.
